(** * terminal-canvas: the colour model and the cursor over a cell buffer

    A shallow embedding of [src/Color.js] and [src/Cursor.js].  JavaScript
    values are embedded as far as the two files inspect them.  A colour
    channel is an exact rational extended with NaN and the two infinities:
    the code only compares, selects and rounds channels, so no rounding
    error is involved.  Coordinates, sizes and indices are integers:
    [Module Cursor] computes with them as integers, which is what
    JavaScript does up to 2^53, and [Module Double] has the arithmetic of
    Numbers beyond.  Strings are strings of 8-bit characters, faithful on
    ASCII text, and objects are records of own data properties. *)

From Stdlib Require Import ZArith QArith Qround String Ascii List Lia Lqa.
From stdpp Require Import base option list sorting gmap sets strings.

Set Warnings "-register-all".
Local Open Scope string_scope.
Local Open Scope list_scope.
Local Open Scope stdpp_scope.
Local Open Scope Z_scope.

(** ** JavaScript values *)

Module JS.

(** A Number: NaN, an infinity, or a finite value.  Signed zero is not
    distinguished. *)
Inductive Num : Type :=
  | NaN
  | Inf (negative : bool)
  | Fin (q : Q).

Definition ofZ (z : Z) : Num := Fin (inject_Z z).

(** [a <= b] as JavaScript evaluates it: false as soon as one side is NaN. *)
Definition leb (a b : Num) : bool :=
  match a, b with
  | NaN, _ | _, NaN => false
  | Inf true, _ => true
  | _, Inf false => true
  | Fin p, Fin q => Qle_bool p q
  | Inf false, _ => false
  | Fin _, Inf true => false
  end.

Definition ltb (a b : Num) : bool :=
  match a, b with
  | NaN, _ | _, NaN => false
  | _, _ => negb (leb b a)
  end.

(** [Math.min] and [Math.max] on two arguments: NaN is contagious, otherwise
    one of the two arguments is returned. *)
Definition Math_min (a b : Num) : Num :=
  match a, b with
  | NaN, _ | _, NaN => NaN
  | _, _ => if leb a b then a else b
  end.

Definition Math_max (a b : Num) : Num :=
  match a, b with
  | NaN, _ | _, NaN => NaN
  | _, _ => if leb a b then b else a
  end.

(** The integer-valued Numbers, the range of [Math.round]. *)
Inductive Int : Type :=
  | INaN
  | IInf (negative : bool)
  | IInt (z : Z).

(** [Math.round]: the nearest integer, ties towards plus infinity. *)
Definition Math_round (n : Num) : Int :=
  match n with
  | NaN => INaN
  | Inf s => IInf s
  | Fin q => IInt (Qfloor (Qplus q (1 # 2)))
  end.

Definition ofInt (i : Int) : Num :=
  match i with
  | INaN => NaN
  | IInf s => Inf s
  | IInt z => ofZ z
  end.

(** Values.  An object is the association list of its own data properties
    (first binding wins); it has the plain [Object.prototype] and no
    callable property. *)
Inductive Val : Type :=
  | VUndef
  | VNull
  | VBool (b : bool)
  | VNum (n : Num)
  | VStr (s : string)
  | VObj (props : list (string * Val)).

Inductive Exn : Type :=
  | Error_cant_be_parsed (color : Val)   (* new Error(`Color ${color} can't be parsed`) *)
  | TypeError (msg : string)
  | RangeError (msg : string).

Inductive Result (A : Type) : Type :=
  | Ok (a : A)
  | Throw (e : Exn).
Arguments Ok {A} a.
Arguments Throw {A} e.

#[global] Instance Result_ret : MRet Result := fun A a => Ok a.
#[global] Instance Result_bind : MBind Result := fun A B f m =>
  match m with
  | Ok a => f a
  | Throw e => Throw e
  end.

Fixpoint assoc {A : Type} (key : string) (l : list (string * A)) : option A :=
  match l with
  | [] => None
  | (k, v) :: l' => if String.eqb k key then Some v else assoc key l'
  end.

(** [obj[key]] on an object of the model. *)
Definition get (props : list (string * Val)) (key : string) : Val :=
  match assoc key props with
  | Some v => v
  | None => VUndef
  end.

(** [Object.prototype.hasOwnProperty.call(v, key)] for a key that is neither
    an index nor [length]: ToObject throws on undefined and null, the wrapper
    of a primitive has no such own property. *)
Definition hasOwnProperty (v : Val) (key : string) : Result bool :=
  match v with
  | VUndef | VNull => Throw (TypeError "Cannot convert undefined or null to object")
  | VBool _ | VNum _ | VStr _ => Ok false
  | VObj props => Ok (bool_decide (is_Some (assoc key props)))
  end.

(** What ToString yields: a text, or the decimal spelling of a Number, of
    which the model only keeps that it is made of digits, sign, point,
    exponent, or is NaN or Infinity. *)
Inductive Subject : Type :=
  | Text (s : string)
  | Numeral (n : Num).

(** ToString.  On an object OrdinaryToPrimitive calls [toString], then
    [valueOf]; an own data property [toString] hides the inherited method and
    leaves no callable that returns a primitive. *)
Definition ToString (v : Val) : Result Subject :=
  match v with
  | VUndef => Ok (Text "undefined")
  | VNull => Ok (Text "null")
  | VBool true => Ok (Text "true")
  | VBool false => Ok (Text "false")
  | VNum n => Ok (Numeral n)
  | VStr s => Ok (Text s)
  | VObj props =>
      match assoc "toString" props with
      | Some _ => Throw (TypeError "Cannot convert object to primitive value")
      | None => Ok (Text "[object Object]")
      end
  end.

Definition is_digit (c : ascii) : bool :=
  let n := nat_of_ascii c in (48 <=? n)%nat && (n <=? 57)%nat.

Definition digit_value (c : ascii) : Z := Z.of_nat (nat_of_ascii c) - 48.

Fixpoint decimal_value (acc : Z) (s : string) : Z :=
  match s with
  | EmptyString => acc
  | String c s' => decimal_value (10 * acc + digit_value c) s'
  end.

Fixpoint all_chars (p : ascii -> bool) (s : string) : bool :=
  match s with
  | EmptyString => true
  | String c s' => p c && all_chars p s'
  end.

(** ToNumber on a string.  Exact on the empty string and on strings of
    decimal digits, which is what [RGB_REGEX] captures; every other string is
    taken to be no numeric literal (signs, fractions, exponents, radix
    prefixes and surrounding blanks are not modelled). *)
Definition StringToNumber (s : string) : Num :=
  if all_chars is_digit s then ofZ (decimal_value 0 s) else NaN.

(** ToNumber, as [Math.min] and [Math.max] apply it to their arguments. *)
Definition ToNumber (v : Val) : Result Num :=
  match v with
  | VUndef => Ok NaN
  | VNull => Ok (ofZ 0)
  | VBool true => Ok (ofZ 1)
  | VBool false => Ok (ofZ 0)
  | VNum n => Ok n
  | VStr s => Ok (StringToNumber s)
  | VObj props =>
      match assoc "toString" props with
      | Some _ => Throw (TypeError "Cannot convert object to primitive value")
      | None => Ok NaN
      end
  end.

(** [String.prototype.toUpperCase] on ASCII text: [a] to [z] go to [A] to
    [Z] and every other character stays.  JavaScript also maps characters
    outside ASCII, some of them to ASCII letters; a statement that
    concludes from a text not being a name of the dictionary is made for
    ASCII text. *)
Definition upper_char (c : ascii) : ascii :=
  let n := nat_of_ascii c in
  if (97 <=? n)%nat && (n <=? 122)%nat then ascii_of_nat (n - 32) else c.

Fixpoint toUpperCase (s : string) : string :=
  match s with
  | EmptyString => EmptyString
  | String c s' => String (upper_char c) (toUpperCase s')
  end.

(** Hexadecimal digits, either case. *)
Definition hex_value (c : ascii) : option Z :=
  let n := nat_of_ascii c in
  if (48 <=? n)%nat && (n <=? 57)%nat then Some (Z.of_nat n - 48)
  else if (65 <=? n)%nat && (n <=? 70)%nat then Some (Z.of_nat n - 55)
  else if (97 <=? n)%nat && (n <=? 102)%nat then Some (Z.of_nat n - 87)
  else None.

Definition is_hex_digit (c : ascii) : bool := bool_decide (is_Some (hex_value c)).

(** [parseInt(s, 16)] on a string that starts with neither blank, sign nor
    radix prefix: the longest prefix of hexadecimal digits, NaN when it is
    empty. *)
Fixpoint parse_hex_prefix (acc : option Z) (s : string) : option Z :=
  match s with
  | EmptyString => acc
  | String c s' =>
      match hex_value c with
      | Some d => parse_hex_prefix (Some (16 * default 0 acc + d)) s'
      | None => acc
      end
  end.

Definition parseInt16 (s : string) : Num :=
  match parse_hex_prefix None s with
  | Some z => ofZ z
  | None => NaN
  end.

(** [Number.prototype.toString(16)] on an integer-valued Number. *)
Definition hex_digit (d : Z) : ascii :=
  if d <? 10 then ascii_of_nat (Z.to_nat (48 + d)) else ascii_of_nat (Z.to_nat (87 + d)).

Fixpoint hex_digits (fuel : nat) (z : Z) (acc : string) : string :=
  match fuel with
  | O => acc
  | S fuel' =>
      let acc' := String (hex_digit (z mod 16)) acc in
      if z <? 16 then acc' else hex_digits fuel' (z / 16) acc'
  end.

Definition nat_toString16 (z : Z) : string :=
  hex_digits (S (Z.to_nat (Z.log2 z))) z EmptyString.

Definition toString16 (i : Int) : string :=
  match i with
  | INaN => "NaN"
  | IInf false => "Infinity"
  | IInf true => "-Infinity"
  | IInt z => if z <? 0 then String.append "-" (nat_toString16 (- z)) else nat_toString16 z
  end.

End JS.

(** ** Color.js *)

Module Color.
Import JS.

(** [RGB_REGEX = /rgb\((\d{1,3}), (\d{1,3}), (\d{1,3})\)/i] and
    [HEX_REGEX = /#([0-9A-F]{2})([0-9A-F]{2})([0-9A-F]{2})/i].  Neither is
    anchored: [exec] returns the captures of the leftmost match. *)

Definition Captures : Type := (string * string * string)%type.

Definition char_ci (expected : ascii) (c : ascii) : bool :=
  Ascii.eqb (upper_char c) (upper_char expected).

(** A literal, compared case-insensitively; the rest of the subject. *)
Fixpoint literal (lit s : string) : option string :=
  match lit, s with
  | EmptyString, _ => Some s
  | String l lit', String c s' => if char_ci l c then literal lit' s' else None
  | String _ _, EmptyString => None
  end.

(** Exactly [n] decimal digits. *)
Fixpoint digits_exactly (n : nat) (s : string) : option (string * string) :=
  match n, s with
  | O, _ => Some (EmptyString, s)
  | S n', String c s' =>
      if is_digit c
      then match digits_exactly n' s' with
           | Some (d, rest) => Some (String c d, rest)
           | None => None
           end
      else None
  | S _, EmptyString => None
  end.

(** [(\d{1,3})] followed by [k]: greedy, three digits are tried first, then
    two, then one. *)
Definition digits_1_3 {A : Type} (s : string) (k : string -> string -> option A) : option A :=
  let try n := match digits_exactly n s with
               | Some (d, rest) => k d rest
               | None => None
               end in
  match try 3%nat with
  | Some a => Some a
  | None => match try 2%nat with
            | Some a => Some a
            | None => try 1%nat
            end
  end.

Definition RGB_REGEX_at (s : string) : option Captures :=
  match literal "rgb(" s with
  | None => None
  | Some s1 =>
      digits_1_3 s1 (fun r s2 =>
        match literal ", " s2 with
        | None => None
        | Some s3 =>
            digits_1_3 s3 (fun g s4 =>
              match literal ", " s4 with
              | None => None
              | Some s5 =>
                  digits_1_3 s5 (fun b s6 =>
                    match literal ")" s6 with
                    | None => None
                    | Some _ => Some (r, g, b)
                    end)
              end)
        end)
  end.

Definition hex_pair (s : string) : option (string * string) :=
  match s with
  | String c1 (String c2 rest) =>
      if is_hex_digit c1 && is_hex_digit c2
      then Some (String c1 (String c2 EmptyString), rest)
      else None
  | _ => None
  end.

Definition HEX_REGEX_at (s : string) : option Captures :=
  match literal "#" s with
  | None => None
  | Some s1 =>
      match hex_pair s1 with
      | None => None
      | Some (r, s2) =>
          match hex_pair s2 with
          | None => None
          | Some (g, s3) =>
              match hex_pair s3 with
              | None => None
              | Some (b, _) => Some (r, g, b)
              end
          end
      end
  end.

(** The leftmost position at which the pattern matches. *)
Fixpoint search (at_start : string -> option Captures) (s : string) : option Captures :=
  match at_start s with
  | Some m => Some m
  | None => match s with
            | EmptyString => None
            | String _ s' => search at_start s'
            end
  end.

Definition RGB_REGEX : string -> option Captures := search RGB_REGEX_at.
Definition HEX_REGEX : string -> option Captures := search HEX_REGEX_at.

(** [re.test(v)]: the argument goes through ToString; the spelling of a
    Number has no [(] and no [#], so neither pattern matches it. *)
Definition test (re : string -> option Captures) (v : Val) : Result bool :=
  s ← ToString v;
  match s with
  | Text s => Ok (bool_decide (is_Some (re s)))
  | Numeral _ => Ok false
  end.

(** Dictionary of all available named colors. *)
Definition COLORS : list (string * string) :=
  [
    ("ALICE_BLUE", "#F0F8FF"); ("ANTIQUE_WHITE", "#FAEBD7"); ("AQUA", "#00FFFF");
    ("AZURE", "#F0FFFF"); ("BEIGE", "#F5F5DC"); ("BISQUE", "#FFE4C4");
    ("BLANCHED_ALMOND", "#FFEBCD"); ("BURLY_WOOD", "#DEB887"); ("CHARTREUSE", "#7FFF00");
    ("CHOCOLATE", "#D2691E"); ("CORAL", "#FF7F50"); ("CORN_FLOWER_BLUE", "#6495ED");
    ("CORN_SILK", "#FFF8DC"); ("CRIMSON", "#DC143C"); ("CYAN", "#00FFFF");
    ("DARK_BLUE", "#00008B"); ("DARK_CYAN", "#008B8B"); ("DARK_GOLDEN_ROD", "#B8860B");
    ("DARK_GRAY", "#A9A9A9"); ("DARK_GREEN", "#006400"); ("DARK_GREY", "#A9A9A9");
    ("DARK_KHAKI", "#BDB76B"); ("DARK_MAGENTA", "#8B008B"); ("DARK_OLIVE_GREEN", "#556B2F");
    ("DARK_ORANGE", "#FF8C00"); ("DARK_ORCHID", "#9932CC"); ("DARK_RED", "#8B0000");
    ("DARK_SALMON", "#E9967A"); ("DARK_SEA_GREEN", "#8FBC8F");
    ("DARK_SLATE_BLUE", "#483D8B"); ("DARK_SLATE_GRAY", "#2F4F4F");
    ("DARK_SLATE_GREY", "#2F4F4F"); ("DARK_TURQUOISE", "#00CED1");
    ("DARK_VIOLET", "#9400D3"); ("DEEP_PINK", "#FF1493"); ("DEEP_SKY_BLUE", "#00BFFF");
    ("DIM_GRAY", "#696969"); ("DIM_GREY", "#696969"); ("DODGER_BLUE", "#1E90FF");
    ("FIREBRICK", "#B22222"); ("FLORAL_WHITE", "#FFFAF0"); ("GAINS_BORO", "#DCDCDC");
    ("GHOST_WHITE", "#F8F8FF"); ("GREY", "#808080"); ("HONEYDEW", "#F0FFF0");
    ("HOT_PINK", "#FF69B4"); ("INDIAN_RED", "#CD5C5C"); ("IVORY", "#FFFFF0");
    ("KHAKI", "#F0E68C"); ("LAVENDER_BLUSH", "#FFF0F5"); ("LAWN_GREEN", "#7CFC00");
    ("LEMON_CHIFFON", "#FFFACD"); ("LIGHT_BLUE", "#ADD8E6"); ("LIGHT_CORAL", "#F08080");
    ("LIGHT_CYAN", "#E0FFFF"); ("LIGHT_GOLDENROD_YELLOW", "#FAFAD2");
    ("LIGHT_GRAY", "#D3D3D3"); ("LIGHT_GREEN", "#90EE90"); ("LIGHT_GREY", "#D3D3D3");
    ("LIGHT_PINK", "#FFB6C1"); ("LIGHT_SALMON", "#FFA07A"); ("LIGHT_SEA_GREEN", "#20B2AA");
    ("LIGHT_SKY_BLUE", "#87CEFA"); ("LIGHT_SLATE_GRAY", "#778899");
    ("LIGHT_SLATE_GREY", "#778899"); ("LIGHT_STEEL_BLUE", "#B0C4DE");
    ("LIGHT_YELLOW", "#FFFFE0"); ("LIME", "#00FF00"); ("LIME_GREEN", "#32CD32");
    ("LINEN", "#FAF0E6"); ("MEDIUM_AQUAMARINE", "#66CDAA"); ("MEDIUM_BLUE", "#0000CD");
    ("MEDIUM_ORCHID", "#BA55D3"); ("MEDIUM_PURPLE", "#9370DB");
    ("MEDIUM_SEA_GREEN", "#3CB371"); ("MEDIUM_SLATE_BLUE", "#7B68EE");
    ("MEDIUM_SPRING_GREEN", "#00FA9A"); ("MEDIUM_TURQUOISE", "#48D1CC");
    ("MEDIUM_VIOLET_RED", "#C71585"); ("MINT_CREAM", "#F5FFFA"); ("MISTY_ROSE", "#FFE4E1");
    ("MOCCASIN", "#FFE4B5"); ("NAVAJO_WHITE", "#FFDEAD"); ("NAVY", "#000080");
    ("OLD_LACE", "#FDF5E6"); ("OLIVE", "#808000"); ("OLIVE_DRAB", "#6B8E23");
    ("PALE_GOLDENROD", "#EEE8AA"); ("PALE_GREEN", "#98FB98"); ("PALE_TURQUOISE", "#AFEEEE");
    ("PALE_VIOLET_RED", "#DB7093"); ("PAPAYA_WHIP", "#FFEFD5"); ("PEACH_PUFF", "#FFDAB9");
    ("PERU", "#CD853F"); ("PINK", "#FFC0CB"); ("POWDER_BLUE", "#B0E0E6");
    ("PURPLE", "#800080"); ("REBECCA_PURPLE", "#663399"); ("ROSY_BROWN", "#BC8F8F");
    ("ROYAL_BLUE", "#4169E1"); ("SADDLE_BROWN", "#8B4513"); ("SANDY_BROWN", "#F4A460");
    ("SEASHELL", "#FFF5EE"); ("SIENNA", "#A0522D"); ("SLATE_BLUE", "#6A5ACD");
    ("SLATE_GRAY", "#708090"); ("SLATE_GREY", "#708090"); ("SNOW", "#FFFAFA");
    ("STEEL_BLUE", "#4682B4"); ("TEAL", "#008080"); ("TOMATO", "#FF6347");
    ("TURQUOISE", "#40E0D0"); ("VIOLET", "#EE82EE"); ("WHEAT", "#F5DEB3");
    ("WHITE_SMOKE", "#F5F5F5"); ("ALMOND", "#EFDECD"); ("ANTIQUE_BRASS", "#CD9575");
    ("APRICOT", "#FDD9B5"); ("AQUAMARINE", "#78DBE2"); ("ASPARAGUS", "#87A96B");
    ("ATOMIC_TANGERINE", "#FFA474"); ("BANANA_MANIA", "#FAE7B5"); ("BEAVER", "#9F8170");
    ("BITTERSWEET", "#FD7C6E"); ("BLACK", "#000000"); ("BLIZZARD_BLUE", "#ACE5EE");
    ("BLUE", "#1F75FE"); ("BLUE_BELL", "#A2A2D0"); ("BLUE_GRAY", "#6699CC");
    ("BLUE_GREEN", "#0D98BA"); ("BLUE_VIOLET", "#7366BD"); ("BLUSH", "#DE5D83");
    ("BRICK_RED", "#CB4154"); ("BROWN", "#B4674D"); ("BURNT_ORANGE", "#FF7F49");
    ("BURNT_SIENNA", "#EA7E5D"); ("CADET_BLUE", "#B0B7C6"); ("CANARY", "#FFFF99");
    ("CARIBBEAN_GREEN", "#1CD3A2"); ("CARNATION_PINK", "#FFAACC"); ("CERISE", "#DD4492");
    ("CERULEAN", "#1DACD6"); ("CHESTNUT", "#BC5D58"); ("COPPER", "#DD9475");
    ("CORNFLOWER", "#9ACEEB"); ("COTTON_CANDY", "#FFBCD9"); ("DANDELION", "#FDDB6D");
    ("DENIM", "#2B6CC4"); ("DESERT_SAND", "#EFCDB8"); ("EGGPLANT", "#6E5160");
    ("ELECTRIC_LIME", "#CEFF1D"); ("FERN", "#71BC78"); ("FOREST_GREEN", "#6DAE81");
    ("FUCHSIA", "#C364C5"); ("FUZZY_WUZZY", "#CC6666"); ("GOLD", "#E7C697");
    ("GOLDENROD", "#FCD975"); ("GRANNY_SMITH_APPLE", "#A8E4A0"); ("GRAY", "#95918C");
    ("GREEN", "#1CAC78"); ("GREEN_BLUE", "#1164B4"); ("GREEN_YELLOW", "#F0E891");
    ("HOT_MAGENTA", "#FF1DCE"); ("INCHWORM", "#B2EC5D"); ("INDIGO", "#5D76CB");
    ("JAZZBERRY_JAM", "#CA3767"); ("JUNGLE_GREEN", "#3BB08F"); ("LASER_LEMON", "#FEFE22");
    ("LAVENDER", "#FCB4D5"); ("LEMON_YELLOW", "#FFF44F");
    ("MACARONI_AND_CHEESE", "#FFBD88"); ("MAGENTA", "#F664AF"); ("MAGIC_MINT", "#AAF0D1");
    ("MAHOGANY", "#CD4A4C"); ("MAIZE", "#EDD19C"); ("MANATEE", "#979AAA");
    ("MANGO_TANGO", "#FF8243"); ("MAROON", "#C8385A"); ("MAUVELOUS", "#EF98AA");
    ("MELON", "#FDBCB4"); ("MIDNIGHT_BLUE", "#1A4876"); ("MOUNTAIN_MEADOW", "#30BA8F");
    ("MULBERRY", "#C54B8C"); ("NAVY_BLUE", "#1974D2"); ("NEON_CARROT", "#FFA343");
    ("OLIVE_GREEN", "#BAB86C"); ("ORANGE", "#FF7538"); ("ORANGE_RED", "#FF2B2B");
    ("ORANGE_YELLOW", "#F8D568"); ("ORCHID", "#E6A8D7"); ("OUTER_SPACE", "#414A4C");
    ("OUTRAGEOUS_ORANGE", "#FF6E4A"); ("PACIFIC_BLUE", "#1CA9C9"); ("PEACH", "#FFCFAB");
    ("PERIWINKLE", "#C5D0E6"); ("PIGGY_PINK", "#FDDDE6"); ("PINE_GREEN", "#158078");
    ("PINK_FLAMINGO", "#FC74FD"); ("PINK_SHERBET", "#F78FA7"); ("PLUM", "#8E4585");
    ("PURPLE_HEART", "#7442C8"); ("PURPLE_MOUNTAINS_MAJESTY", "#9D81BA");
    ("PURPLE_PIZZAZZ", "#FE4EDA"); ("RADICAL_RED", "#FF496C"); ("RAW_SIENNA", "#D68A59");
    ("RAW_UMBER", "#714B23"); ("RAZZLE_DAZZLE_ROSE", "#FF48D0"); ("RAZZMATAZZ", "#E3256B");
    ("RED", "#EE204D"); ("RED_ORANGE", "#FF5349"); ("RED_VIOLET", "#C0448F");
    ("ROBINS_EGG_BLUE", "#1FCECB"); ("ROYAL_PURPLE", "#7851A9"); ("SALMON", "#FF9BAA");
    ("SCARLET", "#FC2847"); ("SCREAMING_GREEN", "#76FF7A"); ("SEA_GREEN", "#9FE2BF");
    ("SEPIA", "#A5694F"); ("SHADOW", "#8A795D"); ("SHAMROCK", "#45CEA2");
    ("SHOCKING_PINK", "#FB7EFD"); ("SILVER", "#CDC5C2"); ("SKY_BLUE", "#80DAEB");
    ("SPRING_GREEN", "#ECEABE"); ("SUNGLOW", "#FFCF48"); ("SUNSET_ORANGE", "#FD5E53");
    ("TAN", "#FAA76C"); ("TEAL_BLUE", "#18A7B5"); ("THISTLE", "#EBC7DF");
    ("TICKLE_ME_PINK", "#FC89AC"); ("TIMBERWOLF", "#DBD7D2");
    ("TROPICAL_RAIN_FOREST", "#17806D"); ("TUMBLEWEED", "#DEAA88");
    ("TURQUOISE_BLUE", "#77DDE7"); ("UNMELLOW_YELLOW", "#FFFF66");
    ("VIOLET_PURPLE", "#926EAE"); ("VIOLET_BLUE", "#324AB2"); ("VIOLET_RED", "#F75394");
    ("VIVID_TANGERINE", "#FFA089"); ("VIVID_VIOLET", "#8F509D"); ("WHITE", "#FFFFFF");
    ("WILD_BLUE_YONDER", "#A2ADD0"); ("WILD_STRAWBERRY", "#FF43A4");
    ("WILD_WATERMELON", "#FC6C85"); ("WISTERIA", "#CDA4DE"); ("YELLOW", "#FCE883");
    ("YELLOW_GREEN", "#C5E384"); ("YELLOW_ORANGE", "#FFAE42")
  ].

Record Color : Type := { _r : Num; _g : Num; _b : Num }.

Record Rgb : Type := { r : Int; g : Int; b : Int }.

Definition getR (this : Color) : Int := Math_round (_r this).
Definition getG (this : Color) : Int := Math_round (_g this).
Definition getB (this : Color) : Int := Math_round (_b this).

(** [Math.max(0, Math.min(value, 255))]; both calls apply ToNumber. *)
Definition setR (this : Color) (value : Val) : Result Color :=
  n ← ToNumber value;
  Ok {| _r := Math_max (ofZ 0) (Math_min n (ofZ 255)); _g := _g this; _b := _b this |}.

Definition setG (this : Color) (value : Val) : Result Color :=
  n ← ToNumber value;
  Ok {| _r := _r this; _g := Math_max (ofZ 0) (Math_min n (ofZ 255)); _b := _b this |}.

Definition setB (this : Color) (value : Val) : Result Color :=
  n ← ToNumber value;
  Ok {| _r := _r this; _g := _g this; _b := Math_max (ofZ 0) (Math_min n (ofZ 255)) |}.

Definition toRgb (this : Color) : Rgb :=
  {| r := getR this; g := getG this; b := getB this |}.

Definition pad2 (c : string) : string :=
  if (String.length c =? 1)%nat then String.append "0" c else c.

Definition toHex (this : Color) : string :=
  String.append "#"
    (String.append (pad2 (toString16 (getR this)))
       (String.append (pad2 (toString16 (getG this)))
          (pad2 (toString16 (getB this))))).

(** [typeof color === 'string' && Color.COLORS[color.toUpperCase()]], as a
    truth value: every entry of the dictionary is a non-empty string. *)
Definition isNamed (color : Val) : bool :=
  match color with
  | VStr s => bool_decide (is_Some (assoc (toUpperCase s) COLORS))
  | _ => false
  end.

Definition isRgb (rgb : Val) : Result bool := test RGB_REGEX rgb.
Definition isHex (hex : Val) : Result bool := test HEX_REGEX hex.

(** The object literal [{ r, g, b }]. *)
Definition object_rgb (vr vg vb : Val) : Val :=
  VObj [("r", vr); ("g", vg); ("b", vb)].

(** [color.r] and the like; the constructor reads them only after
    [hasOwnProperty] has accepted [color]. *)
Definition member (color : Val) (key : string) : Result Val :=
  match color with
  | VUndef | VNull => Throw (TypeError "Cannot read properties of undefined or null")
  | VBool _ | VNum _ | VStr _ => Ok VUndef
  | VObj props => Ok (get props key)
  end.

Section Static.
(** [this.create], the constructor itself one call deeper. *)
Variable create : Val -> Result Color.

(** [rgb.match(RGB_REGEX)] needs a string receiver; destructuring the
    [null] of a failed match throws. *)
Definition fromRgb_in (rgb : Val) : Result Color :=
  match rgb with
  | VStr s =>
      match RGB_REGEX s with
      | Some (cr, cg, cb) => create (object_rgb (VStr cr) (VStr cg) (VStr cb))
      | None => Throw (TypeError "null is not iterable")
      end
  | _ => Throw (TypeError "rgb.match is not a function")
  end.

Definition fromHex_in (hex : Val) : Result Color :=
  match hex with
  | VStr s =>
      match HEX_REGEX s with
      | Some (cr, cg, cb) =>
          create (object_rgb (VNum (parseInt16 cr)) (VNum (parseInt16 cg))
                    (VNum (parseInt16 cb)))
      | None => Throw (TypeError "null is not iterable")
      end
  | _ => Throw (TypeError "hex.match is not a function")
  end.

(** The body of [constructor(color)]. *)
Definition constructor_in (color : Val) : Result Color :=
  if isNamed color then
    match color with
    | VStr s => fromHex_in (match assoc (toUpperCase s) COLORS with
                            | Some hex => VStr hex
                            | None => VUndef
                            end)
    | _ => Throw (TypeError "color.toUpperCase is not a function")
    end
  else
    rgb ← isRgb color;
    if (rgb : bool) then fromRgb_in color else
    hex ← isHex color;
    if (hex : bool) then fromHex_in color else
    own ← (has_r ← hasOwnProperty color "r";
           if (has_r : bool) then Ok true else
           has_g ← hasOwnProperty color "g";
           if (has_g : bool) then Ok true else
           hasOwnProperty color "b");
    if negb own then Throw (Error_cant_be_parsed color) else
    let this := {| _r := ofZ 0; _g := ofZ 0; _b := ofZ 0 |} in
    vr ← member color "r";
    this ← setR this vr;
    vg ← member color "g";
    this ← setG this vg;
    vb ← member color "b";
    setB this vb.
End Static.

(** [new Color(color)] with room for [depth] nested calls on the stack. *)
Fixpoint construct (depth : nat) (color : Val) : Result Color :=
  match depth with
  | O => Throw (RangeError "Maximum call stack size exceeded")
  | S depth' => constructor_in (construct depth') color
  end.

(** A name or a hex string leads to one nested call on an object, which
    leads to none: two frames are all the constructor ever needs (lemma
    [construct_depth] below). *)
Definition create (color : Val) : Result Color := construct 2 color.
Definition fromRgb (rgb : Val) : Result Color := fromRgb_in create rgb.
Definition fromHex (hex : Val) : Result Color := fromHex_in create hex.

End Color.

(** ** Cursor.js *)

Module Cursor.
Import JS.

(** Modelled from the spec: the class [Cell] of [./Cell], which the sources
    at hand import but do not contain.  A Cell is the rendering state of one
    grid position: character, absolute coordinates, background, foreground
    and display attributes, as [write] passes them to [new Cell].  The
    record holds values: a stored cell keeps the display attributes the pen
    had when [write] was entered. *)
Record Cell : Type := {
  cell_char : ascii;
  cell_x : Z;
  cell_y : Z;
  cell_background : Color.Rgb;
  cell_foreground : Color.Rgb;
  cell_display : Val
}.

(** Modelled from the spec: [Cell.prototype.setChar] replaces the character
    in place and keeps every other field. *)
Definition setChar (cell : Cell) (ch : ascii) : Cell :=
  {| cell_char := ch;
     cell_x := cell_x cell;
     cell_y := cell_y cell;
     cell_background := cell_background cell;
     cell_foreground := cell_foreground cell;
     cell_display := cell_display cell |}.

(** The buffer is a JavaScript array: [Some cell] is an element, [None] a
    hole, an index from [length] on is absent.  A cell sits in one slot:
    [write] allocates a [new Cell] for every character it stores, so the
    change [erase] makes to a cell in place shows in that slot alone. *)
Abbreviation Terminal := (list (option Cell)).

(** [terminal[pointer]]: [None] stands for [undefined]. *)
Definition array_get (terminal : Terminal) (pointer : Z) : option Cell :=
  if pointer <? 0 then None else mjoin (terminal !! Z.to_nat pointer).

(** [terminal[i] = cell] for an index [i >= 0]: an assignment past the end
    extends the array with holes.  From 2^32 - 1 on [i] is no array index
    in JavaScript: the assignment then sets a property that [terminal[i]]
    reads back but [length], [filter] and [map] do not see; a statement
    about the whole array is made for indices below. *)
Definition array_set (terminal : Terminal) (i : nat) (cell : Cell) : Terminal :=
  if (i <? length terminal)%nat
  then <[i := Some cell]> terminal
  else terminal ++ replicate (i - length terminal) None ++ [Some cell].

(** The fields of a cursor.  The constructor of the source assigns
    [_terminal], [_x], [_y], [_background], [_foreground] and [_display];
    [_width], [_height] and [_lastFrame] are read by the methods and come
    from outside this file.  Coordinates and sizes are integers (a
    coordinate is the [Math.floor] of a finite number), [_lastFrame] is a
    [Set] whose members are strings or [undefined] ([None]). *)
Record Cursor : Type := {
  _terminal : Terminal;
  _x : Z;
  _y : Z;
  _background : Color.Rgb;
  _foreground : Color.Rgb;
  _display : Val;
  _width : Z;
  _height : Z;
  _lastFrame : gset (option string)
}.

Definition with_terminal (terminal : Terminal) (this : Cursor) : Cursor :=
  {| _terminal := terminal; _x := _x this; _y := _y this;
     _background := _background this; _foreground := _foreground this;
     _display := _display this; _width := _width this; _height := _height this;
     _lastFrame := _lastFrame this |}.

Definition with_x (x : Z) (this : Cursor) : Cursor :=
  {| _terminal := _terminal this; _x := x; _y := _y this;
     _background := _background this; _foreground := _foreground this;
     _display := _display this; _width := _width this; _height := _height this;
     _lastFrame := _lastFrame this |}.

Definition with_y (y : Z) (this : Cursor) : Cursor :=
  {| _terminal := _terminal this; _x := _x this; _y := y;
     _background := _background this; _foreground := _foreground this;
     _display := _display this; _width := _width this; _height := _height this;
     _lastFrame := _lastFrame this |}.

Definition with_background (rgb : Color.Rgb) (this : Cursor) : Cursor :=
  {| _terminal := _terminal this; _x := _x this; _y := _y this;
     _background := rgb; _foreground := _foreground this;
     _display := _display this; _width := _width this; _height := _height this;
     _lastFrame := _lastFrame this |}.

Definition with_foreground (rgb : Color.Rgb) (this : Cursor) : Cursor :=
  {| _terminal := _terminal this; _x := _x this; _y := _y this;
     _background := _background this; _foreground := rgb;
     _display := _display this; _width := _width this; _height := _height this;
     _lastFrame := _lastFrame this |}.

Definition with_display (display : Val) (this : Cursor) : Cursor :=
  {| _terminal := _terminal this; _x := _x this; _y := _y this;
     _background := _background this; _foreground := _foreground this;
     _display := display; _width := _width this; _height := _height this;
     _lastFrame := _lastFrame this |}.

Definition with_lastFrame (frame : gset (option string)) (this : Cursor) : Cursor :=
  {| _terminal := _terminal this; _x := _x this; _y := _y this;
     _background := _background this; _foreground := _foreground this;
     _display := _display this; _width := _width this; _height := _height this;
     _lastFrame := frame |}.

(** *** Methods run on the receiver and may throw

    A method either returns, or throws with the receiver as the mutations
    made so far have left it. *)
Inductive Outcome (A : Type) : Type :=
  | Return (a : A) (this : Cursor)
  | Raise (e : Exn) (this : Cursor).
Arguments Return {A} a this.
Arguments Raise {A} e this.

Definition M (A : Type) : Type := Cursor -> Outcome A.

#[global] Instance M_ret : MRet M := fun A a this => Return a this.
#[global] Instance M_bind : MBind M := fun A B f m this =>
  match m this with
  | Return a this' => f a this'
  | Raise e this' => Raise e this'
  end.

Definition read {A : Type} (f : Cursor -> A) : M A := fun this => Return (f this) this.
Definition assign (f : Cursor -> Cursor) : M unit := fun this => Return tt (f this).
Definition throw {A : Type} (e : Exn) : M A := fun this => Raise e this.
Definition lift {A : Type} (r : Result A) : M A :=
  match r with
  | Ok a => mret a
  | Throw e => throw e
  end.

Definition final {A : Type} (o : Outcome A) : Cursor :=
  match o with
  | Return _ this => this
  | Raise _ this => this
  end.

(** A parameter with a default value: the default replaces [undefined]. *)
Definition or_default {A : Type} (arg : option A) (d : A) : A :=
  match arg with
  | Some a => a
  | None => d
  end.

Definition setTerminal (terminal : Terminal) : M unit := assign (with_terminal terminal).
Definition setX (x : Q) : M unit := assign (with_x (Qfloor x)).
Definition setY (y : Q) : M unit := assign (with_y (Qfloor y)).

Definition setBackground (background : Val) : M unit :=
  color ← lift (Color.create background);
  assign (with_background (Color.toRgb color)).

Definition setForeground (foreground : Val) : M unit :=
  color ← lift (Color.create foreground);
  assign (with_foreground (Color.toRgb color)).

Definition setDisplay (display : Val) : M unit := assign (with_display display).

(** [constructor(terminal)], run on the receiver as allocated. *)
Definition constructor (terminal : Terminal) : M unit :=
  _ ← setTerminal terminal;
  _ ← setX (inject_Z 0);
  _ ← setY (inject_Z 0);
  _ ← setBackground (VBool false);
  _ ← setForeground (VBool false);
  setDisplay (VBool false).

(** In this module sums, differences and products are those of the
    integers, and a loop runs once for every integer of its range: that is
    what the source does while the values it meets are at most 2^53 in
    magnitude.  [Module Double] has the same methods with every result
    rounded to a Number. *)
Definition getPointerFromXY (this : Cursor) (x y : option Z) : Z :=
  let x := or_default x (_x this) in
  let y := or_default y (_y this) in
  y * _width this + x.

(** [Math.floor(index / width)] is the floor quotient of two integers; with
    a width of zero the quotient is no integer and there is no pair. *)
Definition getXYFromPointer (this : Cursor) (index : Z) : option (Z * Z) :=
  if _width this =? 0 then None
  else Some (index - (index / _width this) * _width this, index / _width this).

(** [data.split('').forEach(...)] of [write], with the pen read once before
    the loop. *)
Fixpoint write_chars (background foreground : Color.Rgb) (display : Val)
    (chars : string) : M unit :=
  match chars with
  | EmptyString => mret tt
  | String char rest =>
      x ← read _x;
      y ← read _y;
      pointer ← read (fun this => getPointerFromXY this (Some x) (Some y));
      width ← read _width;
      height ← read _height;
      _ ← (if (0 <=? x) && (x <? width) && (0 <=? y) && (y <? height)
           then assign (fun this =>
                  with_terminal
                    (array_set (_terminal this) (Z.to_nat pointer)
                       {| cell_char := char; cell_x := x; cell_y := y;
                          cell_background := background;
                          cell_foreground := foreground;
                          cell_display := display |}) this)
           else mret tt);
      _ ← assign (fun this => with_x (_x this + 1) this);
      write_chars background foreground display rest
  end.

Definition write (data : string) : M unit :=
  background ← read _background;
  foreground ← read _foreground;
  display ← read _display;
  write_chars background foreground display data.

Section Flush.
(** [Cell.prototype.toString]: the encoder of a cell, outside the sources
    at hand; any function of the cell's fields. *)
Variable Cell_toString : Cell -> string.

(** [filter] and [map] visit the elements and skip the holes; [map] keeps
    the holes, and the iteration that fills the [Set] reads a hole as
    [undefined]. *)
Definition array_elements (terminal : Terminal) : list Cell := omap id terminal.

(** [flush()], with [process.stdout] as the list of the strings written to
    it so far. *)
Definition flush (this : Cursor) (stdout : list string) : Cursor * list string :=
  let changed :=
    List.filter (fun item => bool_decide (Some (Cell_toString item) ∉ _lastFrame this))
      (array_elements (_terminal this)) in
  let stdout' := stdout ++ [String.concat "" (map Cell_toString changed)] in
  let frame : gset (option string) :=
    list_to_set (map (fun slot => option_map Cell_toString slot) (_terminal this)) in
  (with_lastFrame frame this, stdout').
End Flush.

Definition up (y : option Q) : M unit :=
  assign (fun this => with_y (_y this - Qfloor (or_default y (inject_Z 1))) this).

Definition down (y : option Q) : M unit :=
  assign (fun this => with_y (_y this + Qfloor (or_default y (inject_Z 1))) this).

Definition right (x : option Q) : M unit :=
  assign (fun this => with_x (_x this + Qfloor (or_default x (inject_Z 1))) this).

Definition left (x : option Q) : M unit :=
  assign (fun this => with_x (_x this - Qfloor (or_default x (inject_Z 1))) this).

Definition Qltb (p q : Q) : bool := negb (Qle_bool q p).

Definition moveBy (x y : Q) : M unit :=
  _ ← (if Qltb x (inject_Z 0) then left (Some (Qopp x)) else mret tt);
  _ ← (if Qltb (inject_Z 0) x then right (Some x) else mret tt);
  _ ← (if Qltb y (inject_Z 0) then up (Some (Qopp y)) else mret tt);
  if Qltb (inject_Z 0) y then down (Some y) else mret tt.

Definition moveTo (x y : Q) : M unit :=
  _ ← assign (with_x (Qfloor x));
  assign (with_y (Qfloor y)).

Definition foreground (color : Val) : M unit :=
  c ← lift (Color.create color);
  assign (with_foreground (Color.toRgb c)).

Definition background (color : Val) : M unit :=
  c ← lift (Color.create color);
  assign (with_background (Color.toRgb c)).

Fixpoint put (key : string) (v : Val) (props : list (string * Val)) : list (string * Val) :=
  match props with
  | [] => [(key, v)]
  | (k, w) :: props' =>
      if String.eqb k key then (k, v) :: props' else (k, w) :: put key v props'
  end.

(** [this._display.key = value] in strict code: only an object takes the
    property. *)
Definition set_display_flag (key : string) (value : Val) : M unit :=
  display ← read _display;
  match display with
  | VObj props => assign (with_display (VObj (put key value props)))
  | VUndef | VNull => throw (TypeError "Cannot set properties of undefined or null")
  | VBool _ | VNum _ | VStr _ => throw (TypeError "Cannot create property on a primitive")
  end.

Definition flag_arg (arg : option bool) : Val := VBool (or_default arg true).

Definition bold (isBold : option bool) : M unit := set_display_flag "bold" (flag_arg isBold).
Definition dim (isDim : option bool) : M unit := set_display_flag "dim" (flag_arg isDim).
Definition underlined (isUnderlined : option bool) : M unit :=
  set_display_flag "underlined" (flag_arg isUnderlined).
Definition blink (isBlink : option bool) : M unit := set_display_flag "blink" (flag_arg isBlink).
Definition reverse (isReverse : option bool) : M unit :=
  set_display_flag "reverse" (flag_arg isReverse).
Definition hidden (isHidden : option bool) : M unit :=
  set_display_flag "hidden" (flag_arg isHidden).

(** [for (let i = lo; i <= hi; i++) body(i)]: [count] iterations from [i]. *)
Fixpoint for_count (count : nat) (i : Z) (body : Z -> M unit) : M unit :=
  match count with
  | O => mret tt
  | S count' => _ ← body i; for_count count' (i + 1) body
  end.

Definition for_to (lo hi : Z) (body : Z -> M unit) : M unit :=
  for_count (Z.to_nat (hi - lo + 1)) lo body.

(** [this._terminal[this.getPointerFromXY(x, y)].setChar(' ')]: calling a
    method of [undefined] throws; a cell is changed in place. *)
Definition erase_at (x y : Z) : M unit :=
  pointer ← read (fun this => getPointerFromXY this (Some x) (Some y));
  slot ← read (fun this => array_get (_terminal this) pointer);
  match slot with
  | None => throw (TypeError "Cannot read properties of undefined (reading 'setChar')")
  | Some cell =>
      assign (fun this =>
        with_terminal (<[Z.to_nat pointer := Some (setChar cell " ")]> (_terminal this)) this)
  end.

Definition erase (x1 y1 x2 y2 : Z) : M unit :=
  for_to y1 y2 (fun y => for_to x1 x2 (fun x => erase_at x y)).

Definition eraseToEnd : M unit :=
  x ← read _x; y ← read _y; width ← read _width;
  erase x y (width - 1) y.

Definition eraseToStart : M unit :=
  x ← read _x; y ← read _y;
  erase 0 y x y.

Definition eraseToDown : M unit :=
  y ← read _y; width ← read _width; height ← read _height;
  erase 0 y (width - 1) (height - 1).

Definition eraseToUp : M unit :=
  y ← read _y; width ← read _width;
  erase 0 0 (width - 1) y.

Definition eraseLine : M unit :=
  y ← read _y; width ← read _width;
  erase 0 y (width - 1) y.

Definition eraseScreen : M unit :=
  width ← read _width; height ← read _height;
  erase 0 0 (width - 1) (height - 1).

End Cursor.

(** ** Cursor.js with the arithmetic of Numbers

    Coordinates, sizes and indices of the source are Numbers, IEEE doubles.
    [Module Cursor] computes with them as integers, which is what the
    source does while every value it meets stays within 2^53 in magnitude.
    Here the methods that compute indices and count in loops are embedded
    once more, every sum, difference, product and quotient rounded to the
    nearest double the way the source has it; a loop that may never end
    takes fuel.  Overflow to Infinity (magnitudes from 2^1024 on) and
    subnormal quotients are left out. *)

Module Double.
Import JS Cursor.

(** The double nearest to an integer: the integer itself up to 2^53, and
    beyond that the nearest multiple of the spacing of its binade, a tie
    going to the even mantissa. *)
Definition nearest (z : Z) : Z :=
  if Z.abs z <=? 2 ^ 53 then z
  else
    let ulp := 2 ^ (Z.log2 (Z.abs z) - 52) in
    let q := z / ulp in
    let r := z mod ulp in
    if 2 * r <? ulp then q * ulp
    else if ulp <? 2 * r then (q + 1) * ulp
    else if Z.even q then q * ulp else (q + 1) * ulp.

(** [a + b], [a - b] and [a * b] on integer-valued Numbers. *)
Definition add (a b : Z) : Z := nearest (a + b).
Definition sub (a b : Z) : Z := nearest (a - b).
Definition mul (a b : Z) : Z := nearest (a * b).

(** The double nearest to [n / d] for positive integers is [m * 2^e], with
    [e] the exponent that puts [n / (d * 2^e)] between 2^52 and 2^53 and
    [m] that quotient rounded to an integer, a tie going to the even one. *)
Definition scaled (n d e : Z) : Z * Z :=
  if 0 <=? e then (n, d * 2 ^ e) else (n * 2 ^ (- e), d).

Definition exponent (n d : Z) : Z :=
  let e0 := Z.log2 n - Z.log2 d - 52 in
  if 2 ^ 52 * snd (scaled n d e0) <=? fst (scaled n d e0) then e0 else e0 - 1.

Definition mantissa (n d e : Z) : Z :=
  let a := fst (scaled n d e) in
  let b := snd (scaled n d e) in
  let m := a / b in
  let r := a mod b in
  if 2 * r <? b then m
  else if b <? 2 * r then m + 1
  else if Z.even m then m else m + 1.

(** [Math.floor(a / b)] for integers [a] and [b], [b] not zero: the
    quotient is rounded to a double first. *)
Definition floor_div (a b : Z) : Z :=
  if a =? 0 then 0
  else
    let e := exponent (Z.abs a) (Z.abs b) in
    let m := mantissa (Z.abs a) (Z.abs b) e in
    let s := Z.sgn a * Z.sgn b in
    if 0 <=? e then s * m * 2 ^ e else (s * m) / 2 ^ (- e).

Definition getPointerFromXY (this : Cursor) (x y : option Z) : Z :=
  let x := or_default x (_x this) in
  let y := or_default y (_y this) in
  add (mul y (_width this)) x.

(** With a width of zero the quotient is an infinity or NaN, and there is
    no pair of integers. *)
Definition getXYFromPointer (this : Cursor) (index : Z) : option (Z * Z) :=
  if _width this =? 0 then None
  else Some (sub index (mul (floor_div index (_width this)) (_width this)),
             floor_div index (_width this)).

Fixpoint write_chars (background foreground : Color.Rgb) (display : Val)
    (chars : string) : M unit :=
  match chars with
  | EmptyString => mret tt
  | String char rest =>
      x ← read _x;
      y ← read _y;
      pointer ← read (fun this => getPointerFromXY this (Some x) (Some y));
      width ← read _width;
      height ← read _height;
      _ ← (if (0 <=? x) && (x <? width) && (0 <=? y) && (y <? height)
           then assign (fun this =>
                  with_terminal
                    (array_set (_terminal this) (Z.to_nat pointer)
                       {| cell_char := char; cell_x := x; cell_y := y;
                          cell_background := background;
                          cell_foreground := foreground;
                          cell_display := display |}) this)
           else mret tt);
      _ ← assign (fun this => with_x (add (_x this) 1) this);
      write_chars background foreground display rest
  end.

Definition write (data : string) : M unit :=
  background ← read _background;
  foreground ← read _foreground;
  display ← read _display;
  write_chars background foreground display data.

Definition up (y : option Q) : M unit :=
  assign (fun this => with_y (sub (_y this) (Qfloor (or_default y (inject_Z 1)))) this).

Definition down (y : option Q) : M unit :=
  assign (fun this => with_y (add (_y this) (Qfloor (or_default y (inject_Z 1)))) this).

Definition right (x : option Q) : M unit :=
  assign (fun this => with_x (add (_x this) (Qfloor (or_default x (inject_Z 1)))) this).

Definition left (x : option Q) : M unit :=
  assign (fun this => with_x (sub (_x this) (Qfloor (or_default x (inject_Z 1)))) this).

Definition moveBy (x y : Q) : M unit :=
  _ ← (if Qltb x (inject_Z 0) then left (Some (Qopp x)) else mret tt);
  _ ← (if Qltb (inject_Z 0) x then right (Some x) else mret tt);
  _ ← (if Qltb y (inject_Z 0) then up (Some (Qopp y)) else mret tt);
  if Qltb (inject_Z 0) y then down (Some y) else mret tt.

Definition erase_at (x y : Z) : M unit :=
  pointer ← read (fun this => getPointerFromXY this (Some x) (Some y));
  slot ← read (fun this => array_get (_terminal this) pointer);
  match slot with
  | None => throw (TypeError "Cannot read properties of undefined (reading 'setChar')")
  | Some cell =>
      assign (fun this =>
        with_terminal (<[Z.to_nat pointer := Some (setChar cell " ")]> (_terminal this)) this)
  end.

(** [for (let i = lo; i <= hi; i++) body(i)] from the counter [i] on.  The
    counter is a Number: [i++] is [i + 1] rounded, which from 2^53 on may
    be [i] again.  [fuel] bounds the number of tests of [i <= hi]; [None]
    says that the loop has not ended within it. *)
Fixpoint for_to (fuel : nat) (i hi : Z) (body : Z -> Cursor -> option (Outcome unit))
    (this : Cursor) : option (Outcome unit) :=
  match fuel with
  | O => None
  | S fuel' =>
      if i <=? hi
      then match body i this with
           | Some (Return _ this') => for_to fuel' (add i 1) hi body this'
           | Some (Raise e this') => Some (Raise e this')
           | None => None
           end
      else Some (Return tt this)
  end.

Definition erase (fuel : nat) (x1 y1 x2 y2 : Z) : Cursor -> option (Outcome unit) :=
  for_to fuel y1 y2 (fun y =>
    for_to fuel x1 x2 (fun x this => Some (erase_at x y this))).

Definition eraseToEnd (fuel : nat) (this : Cursor) : option (Outcome unit) :=
  erase fuel (_x this) (_y this) (sub (_width this) 1) (_y this) this.

Definition eraseToStart (fuel : nat) (this : Cursor) : option (Outcome unit) :=
  erase fuel 0 (_y this) (_x this) (_y this) this.

Definition eraseToDown (fuel : nat) (this : Cursor) : option (Outcome unit) :=
  erase fuel 0 (_y this) (sub (_width this) 1) (sub (_height this) 1) this.

Definition eraseToUp (fuel : nat) (this : Cursor) : option (Outcome unit) :=
  erase fuel 0 0 (sub (_width this) 1) (_y this) this.

Definition eraseLine (fuel : nat) (this : Cursor) : option (Outcome unit) :=
  erase fuel 0 (_y this) (sub (_width this) 1) (_y this) this.

Definition eraseScreen (fuel : nat) (this : Cursor) : option (Outcome unit) :=
  erase fuel 0 0 (sub (_width this) 1) (sub (_height this) 1) this.

End Double.

(** ** Vocabulary of the statements *)

Module Spec.
Import JS Color Cursor.

(** No [RangeError] of an exhausted stack. *)
Definition in_stack {A : Type} (res : Result A) : Prop :=
  forall msg, res <> Throw (RangeError msg).

(** What the three channel setters store for a Number. *)
Definition clamped (n : Num) : Num := Math_max (ofZ 0) (Math_min n (ofZ 255)).

(** One channel of [toHex]: two hexadecimal digits that [parseInt] reads
    back, none of them an [r]. *)
Definition channel_ok (z : Z) : bool :=
  match pad2 (toString16 (IInt z)) with
  | String c1 (String c2 EmptyString) =>
      is_hex_digit c1 && is_hex_digit c2 &&
      negb (char_ci "r" c1) && negb (char_ci "r" c2) &&
      match parse_hex_prefix None (String c1 (String c2 EmptyString)) with
      | Some v => v =? z
      | None => false
      end
  | _ => false
  end.

(** The representations of a colour, in the words of the specification: a
    name of the dictionary in any case, the text [rgb(r, g, b)] with one to
    three decimal digits per channel, the text [#RRGGBB], an object with
    the three properties [r], [g] and [b]. *)
Definition names_color (s : string) : Prop :=
  is_Some (assoc (toUpperCase s) COLORS).

Definition one_to_three_digits (d : string) : Prop :=
  all_chars is_digit d = true /\ (1 <= String.length d <= 3)%nat.

Definition rgb_text (s : string) : Prop :=
  exists dr dg db : string,
    one_to_three_digits dr /\ one_to_three_digits dg /\ one_to_three_digits db /\
    toUpperCase s =
      String.append "RGB("
        (String.append dr (String.append ", "
           (String.append dg (String.append ", " (String.append db ")"))))).

Definition hex_text (s : string) : Prop :=
  exists h : string,
    String.length h = 6%nat /\ all_chars is_hex_digit h = true /\
    s = String.append "#" h.

Definition exposes_rgb (v : Val) : Prop :=
  exists props : list (string * Val),
    v = VObj props /\
    is_Some (assoc "r" props) /\ is_Some (assoc "g" props) /\ is_Some (assoc "b" props).

Definition recognized (v : Val) : Prop :=
  (exists s : string, v = VStr s /\ (names_color s \/ rgb_text s \/ hex_text s)) \/
  exposes_rgb v.

(** A value whose conversion to a primitive cannot throw: not an object
    with an own property [toString], which in the model is no function. *)
Definition converts (v : Val) : Prop :=
  forall props, v = VObj props -> assoc "toString" props = None.

(** An object whose conversions cannot throw, nor those of its channels. *)
Definition plain (v : Val) : Prop :=
  converts v /\
  forall props key w,
    v = VObj props -> key = "r" \/ key = "g" \/ key = "b" ->
    assoc key props = Some w -> converts w.

(** Text of the ASCII range, on which [toUpperCase] of the model is that of
    JavaScript. *)
Definition ascii_text (s : string) : Prop :=
  all_chars (fun c => (nat_of_ascii c <? 128)%nat) s = true.

(** [Color.fromHex] returns on this text. *)
Definition parses (hex : string) : bool :=
  match fromHex (VStr hex) with
  | Ok _ => true
  | Throw _ => false
  end.

(** The position is on the grid. *)
Definition in_bounds (this : Cursor) (x y : Z) : Prop :=
  0 <= x < _width this /\ 0 <= y < _height this.

(** The values of [i] in [for (let i = lo; i <= hi; i++)]. *)
Definition zrange (lo hi : Z) : list Z :=
  map (fun k => lo + Z.of_nat k) (seq 0 (Z.to_nat (hi - lo + 1))).

(** The positions of the rectangle, in the order the two loops of [erase]
    visit them. *)
Definition rect (x1 y1 x2 y2 : Z) : list (Z * Z) :=
  flat_map (fun y => map (fun x => (x, y)) (zrange x1 x2)) (zrange y1 y2).

(** [a] is visited before [b]: an earlier row, or the same row and an
    earlier column. *)
Definition before (a b : Z * Z) : Prop :=
  snd a < snd b \/ (snd a = snd b /\ fst a < fst b).

(** A body run on the members of a list in turn, up to the first throw. *)
Fixpoint each {A : Type} (body : A -> M unit) (l : list A) : M unit :=
  match l with
  | [] => mret tt
  | a :: l' => _ ← body a; each body l'
  end.

Definition erase_pos (pos : Z * Z) : M unit := erase_at (fst pos) (snd pos).

Definition pointer_of (this : Cursor) (pos : Z * Z) : Z :=
  getPointerFromXY this (Some (fst pos)) (Some (snd pos)).

Definition blank (cell : Cell) : Cell := setChar cell " ".

(** The slot [p] once the slots [ps] have been blanked. *)
Definition blanked (ps : list Z) (terminal : Terminal) (p : Z) : option Cell :=
  if decide (p ∈ ps) then blank <$> array_get terminal p else array_get terminal p.

(** Everything but the buffer is as before. *)
Definition same_cursor (this this' : Cursor) : Prop :=
  _x this' = _x this /\ _y this' = _y this /\
  _background this' = _background this /\ _foreground this' = _foreground this /\
  _display this' = _display this /\
  _width this' = _width this /\ _height this' = _height this /\
  _lastFrame this' = _lastFrame this.

(** What [flush] is to emit, slot after slot in the order of the indices,
    which is the order of the rows: the encoding of every stored cell whose
    encoding is not in the retained set. *)
Fixpoint emitted (encode : Cell -> string) (frame : gset (option string))
    (slots : Terminal) : string :=
  match slots with
  | [] => EmptyString
  | None :: rest => emitted encode frame rest
  | Some cell :: rest =>
      if decide (Some (encode cell) ∈ frame)
      then emitted encode frame rest
      else String.append (encode cell) (emitted encode frame rest)
  end.

(** *** Concrete cursors *)

Definition black : Rgb := {| r := IInt 0; g := IInt 0; b := IInt 0 |}.

(** A cursor over an array without elements, with a pen. *)
Definition empty_cursor (width height : Z) : Cursor :=
  {| _terminal := []; _x := 0; _y := 0;
     _background := black; _foreground := black; _display := VObj [];
     _width := width; _height := height; _lastFrame := ∅ |}.

(** A 3 x 1 grid after [write("abc")], a 2 x 1 grid after [write("a")]. *)
Definition abc_3x1 : Cursor := final (write "abc" (empty_cursor 3 1)).
Definition a_2x1 : Cursor := final (write "a" (empty_cursor 2 1)).

(** An encoder to run examples with: the character, then its position. *)
Definition sample_encode (cell : Cell) : string :=
  String (cell_char cell)
    (String.append "@" (String.append (nat_toString16 (cell_x cell))
       (String.append "," (nat_toString16 (cell_y cell))))).

End Spec.

(** ** Further vocabulary *)

Module SpecMore.
Import JS Color Cursor Spec.

(** What a channel field can hold once a setter has run: NaN, or a finite
    value from 0 to 255. *)
Definition channel_stored (n : Num) : Prop :=
  n = NaN \/ exists q : Q, n = Fin q /\ Qle (inject_Z 0) q /\ Qle q (inject_Z 255).

(** What a getter can return then: NaN, or an integer from 0 to 255. *)
Definition channel_read (i : Int) : Prop :=
  i = INaN \/ exists z : Z, i = IInt z /\ 0 <= z <= 255.

(** The text [#] and six hexadecimal digits. *)
Definition hex_form (hex : string) : bool :=
  match hex with
  | String h (String c1 (String c2 (String c3 (String c4 (String c5 (String c6 EmptyString)))))) =>
      Ascii.eqb h "#" &&
      is_hex_digit c1 && is_hex_digit c2 && is_hex_digit c3 &&
      is_hex_digit c4 && is_hex_digit c5 && is_hex_digit c6
  | _ => false
  end.

(** What one character says about the matchers. *)
Definition hex_char_ok (c : ascii) : bool :=
  match hex_value c with
  | Some v =>
      (0 <=? v) && (v <? 16) && is_hex_digit c &&
      negb (char_ci "r" c) && negb (char_ci "#" c) &&
      Ascii.eqb (upper_char (hex_digit v)) (upper_char c)
  | None => negb (is_hex_digit c)
  end.

(** One channel written by [toHex] from two digit values. *)
Definition pair_ok (v : Z) : bool :=
  let v1 := v / 16 in
  let v2 := v mod 16 in
  match pad2 (toString16 (IInt v)) with
  | String d1 (String d2 EmptyString) =>
      Ascii.eqb d1 (hex_digit v1) && Ascii.eqb d2 (hex_digit v2)
  | _ => false
  end.

(** A finite number cut to an integer towards zero. *)
Definition truncate (x : Q) : Z := Z.quot (Qnum x) (Z.pos (Qden x)).

(** Everything but the position is as before. *)
Definition same_but_position (this this' : Cursor) : Prop :=
  _terminal this' = _terminal this /\
  _background this' = _background this /\ _foreground this' = _foreground this /\
  _display this' = _display this /\
  _width this' = _width this /\ _height this' = _height this /\
  _lastFrame this' = _lastFrame this.

(** Everything but the display attributes is as before. *)
Definition same_but_display (this this' : Cursor) : Prop :=
  _terminal this' = _terminal this /\ _x this' = _x this /\ _y this' = _y this /\
  _background this' = _background this /\ _foreground this' = _foreground this /\
  _width this' = _width this /\ _height this' = _height this /\
  _lastFrame this' = _lastFrame this.

(** A flag setter has set [key] to [arg], [true] when [arg] is left out, in
    the display object [props], and touched nothing else. *)
Definition flag_set (key : string) (arg : option bool) (props : list (string * Val))
    (this : Cursor) (out : Outcome unit) : Prop :=
  exists (this' : Cursor) (props' : list (string * Val)),
    out = Return tt this' /\
    _display this' = VObj props' /\
    get props' key = VBool (or_default arg true) /\
    (forall k, k <> key -> get props' k = get props k) /\
    same_but_display this this'.

(** A flag setter has thrown a [TypeError] and left the cursor as it was. *)
Definition flag_refused (this : Cursor) (out : Outcome unit) : Prop :=
  exists msg : string, out = Raise (TypeError msg) this.

(** The cells [write] builds for a text from column [x] of row [y]. *)
Fixpoint written (bg fg : Rgb) (d : Val) (x y : Z) (data : string) : list Cell :=
  match data with
  | EmptyString => []
  | String ch rest =>
      {| cell_char := ch; cell_x := x; cell_y := y;
         cell_background := bg; cell_foreground := fg; cell_display := d |}
      :: written bg fg d (x + 1) y rest
  end.

(** The array [terminal] with [cells] laid over it from index [p]: the
    elements before [p], with holes up to [p] when the array is shorter,
    the cells, and the elements past them. *)
Definition splice (terminal : Terminal) (p : nat) (cells : list Cell) : Terminal :=
  take p (terminal ++ replicate (p - length terminal) None) ++
  map Some cells ++ drop (p + length cells) terminal.

(** The text fits the row of the cursor, from its column on. *)
Definition fits (this : Cursor) (data : string) : Prop :=
  0 <= _x this /\ _x this + Z.of_nat (String.length data) <= _width this /\
  0 <= _y this < _height this.

(** *** The range in which Numbers are integers

    A sum, difference or product of integer-valued Numbers is the integer
    result when that is at most 2^53 in magnitude. *)
Definition safe (z : Z) : Prop := Z.abs z <= 2 ^ 53.

(** The counter of a loop from [lo] to [hi] meets safe values only, the
    one that ends the loop included; nothing is asked of a loop that does
    not run. *)
Definition counts (lo hi : Z) : Prop := lo <= hi -> - 2 ^ 53 <= lo /\ hi < 2 ^ 53.

(** A run that takes fuel ends with the outcome [o]: it does with enough
    fuel, whatever more. *)
Definition ends (run : nat -> option (Outcome unit)) (o : Outcome unit) : Prop :=
  exists fuel0 : nat, forall fuel : nat, (fuel0 <= fuel)%nat -> run fuel = Some o.

(** The index of the position [(x, y)] is computed without rounding. *)
Definition exact_slot (this : Cursor) (x y : Z) : Prop :=
  safe (y * _width this) /\ safe (y * _width this + x).

(** A grid three columns wide and 2^52 rows high: its last indices are
    past 2^53. *)
Definition tall_grid : Cursor := empty_cursor 3 4503599627370496.

(** The cursor of a 3 x 1 grid moved to column 2^53 of row 0, as by
    [moveTo(2 ** 53, 0)]. *)
Definition far_right : Cursor := with_x 9007199254740992 (empty_cursor 3 1).

End SpecMore.

(** * Properties *)

(** ** The colour model *)

Module ColorFacts.
Import JS Color Spec.

(** On an object the constructor never reaches [this.create]: the subject
    of both patterns is ["[object Object]"]. *)
Lemma constructor_in_object (f f' : Val -> Result Color) (props : list (string * Val)) :
  constructor_in f (VObj props) = constructor_in f' (VObj props).
Proof.
  unfold constructor_in, isRgb, isHex, test, ToString; simpl.
  destruct (assoc "toString" props); reflexivity.
Qed.

Lemma constructor_in_not_string (f f' : Val -> Result Color) (v : Val) :
  (forall s, v <> VStr s) -> constructor_in f v = constructor_in f' v.
Proof.
  intros Hv. destruct v as [| |[]|n|s|props]; try reflexivity.
  exfalso. apply (Hv s). reflexivity.
Qed.

(** Two stack frames are enough: a deeper stack gives the same result. *)
Lemma construct_depth (n : nat) (color : Val) :
  construct (S (S n)) color = create color.
Proof. reflexivity. Qed.

Lemma in_stack_bind {A B : Type} (m : Result A) (f : A -> Result B) :
  in_stack m -> (forall a, in_stack (f a)) -> in_stack (m ≫= f).
Proof.
  intros Hm Hf msg. destruct m as [a|e]; simpl.
  - apply Hf.
  - intros He. apply (Hm msg). congruence.
Qed.

Lemma in_stack_ToNumber (v : Val) : in_stack (ToNumber v).
Proof.
  intros msg. destruct v as [| |[]|n|s|props]; simpl; try discriminate.
  destruct (assoc "toString" props); discriminate.
Qed.

Lemma in_stack_test (re : string -> option Captures) (v : Val) : in_stack (test re v).
Proof.
  intros msg. unfold test. destruct v as [| |[]|n|s|props]; simpl; try discriminate.
  destruct (assoc "toString" props); discriminate.
Qed.

Lemma in_stack_hasOwnProperty (v : Val) (key : string) : in_stack (hasOwnProperty v key).
Proof. intros msg. destruct v; discriminate. Qed.

Lemma in_stack_member (v : Val) (key : string) : in_stack (member v key).
Proof. intros msg. destruct v; discriminate. Qed.

Lemma in_stack_setR (this : Color) (v : Val) : in_stack (setR this v).
Proof. apply in_stack_bind; [apply in_stack_ToNumber | discriminate]. Qed.

Lemma in_stack_setG (this : Color) (v : Val) : in_stack (setG this v).
Proof. apply in_stack_bind; [apply in_stack_ToNumber | discriminate]. Qed.

Lemma in_stack_setB (this : Color) (v : Val) : in_stack (setB this v).
Proof. apply in_stack_bind; [apply in_stack_ToNumber | discriminate]. Qed.

Lemma in_stack_constructor_in (f : Val -> Result Color) (color : Val) :
  (forall props, in_stack (f (VObj props))) -> in_stack (constructor_in f color).
Proof.
  intros Hf. unfold constructor_in.
  destruct (isNamed color).
  { destruct color; try discriminate.
    unfold fromHex_in. destruct (assoc (toUpperCase s) COLORS) as [hex|]; [|discriminate].
    destruct (HEX_REGEX hex) as [[[cr cg] cb]|]; [apply Hf | discriminate]. }
  apply in_stack_bind; [apply in_stack_test|]. intros [].
  { unfold fromRgb_in. destruct color; try discriminate.
    destruct (RGB_REGEX s) as [[[cr cg] cb]|]; [apply Hf | discriminate]. }
  apply in_stack_bind; [apply in_stack_test|]. intros [].
  { unfold fromHex_in. destruct color; try discriminate.
    destruct (HEX_REGEX s) as [[[cr cg] cb]|]; [apply Hf | discriminate]. }
  apply in_stack_bind.
  { apply in_stack_bind; [apply in_stack_hasOwnProperty|]. intros []; [discriminate|].
    apply in_stack_bind; [apply in_stack_hasOwnProperty|]. intros []; [discriminate|].
    apply in_stack_hasOwnProperty. }
  intros []; simpl; [|discriminate].
  apply in_stack_bind; [apply in_stack_member|]. intros vr.
  apply in_stack_bind; [apply in_stack_setR|]. intros this1.
  apply in_stack_bind; [apply in_stack_member|]. intros vg.
  apply in_stack_bind; [apply in_stack_setG|]. intros this2.
  apply in_stack_bind; [apply in_stack_member|]. intros vb.
  apply in_stack_setB.
Qed.

Lemma create_in_stack (color : Val) : in_stack (create color).
Proof.
  unfold create. simpl. apply in_stack_constructor_in. intros props.
  rewrite (constructor_in_object _ (fun _ => Ok {| _r := NaN; _g := NaN; _b := NaN |})).
  apply in_stack_constructor_in. discriminate.
Qed.

(** The object form: the three channels go through the setters in turn. *)
Lemma create_object_rgb (vr vg vb : Val) :
  create (object_rgb vr vg vb) =
    (this ← setR {| _r := ofZ 0; _g := ofZ 0; _b := ofZ 0 |} vr;
     this ← setG this vg;
     setB this vb).
Proof. reflexivity. Qed.

(** *** Clamping *)

Lemma leb_Fin (p q : Q) : leb (Fin p) (Fin q) = true <-> Qle p q.
Proof. simpl. apply Qle_bool_iff. Qed.

Lemma leb_Fin_false (p q : Q) : leb (Fin p) (Fin q) = false <-> Qlt q p.
Proof.
  simpl. split; intros H.
  - apply Qnot_le_lt. intros Hle. apply Qle_bool_iff in Hle. congruence.
  - destruct (Qle_bool p q) eqn:E; [|reflexivity].
    apply Qle_bool_iff in E. exfalso. apply (Qlt_not_le _ _ H E).
Qed.

Lemma clamped_below (n : Num) : ltb n (ofZ 0) = true -> clamped n = ofZ 0.
Proof.
  unfold clamped, ofZ. destruct n as [|[]|q]; simpl; try discriminate; try reflexivity.
  intros H. apply negb_true_iff in H.
  change (Qle_bool (inject_Z 0) q = false) with (leb (Fin (inject_Z 0)) (Fin q) = false) in H.
  apply leb_Fin_false in H.
  assert (Hle : Qle_bool q (inject_Z 255) = true).
  { apply Qle_bool_iff. unfold inject_Z in *. lra. }
  rewrite Hle.
  assert (Hz : Qle_bool (inject_Z 0) q = false).
  { apply (leb_Fin_false (inject_Z 0) q). exact H. }
  simpl. rewrite Hz. reflexivity.
Qed.

Lemma clamped_above (n : Num) : ltb (ofZ 255) n = true -> clamped n = ofZ 255.
Proof.
  unfold clamped, ofZ. destruct n as [|[]|q]; simpl; try discriminate; try reflexivity.
  intros H. apply negb_true_iff in H. rewrite H. reflexivity.
Qed.

Lemma clamped_inside (n : Num) :
  leb (ofZ 0) n = true -> leb n (ofZ 255) = true -> clamped n = n.
Proof.
  unfold clamped, ofZ. destruct n as [|[]|q]; simpl; try discriminate.
  intros H0 H255. rewrite H255. simpl. rewrite H0. reflexivity.
Qed.

Lemma setR_number (this : Color) (n : Num) :
  setR this (VNum n) = Ok {| _r := clamped n; _g := _g this; _b := _b this |}.
Proof. reflexivity. Qed.

Lemma setG_number (this : Color) (n : Num) :
  setG this (VNum n) = Ok {| _r := _r this; _g := clamped n; _b := _b this |}.
Proof. reflexivity. Qed.

Lemma setB_number (this : Color) (n : Num) :
  setB this (VNum n) = Ok {| _r := _r this; _g := _g this; _b := clamped n |}.
Proof. reflexivity. Qed.

(** C8: a Number below 0 is stored as 0, a Number above 255 as 255, a
    Number of the range as it is; the three setters return and leave the
    other two channels alone. *)
Theorem channel_setters_clamp (this : Color) (n : Num) :
  exists v : Num,
    setR this (VNum n) = Ok {| _r := v; _g := _g this; _b := _b this |} /\
    setG this (VNum n) = Ok {| _r := _r this; _g := v; _b := _b this |} /\
    setB this (VNum n) = Ok {| _r := _r this; _g := _g this; _b := v |} /\
    (ltb n (ofZ 0) = true -> v = ofZ 0) /\
    (ltb (ofZ 255) n = true -> v = ofZ 255) /\
    (leb (ofZ 0) n = true -> leb n (ofZ 255) = true -> v = n).
Proof.
  exists (clamped n).
  split; [apply setR_number|]. split; [apply setG_number|]. split; [apply setB_number|].
  repeat split.
  - apply clamped_below.
  - apply clamped_above.
  - apply clamped_inside.
Qed.

Lemma channel_setters_clamp_witness :
  exists lo hi mid : Num,
    setR {| _r := NaN; _g := NaN; _b := NaN |} (VNum (ofZ (-5))) =
      Ok {| _r := lo; _g := NaN; _b := NaN |} /\ lo = ofZ 0 /\
    setG {| _r := NaN; _g := NaN; _b := NaN |} (VNum (ofZ 300)) =
      Ok {| _r := NaN; _g := hi; _b := NaN |} /\ hi = ofZ 255 /\
    setB {| _r := NaN; _g := NaN; _b := NaN |} (VNum (Fin (255 # 2))) =
      Ok {| _r := NaN; _g := NaN; _b := mid |} /\ mid = Fin (255 # 2).
Proof.
  destruct (channel_setters_clamp {| _r := NaN; _g := NaN; _b := NaN |} (ofZ (-5)))
    as (lo & HR & _ & _ & Hlo & _ & _).
  destruct (channel_setters_clamp {| _r := NaN; _g := NaN; _b := NaN |} (ofZ 300))
    as (hi & _ & HG & _ & _ & Hhi & _).
  destruct (channel_setters_clamp {| _r := NaN; _g := NaN; _b := NaN |} (Fin (255 # 2)))
    as (mid & _ & _ & HB & _ & _ & Hmid).
  exists lo, hi, mid.
  split; [exact HR|]. split; [apply Hlo; reflexivity|].
  split; [exact HG|]. split; [apply Hhi; reflexivity|].
  split; [exact HB|]. apply Hmid; reflexivity.
Defined.

(** *** Hex and back *)

Lemma leb_ofZ (a b : Z) : leb (ofZ a) (ofZ b) = (a <=? b).
Proof. unfold ofZ, leb, Qle_bool, inject_Z; simpl. rewrite !Z.mul_1_r. reflexivity. Qed.

Lemma clamped_ofZ (z : Z) : 0 <= z <= 255 -> clamped (ofZ z) = ofZ z.
Proof.
  intros Hz. apply clamped_inside; rewrite leb_ofZ; apply Z.leb_le; lia.
Qed.

Lemma Math_round_ofZ (z : Z) : Math_round (ofZ z) = IInt z.
Proof.
  unfold Math_round, ofZ, inject_Z, Qplus, Qfloor; simpl. f_equal.
  rewrite Z.mul_1_r. change (Z.pos (1 * 2)) with 2.
  symmetry. apply (Z.div_unique_pos (z * 2 + 1) 2 z 1); lia.
Qed.

Lemma channel_ok_all : forallb channel_ok (map Z.of_nat (seq 0 256)) = true.
Proof. vm_compute. reflexivity. Qed.

Lemma channel_digits (z : Z) :
  0 <= z <= 255 ->
  exists c1 c2 : ascii,
    pad2 (toString16 (IInt z)) = String c1 (String c2 EmptyString) /\
    is_hex_digit c1 = true /\ is_hex_digit c2 = true /\
    char_ci "r" c1 = false /\ char_ci "r" c2 = false /\
    parseInt16 (String c1 (String c2 EmptyString)) = ofZ z.
Proof.
  intros Hz.
  assert (Hok : channel_ok z = true).
  { pose proof channel_ok_all as Hall. rewrite forallb_forall in Hall.
    apply Hall, in_map_iff. exists (Z.to_nat z). split; [lia|].
    apply in_seq. lia. }
  unfold channel_ok in Hok.
  destruct (pad2 (toString16 (IInt z))) as [|c1 [|c2 [|]]]; try discriminate.
  exists c1, c2.
  repeat (apply andb_prop in Hok; destruct Hok as [Hok ?]).
  unfold parseInt16.
  destruct (parse_hex_prefix None (String c1 (String c2 ""))) as [v|]; [|discriminate].
  match goal with H : (v =? z) = true |- _ => apply Z.eqb_eq in H; subst v end.
  repeat match goal with H : negb _ = true |- _ => apply negb_true_iff in H end.
  repeat split; assumption.
Qed.

Lemma COLORS_no_hash (s : string) : assoc (String "#" s) COLORS = None.
Proof. reflexivity. Qed.

(** A subject without [r] or [R] has no match of [RGB_REGEX]. *)
Lemma RGB_REGEX_needs_r (s : string) :
  all_chars (fun c => negb (char_ci "r" c)) s = true -> RGB_REGEX s = None.
Proof.
  unfold RGB_REGEX. induction s as [|c s IH]; intros Hs; [reflexivity|].
  simpl in Hs. apply andb_prop in Hs. destruct Hs as [Hc Hs].
  apply negb_true_iff in Hc.
  unfold search; fold search. unfold RGB_REGEX_at at 1.
  unfold literal; fold literal. rewrite Hc. apply IH, Hs.
Qed.

Lemma constructor_in_hex_string (f : Val -> Result Color) (s : string) (m : Captures) :
  isNamed (VStr s) = false -> RGB_REGEX s = None -> HEX_REGEX s = Some m ->
  constructor_in f (VStr s) = fromHex_in f (VStr s).
Proof.
  intros Hnamed Hrgb Hhex. unfold constructor_in. rewrite Hnamed.
  unfold isRgb, isHex, test, ToString.
  cbn [mbind Result_bind]. rewrite Hrgb. cbn [mbind Result_bind bool_decide].
  rewrite Hhex. reflexivity.
Qed.

Lemma create_hex_digits (a1 a2 b1 b2 c1 c2 : ascii) :
  let hex := String "#" (String a1 (String a2 (String b1 (String b2
               (String c1 (String c2 EmptyString)))))) in
  is_hex_digit a1 = true -> is_hex_digit a2 = true ->
  is_hex_digit b1 = true -> is_hex_digit b2 = true ->
  is_hex_digit c1 = true -> is_hex_digit c2 = true ->
  char_ci "r" a1 = false -> char_ci "r" a2 = false ->
  char_ci "r" b1 = false -> char_ci "r" b2 = false ->
  char_ci "r" c1 = false -> char_ci "r" c2 = false ->
  create (VStr hex) = fromHex (VStr hex) /\
  fromHex (VStr hex) =
    create (object_rgb (VNum (parseInt16 (String a1 (String a2 EmptyString))))
              (VNum (parseInt16 (String b1 (String b2 EmptyString))))
              (VNum (parseInt16 (String c1 (String c2 EmptyString))))).
Proof.
  intros hex Ha1 Ha2 Hb1 Hb2 Hc1 Hc2 Ra1 Ra2 Rb1 Rb2 Rc1 Rc2.
  assert (Hhex : HEX_REGEX hex =
            Some (String a1 (String a2 EmptyString), String b1 (String b2 EmptyString),
                  String c1 (String c2 EmptyString))).
  { unfold hex, HEX_REGEX, search, HEX_REGEX_at, hex_pair; simpl.
    rewrite Ha1, Ha2; simpl. rewrite Hb1, Hb2; simpl. rewrite Hc1, Hc2. reflexivity. }
  assert (Hrgb : RGB_REGEX hex = None).
  { apply RGB_REGEX_needs_r. unfold hex; simpl.
    rewrite Ra1, Ra2, Rb1, Rb2, Rc1, Rc2. reflexivity. }
  assert (Hfrom : fromHex (VStr hex) =
            create (object_rgb (VNum (parseInt16 (String a1 (String a2 EmptyString))))
                      (VNum (parseInt16 (String b1 (String b2 EmptyString))))
                      (VNum (parseInt16 (String c1 (String c2 EmptyString)))))).
  { unfold fromHex, fromHex_in. rewrite Hhex. reflexivity. }
  split; [|exact Hfrom].
  assert (Hnamed : isNamed (VStr hex) = false).
  { unfold isNamed, hex. unfold toUpperCase; fold toUpperCase.
    change (upper_char "#") with "#"%char. rewrite COLORS_no_hash. reflexivity. }
  unfold create. change (construct 2) with (constructor_in (construct 1)).
  rewrite (constructor_in_hex_string _ hex _ Hnamed Hrgb Hhex).
  rewrite Hfrom. unfold fromHex_in. rewrite Hhex. reflexivity.
Qed.

(** C7: with integer channels from 0 to 255 the object form is accepted, and
    its [toHex()], parsed by [Color.fromHex] or by [Color.create], gives a
    colour whose [toRgb()] has the channels one started from. *)
Theorem hex_roundtrip (cr cg cb : Z) :
  0 <= cr <= 255 -> 0 <= cg <= 255 -> 0 <= cb <= 255 ->
  exists c c' : Color,
    create (object_rgb (VNum (ofZ cr)) (VNum (ofZ cg)) (VNum (ofZ cb))) = Ok c /\
    fromHex (VStr (toHex c)) = Ok c' /\
    create (VStr (toHex c)) = Ok c' /\
    toRgb c' = {| r := IInt cr; g := IInt cg; b := IInt cb |} /\
    toRgb c' = toRgb c.
Proof.
  intros Hr Hg Hb.
  assert (Hobj : create (object_rgb (VNum (ofZ cr)) (VNum (ofZ cg)) (VNum (ofZ cb))) =
                 Ok {| _r := ofZ cr; _g := ofZ cg; _b := ofZ cb |}).
  { rewrite create_object_rgb, setR_number. cbn [mbind Result_bind].
    rewrite setG_number. cbn [mbind Result_bind]. rewrite setB_number.
    rewrite !clamped_ofZ by assumption. reflexivity. }
  set (c := {| _r := ofZ cr; _g := ofZ cg; _b := ofZ cb |}) in *.
  assert (Hrgb : toRgb c = {| r := IInt cr; g := IInt cg; b := IInt cb |}).
  { unfold toRgb, getR, getG, getB, c; cbn [_r _g _b].
    rewrite !Math_round_ofZ. reflexivity. }
  destruct (channel_digits cr Hr) as (a1 & a2 & Ea & Ha1 & Ha2 & Ra1 & Ra2 & Pa).
  destruct (channel_digits cg Hg) as (b1 & b2 & Eb & Hb1 & Hb2 & Rb1 & Rb2 & Pb).
  destruct (channel_digits cb Hb) as (c1 & c2 & Ec & Hc1 & Hc2 & Rc1 & Rc2 & Pc).
  assert (Hhex : toHex c = String "#" (String a1 (String a2 (String b1 (String b2
                   (String c1 (String c2 EmptyString))))))).
  { unfold toHex, getR, getG, getB, c; cbn [_r _g _b].
    rewrite !Math_round_ofZ, Ea, Eb, Ec. reflexivity. }
  destruct (create_hex_digits a1 a2 b1 b2 c1 c2 Ha1 Ha2 Hb1 Hb2 Hc1 Hc2
              Ra1 Ra2 Rb1 Rb2 Rc1 Rc2) as [Hcreate Hfrom].
  exists c, c. rewrite Hhex, Hcreate, Hfrom, Pa, Pb, Pc.
  repeat split; assumption.
Qed.

Lemma hex_roundtrip_witness :
  exists c c' : Color,
    create (object_rgb (VNum (ofZ 240)) (VNum (ofZ 8)) (VNum (ofZ 255))) = Ok c /\
    fromHex (VStr (toHex c)) = Ok c' /\
    create (VStr (toHex c)) = Ok c' /\
    toRgb c' = {| r := IInt 240; g := IInt 8; b := IInt 255 |} /\
    toRgb c' = toRgb c.
Proof. apply (hex_roundtrip 240 8 255); lia. Defined.

(** *** What the constructor accepts *)

Lemma assoc_In {A : Type} (key : string) (l : list (string * A)) (v : A) :
  assoc key l = Some v -> exists k, In (k, v) l.
Proof.
  induction l as [|[k w] l IH]; simpl; [discriminate|].
  destruct (String.eqb k key).
  - intros [= ->]. exists k. left. reflexivity.
  - intros H. destruct (IH H) as [k' Hk']. exists k'. right. exact Hk'.
Qed.

Lemma COLORS_parse : forallb (fun entry => parses (snd entry)) COLORS = true.
Proof. vm_compute. reflexivity. Qed.

(** Every value of the dictionary is a hex text that [fromHex] accepts. *)
Lemma dictionary_parses (key hex : string) :
  assoc key COLORS = Some hex -> exists c, fromHex (VStr hex) = Ok c.
Proof.
  intros Hkey. apply assoc_In in Hkey as [k Hin].
  pose proof COLORS_parse as Hall. rewrite forallb_forall in Hall.
  specialize (Hall _ Hin). unfold parses in Hall. cbn [snd] in Hall.
  destruct (fromHex (VStr hex)) as [c|e]; [exists c; reflexivity | discriminate].
Qed.

Lemma ToNumber_string (s : string) : ToNumber (VStr s) = Ok (StringToNumber s).
Proof. reflexivity. Qed.

(** An object with the three channels, none of them an object, is
    accepted whatever stack is left. *)
Lemma construct_object_rgb (depth : nat) (vr vg vb : Val) :
  (forall props, vr <> VObj props) -> (forall props, vg <> VObj props) ->
  (forall props, vb <> VObj props) ->
  exists c, construct (S depth) (object_rgb vr vg vb) = Ok c.
Proof.
  intros Hr Hg Hb.
  assert (Hnum : forall v, (forall props, v <> VObj props) -> exists n, ToNumber v = Ok n).
  { intros v Hv. destruct v as [| |[]|n|s|props]; simpl; eauto.
    exfalso. apply (Hv props). reflexivity. }
  destruct (Hnum vr Hr) as [nr Er], (Hnum vg Hg) as [ng Eg], (Hnum vb Hb) as [nb Eb].
  change (construct (S depth) (object_rgb vr vg vb))
    with (this ← setR {| _r := ofZ 0; _g := ofZ 0; _b := ofZ 0 |} vr;
          this ← setG this vg;
          setB this vb).
  unfold setR, setG, setB. rewrite Er. cbn [mbind Result_bind].
  rewrite Eg. cbn [mbind Result_bind]. rewrite Eb. cbn [mbind Result_bind].
  eexists. reflexivity.
Qed.

Lemma constructor_in_unfold_string (f : Val -> Result Color) (s : string) :
  constructor_in f (VStr s) =
    match assoc (toUpperCase s) COLORS with
    | Some hex => fromHex_in f (VStr hex)
    | None =>
        match RGB_REGEX s with
        | Some _ => fromRgb_in f (VStr s)
        | None =>
            match HEX_REGEX s with
            | Some _ => fromHex_in f (VStr s)
            | None => Throw (Error_cant_be_parsed (VStr s))
            end
        end
    end.
Proof.
  unfold constructor_in, isNamed, isRgb, isHex, test, ToString.
  destruct (assoc (toUpperCase s) COLORS) as [hex|]; [reflexivity|].
  cbn [bool_decide decide_rel is_Some_dec mbind Result_bind].
  destruct (RGB_REGEX s) as [m|]; [reflexivity|].
  cbn [bool_decide decide_rel is_Some_dec mbind Result_bind].
  destruct (HEX_REGEX s) as [m|]; reflexivity.
Qed.

(** *** The four representations are accepted *)

Lemma upper_char_digit (c : ascii) : is_digit (upper_char c) = true -> upper_char c = c.
Proof.
  destruct c as [[] [] [] [] [] [] [] []]; vm_compute; first [discriminate | reflexivity].
Qed.

Lemma is_digit_upper_char (c : ascii) : is_digit c = true -> upper_char c = c.
Proof.
  destruct c as [[] [] [] [] [] [] [] []]; vm_compute; first [discriminate | reflexivity].
Qed.

(** A literal matches where the upper-cased subject starts with the
    upper-cased literal. *)
Lemma literal_upper (lit : string) :
  forall s t : string,
  toUpperCase s = String.append (toUpperCase lit) t ->
  exists s', literal lit s = Some s' /\ toUpperCase s' = t.
Proof.
  induction lit as [|l lit IH]; intros s t Hs.
  - exists s. split; [destruct s; reflexivity | exact Hs].
  - destruct s as [|c s]; [discriminate|].
    simpl in Hs. injection Hs as Hc Hs.
    destruct (IH s t Hs) as (s' & Hlit & Hs').
    exists s'. split; [|exact Hs'].
    simpl. unfold char_ci. rewrite Hc, Ascii.eqb_refl. exact Hlit.
Qed.

Lemma digits_exactly_upper (d : string) :
  forall s t : string,
  all_chars is_digit d = true ->
  toUpperCase s = String.append d t ->
  exists s', digits_exactly (String.length d) s = Some (d, s') /\ toUpperCase s' = t.
Proof.
  induction d as [|x d IH]; intros s t Hd Hs.
  - exists s. split; [destruct s; reflexivity | exact Hs].
  - simpl in Hd. apply andb_prop in Hd as [Hx Hd].
    destruct s as [|c s]; [discriminate|].
    simpl in Hs. injection Hs as Hc Hs.
    assert (c = x) as ->.
    { rewrite <- Hc in Hx. apply upper_char_digit in Hx. congruence. }
    destruct (IH s t Hd Hs) as (s' & Hex & Hs').
    exists s'. split; [|exact Hs'].
    simpl. rewrite Hx, Hex. reflexivity.
Qed.

(** More digits than the subject has before a character that is none. *)
Lemma digits_exactly_short (d : string) :
  forall (s t : string) (stop : ascii) (n : nat),
  is_digit stop = false ->
  toUpperCase s = String.append d (String stop t) ->
  (String.length d < n)%nat ->
  digits_exactly n s = None.
Proof.
  induction d as [|x d IH]; intros s t stop n Hstop Hs Hn.
  - destruct n as [|n]; [lia|].
    destruct s as [|c s]; [reflexivity|].
    simpl in Hs. injection Hs as Hc Hs.
    simpl. destruct (is_digit c) eqn:Ec; [|reflexivity].
    apply is_digit_upper_char in Ec as Hup. rewrite Hup in Hc. subst c. congruence.
  - destruct n as [|n]; [simpl in Hn; lia|].
    destruct s as [|c s]; [reflexivity|].
    simpl in Hs. injection Hs as Hc Hs.
    simpl. destruct (is_digit c); [|reflexivity].
    rewrite (IH s t stop n Hstop Hs); [reflexivity | simpl in Hn; lia].
Qed.

Lemma digits_1_3_upper {A : Type} (d s t : string) (stop : ascii)
    (k : string -> string -> option A) :
  one_to_three_digits d -> is_digit stop = false ->
  toUpperCase s = String.append d (String stop t) ->
  exists s', toUpperCase s' = String stop t /\
             (forall a, k d s' = Some a -> digits_1_3 s k = Some a).
Proof.
  intros [Hd Hlen] Hstop Hs.
  destruct (digits_exactly_upper d s (String stop t) Hd Hs) as (s' & Hex & Hs').
  exists s'. split; [exact Hs'|]. intros a Ha.
  pose proof (digits_exactly_short d s t stop) as Hshort.
  unfold digits_1_3.
  destruct (String.length d) as [|[|[|[|n]]]] eqn:El; try lia.
  - rewrite (Hshort 3%nat Hstop Hs) by lia. rewrite (Hshort 2%nat Hstop Hs) by lia.
    rewrite Hex. exact Ha.
  - rewrite (Hshort 3%nat Hstop Hs) by lia. rewrite Hex, Ha. reflexivity.
  - rewrite Hex, Ha. reflexivity.
Qed.

Lemma search_at_start (at_start : string -> option Captures) (s : string) (m : Captures) :
  at_start s = Some m -> search at_start s = Some m.
Proof. intros H. destruct s; simpl; rewrite H; reflexivity. Qed.

Lemma rgb_text_matches (s : string) : rgb_text s -> is_Some (RGB_REGEX s).
Proof.
  intros (dr & dg & db & Hr & Hg & Hb & Hs).
  exists (dr, dg, db). apply search_at_start. unfold RGB_REGEX_at.
  destruct (literal_upper "rgb(" s _ Hs) as (s1 & -> & Hs1).
  destruct (digits_1_3_upper (A := Captures) dr s1 _ ","%char
              (fun r s2 =>
                 match literal ", " s2 with
                 | None => None
                 | Some s3 =>
                     digits_1_3 s3 (fun g s4 =>
                       match literal ", " s4 with
                       | None => None
                       | Some s5 =>
                           digits_1_3 s5 (fun b s6 =>
                             match literal ")" s6 with
                             | None => None
                             | Some _ => Some (r, g, b)
                             end)
                       end)
                 end) Hr eq_refl Hs1) as (s2 & Hs2 & Hk1).
  apply Hk1. clear Hk1.
  destruct (literal_upper ", " s2 _ Hs2) as (s3 & -> & Hs3).
  destruct (digits_1_3_upper (A := Captures) dg s3 _ ","%char
              (fun g s4 =>
                 match literal ", " s4 with
                 | None => None
                 | Some s5 =>
                     digits_1_3 s5 (fun b s6 =>
                       match literal ")" s6 with
                       | None => None
                       | Some _ => Some (dr, g, b)
                       end)
                 end) Hg eq_refl Hs3) as (s4 & Hs4 & Hk2).
  apply Hk2. clear Hk2.
  destruct (literal_upper ", " s4 _ Hs4) as (s5 & -> & Hs5).
  destruct (digits_1_3_upper (A := Captures) db s5 _ ")"%char
              (fun b s6 =>
                 match literal ")" s6 with
                 | None => None
                 | Some _ => Some (dr, dg, b)
                 end) Hb eq_refl Hs5) as (s6 & Hs6 & Hk3).
  apply Hk3. clear Hk3.
  destruct (literal_upper ")" s6 "" Hs6) as (s7 & -> & _). reflexivity.
Qed.

Lemma hex_text_matches (s : string) : hex_text s -> is_Some (HEX_REGEX s).
Proof.
  intros (h & Hlen & Hh & ->).
  destruct h as [|c1 [|c2 [|c3 [|c4 [|c5 [|c6 [|c7 h]]]]]]]; try discriminate.
  simpl in Hh.
  apply andb_prop in Hh as [H1 Hh]. apply andb_prop in Hh as [H2 Hh].
  apply andb_prop in Hh as [H3 Hh]. apply andb_prop in Hh as [H4 Hh].
  apply andb_prop in Hh as [H5 Hh]. apply andb_prop in Hh as [H6 _].
  eexists. apply search_at_start. unfold HEX_REGEX_at, hex_pair. simpl.
  rewrite H1, H2. simpl. rewrite H3, H4. simpl. rewrite H5, H6. reflexivity.
Qed.

Lemma ToNumber_converts (v : Val) : converts v -> exists n, ToNumber v = Ok n.
Proof.
  intros Hv. destruct v as [| |[]|n|s|props]; simpl; eauto.
  rewrite (Hv props eq_refl). eauto.
Qed.

(** Each of the four representations is accepted, the object when neither
    it nor its channels throw on conversion. *)
Lemma recognized_accepted (v : Val) :
  recognized v -> plain v -> exists c, create v = Ok c.
Proof.
  intros [(s & -> & Hkind) | (props & -> & [vr Hr] & [vg Hg] & [vb Hb])] [Hconv Hchan].
  - unfold create.
    change (construct 2 (VStr s)) with (constructor_in (construct 1) (VStr s)).
    rewrite constructor_in_unfold_string.
    destruct (assoc (toUpperCase s) COLORS) as [hex|] eqn:Ename.
    { destruct (dictionary_parses _ _ Ename) as [c Hc]. exists c. exact Hc. }
    destruct (RGB_REGEX s) as [[[cr cg] cb]|] eqn:Ergb.
    { unfold fromRgb_in. rewrite Ergb. apply construct_object_rgb; discriminate. }
    destruct (HEX_REGEX s) as [[[cr cg] cb]|] eqn:Ehex.
    { unfold fromHex_in. rewrite Ehex. apply construct_object_rgb; discriminate. }
    exfalso. destruct Hkind as [[hex Hhex] | [Hrgb | Hhex]].
    + unfold names_color in *. congruence.
    + apply rgb_text_matches in Hrgb as [m Hm]. congruence.
    + apply hex_text_matches in Hhex as [m Hm]. congruence.
  - pose proof (Hconv props eq_refl) as Hts.
    destruct (ToNumber_converts vr) as [nr Hnr];
      [apply (Hchan props "r" vr eq_refl); [left; reflexivity | exact Hr]|].
    destruct (ToNumber_converts vg) as [ng Hng];
      [apply (Hchan props "g" vg eq_refl); [right; left; reflexivity | exact Hg]|].
    destruct (ToNumber_converts vb) as [nb Hnb];
      [apply (Hchan props "b" vb eq_refl); [right; right; reflexivity | exact Hb]|].
    eexists. unfold create.
    change (construct 2 (VObj props)) with (constructor_in (construct 1) (VObj props)).
    unfold constructor_in, isNamed, isRgb, isHex, test, ToString, hasOwnProperty, member, get.
    rewrite Hts, Hr, Hg, Hb.
    unfold setR, setG, setB. cbn [mbind Result_bind bool_decide negb].
    rewrite Hnr. cbn [mbind Result_bind]. rewrite Hng. cbn [mbind Result_bind].
    rewrite Hnb. reflexivity.
Qed.

(** The guard of the constructor asks for one of [r], [g], [b]: with [r]
    alone the missing channels go through the setters as [undefined] and
    are stored as NaN. *)
Lemma create_accepts_partial_object :
  create (VObj [("r", VNum (ofZ 1))]) = Ok {| _r := ofZ 1; _g := NaN; _b := NaN |} /\
  toHex {| _r := ofZ 1; _g := NaN; _b := NaN |} = "#01NaNNaN".
Proof. split; reflexivity. Qed.

(** C6, as stated, fails: a text that only contains [#AABBCC] is none of
    the four representations and is accepted; and an object that exposes
    [r], [g] and [b] is refused, with a [TypeError], when its conversion to
    a string throws, or when the conversion of a channel to a Number
    throws. *)
Lemma create_not_exactly_recognized :
  ((exists c, create (VStr "#AABBCC!") = Ok c) /\ ~ recognized (VStr "#AABBCC!")) /\
  (recognized (VObj [("r", VNum (ofZ 1)); ("g", VNum (ofZ 2)); ("b", VNum (ofZ 3));
                     ("toString", VNum (ofZ 0))]) /\
   exists msg,
     create (VObj [("r", VNum (ofZ 1)); ("g", VNum (ofZ 2)); ("b", VNum (ofZ 3));
                   ("toString", VNum (ofZ 0))]) = Throw (TypeError msg)) /\
  (recognized (VObj [("r", VObj [("toString", VNum (ofZ 0))]); ("g", VNum (ofZ 2));
                     ("b", VNum (ofZ 3))]) /\
   exists msg,
     create (VObj [("r", VObj [("toString", VNum (ofZ 0))]); ("g", VNum (ofZ 2));
                   ("b", VNum (ofZ 3))]) = Throw (TypeError msg)).
Proof.
  split; [|split].
  - split; [eexists; reflexivity|].
    intros [(s & [= <-] & [Hname | [Hrgb | Hhex]]) | (props & Hobj & _)].
    + destruct Hname as [hex Hhex]. vm_compute in Hhex. discriminate.
    + destruct Hrgb as (dr & dg & db & _ & _ & _ & Heq). simpl in Heq. discriminate.
    + destruct Hhex as (h & Hlen & _ & Heq).
      change (String.append "#" h) with (String "#" h) in Heq.
      injection Heq as Heq. subst h. discriminate.
    + discriminate.
  - split.
    + right. eexists. split; [reflexivity|]. repeat split; eexists; reflexivity.
    + eexists. reflexivity.
  - split.
    + right. eexists. split; [reflexivity|]. repeat split; eexists; reflexivity.
    + eexists. reflexivity.
Qed.

(** C6, amended: [Color.create] returns on each of the four
    representations (a name of the dictionary in any case, the text
    [rgb(r, g, b)], the text [#RRGGBB], an object with the properties [r],
    [g] and [b], the object and its channels being values whose conversion
    to a primitive does not throw), and more widely on a text that contains
    a match of [RGB_REGEX] or of [HEX_REGEX]; it throws the parse error on
    an ASCII text of none of these kinds, on a boolean, on a Number and on
    an object without own [toString], [r], [g] and [b]. *)
Theorem create_accepts_and_throws (color : Val) :
  (recognized color -> plain color -> exists c, create color = Ok c) /\
  (forall s, color = VStr s ->
     names_color s \/ is_Some (RGB_REGEX s) \/ is_Some (HEX_REGEX s) ->
     exists c, create color = Ok c) /\
  (forall s, color = VStr s -> ascii_text s ->
     ~ names_color s -> RGB_REGEX s = None -> HEX_REGEX s = None ->
     create color = Throw (Error_cant_be_parsed color)) /\
  ((exists b, color = VBool b) \/ (exists n, color = VNum n) ->
     create color = Throw (Error_cant_be_parsed color)) /\
  (forall props, color = VObj props ->
     assoc "toString" props = None ->
     assoc "r" props = None -> assoc "g" props = None -> assoc "b" props = None ->
     create color = Throw (Error_cant_be_parsed color)).
Proof.
  split; [apply recognized_accepted|].
  split; [|split; [|split]].
  - intros s -> Hkind. unfold create.
    change (construct 2 (VStr s)) with (constructor_in (construct 1) (VStr s)).
    rewrite constructor_in_unfold_string.
    destruct (assoc (toUpperCase s) COLORS) as [hex|] eqn:Ename.
    { destruct (dictionary_parses _ _ Ename) as [c Hc]. exists c. exact Hc. }
    destruct (RGB_REGEX s) as [[[cr cg] cb]|] eqn:Ergb.
    { unfold fromRgb_in. rewrite Ergb. apply construct_object_rgb; discriminate. }
    destruct (HEX_REGEX s) as [[[cr cg] cb]|] eqn:Ehex.
    { unfold fromHex_in. rewrite Ehex. apply construct_object_rgb; discriminate. }
    destruct Hkind as [[hex Hhex] | [[m Hm] | [m Hm]]]; unfold names_color in *; congruence.
  - intros s -> _ Hname Hrgb Hhex. unfold create.
    change (construct 2 (VStr s)) with (constructor_in (construct 1) (VStr s)).
    rewrite constructor_in_unfold_string, Hrgb, Hhex.
    destruct (assoc (toUpperCase s) COLORS) as [hex|] eqn:Ename; [|reflexivity].
    exfalso. apply Hname. exists hex. exact Ename.
  - intros [[b ->] | [n ->]]; [destruct b|]; reflexivity.
  - intros props -> Hts Hr Hg Hb. unfold create.
    change (construct 2 (VObj props)) with (constructor_in (construct 1) (VObj props)).
    unfold constructor_in, isNamed, isRgb, isHex, test, ToString, hasOwnProperty.
    rewrite Hts, Hr, Hg, Hb. reflexivity.
Qed.

Lemma create_accepts_and_throws_witness :
  (exists c, create (VStr "Alice_Blue") = Ok c) /\
  (exists c, create (VStr "rgb(0, 10, 20)") = Ok c) /\
  (exists c, create (VStr "see #aabbcc") = Ok c) /\
  (exists c, create (VObj [("r", VNum (ofZ 0)); ("g", VStr "300"); ("b", VNull)]) = Ok c) /\
  create (VStr "rgb(1,2,3)") = Throw (Error_cant_be_parsed (VStr "rgb(1,2,3)")) /\
  create (VBool false) = Throw (Error_cant_be_parsed (VBool false)) /\
  create (VObj [("a", VNum (ofZ 1))]) = Throw (Error_cant_be_parsed (VObj [("a", VNum (ofZ 1))])).
Proof.
  split.
  { destruct (create_accepts_and_throws (VStr "Alice_Blue")) as (_ & H & _).
    apply (H "Alice_Blue" eq_refl). left. eexists. vm_compute. reflexivity. }
  split.
  { destruct (create_accepts_and_throws (VStr "rgb(0, 10, 20)")) as (H & _).
    apply H; [|split; [discriminate | discriminate]].
    left. exists "rgb(0, 10, 20)". split; [reflexivity|]. right. left.
    exists "0", "10", "20". repeat split; simpl; lia. }
  split.
  { destruct (create_accepts_and_throws (VStr "see #aabbcc")) as (_ & H & _).
    apply (H "see #aabbcc" eq_refl). right. right. eexists. vm_compute. reflexivity. }
  split.
  { destruct (create_accepts_and_throws
                (VObj [("r", VNum (ofZ 0)); ("g", VStr "300"); ("b", VNull)])) as (H & _).
    apply H.
    - right. eexists. split; [reflexivity|]. repeat split; eexists; reflexivity.
    - split.
      + intros props [= <-]. reflexivity.
      + intros props key w [= <-] [-> | [-> | ->]] [= <-]; discriminate. }
  split.
  { destruct (create_accepts_and_throws (VStr "rgb(1,2,3)")) as (_ & _ & H & _).
    apply (H "rgb(1,2,3)" eq_refl); [reflexivity| |reflexivity|reflexivity].
    intros [hex Hhex]. vm_compute in Hhex. discriminate. }
  split.
  { destruct (create_accepts_and_throws (VBool false)) as (_ & _ & _ & H & _).
    apply H. left. exists false. reflexivity. }
  destruct (create_accepts_and_throws (VObj [("a", VNum (ofZ 1))])) as (_ & _ & _ & _ & H).
  apply (H _ eq_refl); reflexivity.
Defined.

End ColorFacts.

(** ** The cursor *)

Module CursorFacts.
Import JS Cursor Spec.

(** *** The buffer as an array *)

Lemma array_get_set_eq (terminal : Terminal) (p : Z) (cell : Cell) :
  0 <= p -> array_get (array_set terminal (Z.to_nat p) cell) p = Some cell.
Proof.
  intros Hp. unfold array_get, array_set.
  destruct (Z.ltb_spec p 0) as [?|_]; [lia|].
  destruct (Nat.ltb_spec (Z.to_nat p) (length terminal)) as [Hlt|Hge].
  - rewrite list_lookup_insert_eq by exact Hlt. reflexivity.
  - rewrite lookup_app_r by exact Hge.
    rewrite lookup_app_r by (rewrite length_replicate; lia).
    rewrite length_replicate, Nat.sub_diag. reflexivity.
Qed.

Lemma array_get_set_ne (terminal : Terminal) (i : nat) (p : Z) (cell : Cell) :
  p <> Z.of_nat i -> array_get (array_set terminal i cell) p = array_get terminal p.
Proof.
  intros Hne. unfold array_get, array_set.
  destruct (Z.ltb_spec p 0) as [?|Hp]; [reflexivity|].
  assert (Hj : Z.to_nat p <> i) by lia.
  destruct (Nat.ltb_spec i (length terminal)) as [Hlt|Hge].
  - rewrite list_lookup_insert_ne by (intros ->; apply Hj; reflexivity). reflexivity.
  - destruct (Nat.lt_ge_cases (Z.to_nat p) (length terminal)) as [Hin|Hout].
    + rewrite lookup_app_l by exact Hin. reflexivity.
    + rewrite lookup_app_r by exact Hout.
      rewrite (lookup_ge_None_2 terminal) by exact Hout.
      destruct (Nat.lt_ge_cases (Z.to_nat p - length terminal) (i - length terminal))
        as [Hhole|Hpast].
      * rewrite lookup_app_l by (rewrite length_replicate; exact Hhole).
        rewrite lookup_replicate_2 by exact Hhole. reflexivity.
      * rewrite lookup_app_r by (rewrite length_replicate; exact Hpast).
        rewrite length_replicate.
        destruct (Z.to_nat p - length terminal - (i - length terminal))%nat eqn:E; [lia|].
        reflexivity.
Qed.

(** Blanking a cell where it stands. *)
Lemma array_get_insert (terminal : Terminal) (p q : Z) (cell old : Cell) :
  array_get terminal p = Some old ->
  array_get (<[Z.to_nat p := Some cell]> terminal) q =
    if decide (q = p) then Some cell else array_get terminal q.
Proof.
  unfold array_get. intros Hold.
  destruct (Z.ltb_spec p 0) as [?|Hp]; [discriminate|].
  destruct (terminal !! Z.to_nat p) as [slot|] eqn:Eslot; [|discriminate].
  apply lookup_lt_Some in Eslot.
  destruct (decide (q = p)) as [->|Hne].
  - destruct (Z.ltb_spec p 0) as [?|_]; [lia|].
    rewrite list_lookup_insert_eq by exact Eslot. reflexivity.
  - destruct (Z.ltb_spec q 0) as [?|Hq]; [reflexivity|].
    rewrite list_lookup_insert_ne by lia. reflexivity.
Qed.

(** *** Coordinates *)

Lemma pointer_in_bounds (this : Cursor) (x y : Z) :
  in_bounds this x y ->
  0 <= getPointerFromXY this (Some x) (Some y) < _width this * _height this.
Proof. unfold in_bounds, getPointerFromXY; simpl. intros [Hx Hy]. nia. Qed.


(** With integers for Numbers: on the grid [getXYFromPointer] undoes
    [getPointerFromXY], and on the indices [0 .. width*height - 1]
    [getPointerFromXY] undoes [getXYFromPointer]; with a positive width the
    pair is on the grid. *)
Lemma pointer_xy_inverse (this : Cursor) :
  (forall x y : Z,
     0 <= x < _width this -> 0 <= y < _height this ->
     getXYFromPointer this (getPointerFromXY this (Some x) (Some y)) = Some (x, y)) /\
  (forall i : Z,
     0 <= i < _width this * _height this ->
     exists x y : Z,
       getXYFromPointer this i = Some (x, y) /\
       getPointerFromXY this (Some x) (Some y) = i /\
       (0 < _width this -> 0 <= x < _width this /\ 0 <= y < _height this)).
Proof.
  split.
  - intros x y Hx Hy. unfold getXYFromPointer, getPointerFromXY; simpl.
    destruct (Z.eqb_spec (_width this) 0) as [E|_]; [lia|].
    assert (Hq : (y * _width this + x) / _width this = y).
    { symmetry. apply (Z.div_unique_pos _ _ y x); lia. }
    rewrite Hq. f_equal. f_equal. lia.
  - intros i Hi. unfold getXYFromPointer, getPointerFromXY; simpl.
    destruct (Z.eqb_spec (_width this) 0) as [E|Hw]; [rewrite E in Hi; lia|].
    eexists _, _. split; [reflexivity|]. split; [lia|].
    intros Hpos.
    pose proof (Z.div_pos i (_width this) ltac:(lia) Hpos) as Hq0.
    pose proof (Z.mul_div_le i (_width this) Hpos) as Hle.
    pose proof (Z.mul_succ_div_gt i (_width this) Hpos) as Hgt.
    split; [lia|]. split; [lia|].
    assert (Hh : 0 < _height this) by nia. nia.
Qed.

(** *** The constructor *)

(** C5: the constructor throws at [this.setBackground(false)], whatever the
    terminal and the receiver: [Color.create(false)] matches no format.  The
    receiver is left with the terminal and the position (0, 0) set, and with
    the pen, the size and the last frame as they were allocated. *)
Theorem constructor_throws (terminal : Terminal) (this : Cursor) :
  constructor terminal this =
    Raise (Error_cant_be_parsed (VBool false))
      (with_y 0 (with_x 0 (with_terminal terminal this))) /\
  (forall this' : Cursor, constructor terminal this <> Return tt this').
Proof. split; [reflexivity | discriminate]. Qed.

(** *** write *)

Lemma write_chars_step (bg fg : Color.Rgb) (d : Val) (ch : ascii) (rest : string)
    (this : Cursor) :
  write_chars bg fg d (String ch rest) this =
    write_chars bg fg d rest
      (with_x (_x this + 1)
         (if (0 <=? _x this) && (_x this <? _width this) &&
             (0 <=? _y this) && (_y this <? _height this)
          then with_terminal
                 (array_set (_terminal this)
                    (Z.to_nat (getPointerFromXY this (Some (_x this)) (Some (_y this))))
                    {| cell_char := ch; cell_x := _x this; cell_y := _y this;
                       cell_background := bg; cell_foreground := fg;
                       cell_display := d |}) this
          else this)).
Proof.
  unfold write_chars at 1; fold write_chars.
  unfold mbind, M_bind, read, assign, mret, M_ret.
  destruct ((0 <=? _x this) && (_x this <? _width this) &&
            (0 <=? _y this) && (_y this <? _height this)); reflexivity.
Qed.

Lemma in_bounds_test (this : Cursor) (x y : Z) :
  (0 <=? x) && (x <? _width this) && (0 <=? y) && (y <? _height this) = true
  <-> in_bounds this x y.
Proof.
  unfold in_bounds. rewrite !andb_true_iff, !Z.leb_le, !Z.ltb_lt. tauto.
Qed.

Lemma write_chars_spec (bg fg : Color.Rgb) (d : Val) (data : string) :
  forall this : Cursor,
  exists this' : Cursor,
    write_chars bg fg d data this = Return tt this' /\
    _x this' = _x this + Z.of_nat (String.length data) /\
    _y this' = _y this /\
    _width this' = _width this /\ _height this' = _height this /\
    _background this' = _background this /\ _foreground this' = _foreground this /\
    _display this' = _display this /\ _lastFrame this' = _lastFrame this /\
    (forall (i : nat) (ch : ascii),
       String.get i data = Some ch ->
       in_bounds this (_x this + Z.of_nat i) (_y this) ->
       array_get (_terminal this')
         (getPointerFromXY this (Some (_x this + Z.of_nat i)) (Some (_y this))) =
         Some {| cell_char := ch; cell_x := _x this + Z.of_nat i; cell_y := _y this;
                 cell_background := bg; cell_foreground := fg; cell_display := d |}) /\
    (forall p : Z,
       (forall i : nat,
          (i < String.length data)%nat ->
          in_bounds this (_x this + Z.of_nat i) (_y this) ->
          p <> getPointerFromXY this (Some (_x this + Z.of_nat i)) (Some (_y this))) ->
       array_get (_terminal this') p = array_get (_terminal this) p).
Proof.
  induction data as [|c rest IH]; intros this.
  - exists this. simpl. repeat split; try reflexivity; try lia.
    intros i ch Hget. destruct i; discriminate.
  - rewrite write_chars_step.
    set (cell := {| cell_char := c; cell_x := _x this; cell_y := _y this;
                    cell_background := bg; cell_foreground := fg; cell_display := d |}).
    set (ptr := getPointerFromXY this (Some (_x this)) (Some (_y this))).
    set (inside := (0 <=? _x this) && (_x this <? _width this) &&
                   (0 <=? _y this) && (_y this <? _height this)).
    set (this1 := with_x (_x this + 1)
                    (if inside then with_terminal (array_set (_terminal this) (Z.to_nat ptr) cell) this
                     else this)).
    assert (Hx1 : _x this1 = _x this + 1) by reflexivity.
    assert (Hfields : _y this1 = _y this /\ _width this1 = _width this /\
                      _height this1 = _height this /\ _background this1 = _background this /\
                      _foreground this1 = _foreground this /\ _display this1 = _display this /\
                      _lastFrame this1 = _lastFrame this).
    { unfold this1. destruct inside; repeat split; reflexivity. }
    destruct Hfields as (Hy1 & Hw1 & Hh1 & Hbg1 & Hfg1 & Hd1 & Hf1).
    assert (Hptr1 : forall x y, getPointerFromXY this1 (Some x) (Some y) =
                                getPointerFromXY this (Some x) (Some y)).
    { intros x y. unfold getPointerFromXY, or_default. rewrite Hw1. reflexivity. }
    assert (Hin1 : forall x y, in_bounds this1 x y <-> in_bounds this x y).
    { intros x y. unfold in_bounds. rewrite Hw1, Hh1. tauto. }
    destruct (IH this1) as (this' & Hrun & Hx & Hy & Hw & Hh & Hbg & Hfg & Hd & Hf & Hnew & Hold).
    exists this'. split; [exact Hrun|].
    split; [rewrite Hx, Hx1; simpl String.length; lia|].
    split; [congruence|]. split; [congruence|]. split; [congruence|].
    split; [congruence|]. split; [congruence|]. split; [congruence|].
    split; [congruence|].
    assert (Hkeep : forall p, p <> ptr -> array_get (_terminal this1) p = array_get (_terminal this) p).
    { intros p Hp. unfold this1. destruct inside eqn:Einside; [|reflexivity].
      simpl. apply array_get_set_ne.
      apply in_bounds_test, pointer_in_bounds in Einside. fold ptr in Einside. lia. }
    split.
    + intros i ch Hget Hin. destruct i as [|j].
      * simpl in Hget. injection Hget as <-.
        replace (_x this + Z.of_nat 0) with (_x this) in * by lia. fold ptr. fold cell.
        rewrite Hold.
        -- unfold this1. apply in_bounds_test in Hin as Htest. fold inside in Htest.
           rewrite Htest. simpl. apply array_get_set_eq.
           apply pointer_in_bounds in Hin. fold ptr in Hin. lia.
        -- intros k _ Hk. rewrite Hptr1, Hx1, Hy1.
           unfold ptr, getPointerFromXY; simpl. lia.
      * simpl in Hget.
        specialize (Hnew j ch Hget). rewrite Hx1, Hy1, Hptr1 in Hnew.
        replace (_x this + Z.of_nat (S j)) with (_x this + 1 + Z.of_nat j) by lia.
        apply Hnew. apply Hin1.
        replace (_x this + 1 + Z.of_nat j) with (_x this + Z.of_nat (S j)) by lia.
        exact Hin.
    + intros p Hp. rewrite Hold.
      * destruct (decide (p = ptr)) as [->|Hne]; [|apply Hkeep, Hne].
        unfold this1. destruct inside eqn:Einside; [|reflexivity].
        exfalso. apply (Hp 0%nat); [simpl; lia | |].
        -- replace (_x this + Z.of_nat 0) with (_x this) by lia.
           apply in_bounds_test, Einside.
        -- replace (_x this + Z.of_nat 0) with (_x this) by lia. reflexivity.
      * intros k Hk Hin. rewrite Hptr1, Hx1, Hy1.
        replace (_x this + 1 + Z.of_nat k) with (_x this + Z.of_nat (S k)) by lia.
        apply Hp; [simpl; lia|].
        apply Hin1 in Hin. rewrite Hx1, Hy1 in Hin.
        replace (_x this + Z.of_nat (S k)) with (_x this + 1 + Z.of_nat k) by lia.
        exact Hin.
Qed.

Lemma write_returns (data : string) (this : Cursor) :
  exists this' : Cursor, write data this = Return tt this' /\ _y this' = _y this.
Proof.
  destruct (write_chars_spec (_background this) (_foreground this) (_display this) data this)
    as (this' & Hrun & _ & Hy & _).
  exists this'. split; [exact Hrun | exact Hy].
Qed.

(** With integers for Numbers: [write(data)] returns with the cursor
    [length] columns to the right on the same row; every character whose
    column is on the grid is stored, with the pen read at entry, at the
    slot of its column on that row; every slot that is not the slot of such
    a character is as before; pen, size and last frame are untouched. *)
Lemma write_stores_row (data : string) (this : Cursor) :
  exists this' : Cursor,
    write data this = Return tt this' /\
    _x this' = _x this + Z.of_nat (String.length data) /\
    _y this' = _y this /\
    (forall (i : nat) (ch : ascii),
       String.get i data = Some ch ->
       0 <= _x this + Z.of_nat i < _width this -> 0 <= _y this < _height this ->
       array_get (_terminal this') (_y this * _width this + (_x this + Z.of_nat i)) =
         Some {| cell_char := ch; cell_x := _x this + Z.of_nat i; cell_y := _y this;
                 cell_background := _background this;
                 cell_foreground := _foreground this;
                 cell_display := _display this |}) /\
    (forall p : Z,
       (forall i : nat,
          (i < String.length data)%nat ->
          0 <= _x this + Z.of_nat i < _width this -> 0 <= _y this < _height this ->
          p <> _y this * _width this + (_x this + Z.of_nat i)) ->
       array_get (_terminal this') p = array_get (_terminal this) p) /\
    _background this' = _background this /\ _foreground this' = _foreground this /\
    _display this' = _display this /\
    _width this' = _width this /\ _height this' = _height this /\
    _lastFrame this' = _lastFrame this.
Proof.
  destruct (write_chars_spec (_background this) (_foreground this) (_display this) data this)
    as (this' & Hrun & Hx & Hy & Hw & Hh & Hbg & Hfg & Hd & Hf & Hnew & Hold).
  exists this'. split; [exact Hrun|].
  split; [exact Hx|]. split; [exact Hy|].
  split; [intros i ch Hget Hcol Hrow; apply (Hnew i ch Hget); split; assumption|].
  split; [|repeat split; assumption].
  intros p Hp. apply Hold. intros i Hi [Hcol Hrow]. apply Hp; assumption.
Qed.

(** *** erase: the loops as one pass over the rectangle *)

Lemma each_ext {A : Type} (f g : A -> M unit) (l : list A) (this : Cursor) :
  (forall a this0, f a this0 = g a this0) -> each f l this = each g l this.
Proof.
  intros Hfg. revert this. induction l as [|a l IH]; intros this; [reflexivity|].
  simpl. unfold mbind, M_bind. rewrite Hfg.
  destruct (g a this); [apply IH | reflexivity].
Qed.

Lemma each_map {A B : Type} (f : A -> B) (body : B -> M unit) (l : list A) (this : Cursor) :
  each body (map f l) this = each (fun a => body (f a)) l this.
Proof.
  revert this. induction l as [|a l IH]; intros this; [reflexivity|].
  simpl. unfold mbind, M_bind. destruct (body (f a) this); [apply IH | reflexivity].
Qed.

Lemma each_app {A : Type} (body : A -> M unit) (l1 l2 : list A) (this : Cursor) :
  each body (l1 ++ l2) this =
    match each body l1 this with
    | Return _ this' => each body l2 this'
    | Raise e this' => Raise e this'
    end.
Proof.
  revert this. induction l1 as [|a l1 IH]; intros this; [reflexivity|].
  simpl. unfold mbind, M_bind. destruct (body a this); [apply IH | reflexivity].
Qed.

Lemma for_count_each (body : Z -> M unit) (n : nat) (i : Z) (this : Cursor) :
  for_count n i body this = each body (map (fun k => i + Z.of_nat k) (seq 0 n)) this.
Proof.
  revert i this. induction n as [|n IH]; intros i this; [reflexivity|].
  simpl. unfold mbind, M_bind. rewrite Z.add_0_r.
  destruct (body i this) as [[] this'|e this']; [|reflexivity].
  rewrite IH, <- seq_shift, map_map. f_equal.
  apply map_ext. intros k. lia.
Qed.

Lemma for_to_each (body : Z -> M unit) (lo hi : Z) (this : Cursor) :
  for_to lo hi body this = each body (zrange lo hi) this.
Proof. apply for_count_each. Qed.

Lemma each_rows (body : Z * Z -> M unit) (xs ys : list Z) (this : Cursor) :
  each (fun y => each (fun x => body (x, y)) xs) ys this =
  each body (flat_map (fun y => map (fun x => (x, y)) xs) ys) this.
Proof.
  revert this. induction ys as [|y ys IH]; intros this; [reflexivity|].
  simpl. rewrite each_app, each_map. unfold mbind, M_bind.
  destruct (each (fun x => body (x, y)) xs this); [apply IH | reflexivity].
Qed.

Lemma erase_each (x1 y1 x2 y2 : Z) (this : Cursor) :
  erase x1 y1 x2 y2 this = each erase_pos (rect x1 y1 x2 y2) this.
Proof.
  unfold erase, rect. rewrite for_to_each.
  rewrite <- (each_rows erase_pos). apply each_ext.
  intros y this0. apply for_to_each.
Qed.

Lemma elem_of_zrange (lo hi z : Z) : z ∈ zrange lo hi <-> lo <= z <= hi.
Proof.
  unfold zrange. rewrite list_elem_of_In, in_map_iff. split.
  - intros (k & <- & Hk). apply in_seq in Hk. lia.
  - intros Hz. exists (Z.to_nat (z - lo)). split; [lia|]. apply in_seq. lia.
Qed.

Lemma elem_of_rect (x1 y1 x2 y2 x y : Z) :
  (x, y) ∈ rect x1 y1 x2 y2 <-> x1 <= x <= x2 /\ y1 <= y <= y2.
Proof.
  unfold rect. rewrite list_elem_of_In, in_flat_map. split.
  - intros (y' & Hy' & Hin). apply in_map_iff in Hin. destruct Hin as (x' & Heq & Hx').
    injection Heq as <- <-.
    apply list_elem_of_In, elem_of_zrange in Hy'.
    apply list_elem_of_In, elem_of_zrange in Hx'. auto.
  - intros [Hx Hy]. exists y. split.
    + apply list_elem_of_In, elem_of_zrange, Hy.
    + apply (in_map (fun x0 => (x0, y))), list_elem_of_In, elem_of_zrange, Hx.
Qed.

Lemma zrange_sorted (lo hi : Z) : StronglySorted Z.lt (zrange lo hi).
Proof.
  unfold zrange. generalize (Z.to_nat (hi - lo + 1)) as n. intros n.
  generalize 0%nat as s. induction n as [|n IH]; intros s; simpl.
  - constructor.
  - constructor; [apply IH|].
    apply Forall_forall. intros z Hz. apply list_elem_of_In, in_map_iff in Hz.
    destruct Hz as (k & <- & Hk). apply in_seq in Hk. lia.
Qed.

Lemma row_sorted (y : Z) (xs : list Z) :
  StronglySorted Z.lt xs -> StronglySorted before (map (fun x => (x, y)) xs).
Proof.
  induction 1 as [|x xs Hxs IH Hall]; simpl; constructor; [exact IH|].
  apply Forall_forall. intros b Hb. apply list_elem_of_In, in_map_iff in Hb.
  destruct Hb as (x' & <- & Hx'). right. simpl. split; [reflexivity|].
  rewrite Forall_forall in Hall. apply Hall, list_elem_of_In, Hx'.
Qed.

Lemma rows_sorted (xs ys : list Z) :
  StronglySorted Z.lt xs -> StronglySorted Z.lt ys ->
  StronglySorted before (flat_map (fun y => map (fun x => (x, y)) xs) ys).
Proof.
  intros Hxs. induction 1 as [|y ys Hys IH Hall]; simpl; [constructor|].
  apply StronglySorted_app_2; [|apply row_sorted, Hxs|exact IH].
  intros a b Ha Hb.
  apply list_elem_of_In, in_map_iff in Ha. destruct Ha as (x & <- & _).
  apply list_elem_of_In, in_flat_map in Hb. destruct Hb as (y' & Hy' & Hb).
  apply in_map_iff in Hb. destruct Hb as (x' & <- & _).
  left. simpl. rewrite Forall_forall in Hall. apply Hall, list_elem_of_In, Hy'.
Qed.

Lemma rect_sorted (x1 y1 x2 y2 : Z) : StronglySorted before (rect x1 y1 x2 y2).
Proof. apply rows_sorted; apply zrange_sorted. Qed.

Lemma before_irrefl (a b : Z * Z) : before a b -> a <> b.
Proof. unfold before. intros H ->. lia. Qed.

Lemma before_asym (a b : Z * Z) : before a b -> ~ before b a.
Proof. unfold before. lia. Qed.

(** Cutting a sorted pass at one of its positions: what comes first is what
    is [before]. *)
Lemma sorted_prefix (l pre post : list (Z * Z)) (pos a : Z * Z) :
  StronglySorted before l -> l = pre ++ pos :: post ->
  (a ∈ pre <-> a ∈ l /\ before a pos).
Proof.
  intros Hsorted ->. apply StronglySorted_app in Hsorted as (Hcross & _ & Htail).
  apply StronglySorted_cons in Htail as [Hpost _]. rewrite Forall_forall in Hpost.
  split.
  - intros Ha. split; [apply elem_of_app; left; exact Ha|].
    apply Hcross; [exact Ha | apply list_elem_of_here].
  - intros [Hin Hbefore]. apply elem_of_app in Hin as [Hin|Hin]; [exact Hin|].
    apply elem_of_cons in Hin as [->|Hin].
    + exfalso. apply (before_irrefl _ _ Hbefore). reflexivity.
    + exfalso. apply (before_asym _ _ Hbefore). apply Hpost, Hin.
Qed.

Lemma first_split {A : Type} (P : A -> Prop) (dec : forall a, Decision (P a)) (l : list A) :
  (exists a, a ∈ l /\ P a) ->
  exists pre a post, l = pre ++ a :: post /\ P a /\ (forall b, b ∈ pre -> ~ P b).
Proof.
  induction l as [|a l IH]; intros (b & Hb & HP).
  - apply elem_of_nil in Hb. contradiction.
  - destruct (dec a) as [Ha|Hna].
    + exists [], a, l. split; [reflexivity|]. split; [exact Ha|].
      intros c Hc. apply elem_of_nil in Hc. contradiction.
    + destruct IH as (pre & c & post & -> & Hc & Hpre).
      { apply elem_of_cons in Hb as [->|Hb]; [contradiction|]. exists b. auto. }
      exists (a :: pre), c, post. split; [reflexivity|]. split; [exact Hc|].
      intros d Hd. apply elem_of_cons in Hd as [->|Hd]; [exact Hna | apply Hpre, Hd].
Qed.

(** *** erase: one pass of [erase_at] *)

Lemma same_cursor_refl (this : Cursor) : same_cursor this this.
Proof. repeat split. Qed.

Lemma same_cursor_trans (a b c : Cursor) :
  same_cursor a b -> same_cursor b c -> same_cursor a c.
Proof. unfold same_cursor. intuition congruence. Qed.

Lemma erase_pos_cell (this : Cursor) (pos : Z * Z) (cell : Cell) :
  array_get (_terminal this) (pointer_of this pos) = Some cell ->
  erase_pos pos this =
    Return tt (with_terminal
                 (<[Z.to_nat (pointer_of this pos) := Some (blank cell)]> (_terminal this))
                 this).
Proof.
  intros Hcell. unfold erase_pos, erase_at, mbind, M_bind, read, assign.
  fold (pointer_of this pos). rewrite Hcell. reflexivity.
Qed.

Lemma erase_pos_undefined (this : Cursor) (pos : Z * Z) :
  array_get (_terminal this) (pointer_of this pos) = None ->
  erase_pos pos this =
    Raise (TypeError "Cannot read properties of undefined (reading 'setChar')") this.
Proof.
  intros Hnone. unfold erase_pos, erase_at, mbind, M_bind, read, throw.
  fold (pointer_of this pos). rewrite Hnone. reflexivity.
Qed.

Lemma blank_blank (cell : Cell) : blank (blank cell) = blank cell.
Proof. reflexivity. Qed.

Lemma each_erase_returns (l : list (Z * Z)) :
  forall this : Cursor,
  (forall pos, pos ∈ l -> is_Some (array_get (_terminal this) (pointer_of this pos))) ->
  exists this' : Cursor,
    each erase_pos l this = Return tt this' /\
    same_cursor this this' /\
    length (_terminal this') = length (_terminal this) /\
    forall p, array_get (_terminal this') p =
              blanked (pointer_of this <$> l) (_terminal this) p.
Proof.
  induction l as [|pos l IH]; intros this Hcells.
  - exists this. split; [reflexivity|]. split; [apply same_cursor_refl|].
    split; [reflexivity|]. intros p. unfold blanked. simpl.
    destruct (decide (p ∈ [])) as [Hin|_]; [|reflexivity].
    apply elem_of_nil in Hin. contradiction.
  - destruct (Hcells pos) as [cell Hcell]; [apply list_elem_of_here|].
    set (ptr := pointer_of this pos) in *.
    set (this1 := with_terminal (<[Z.to_nat ptr := Some (blank cell)]> (_terminal this)) this).
    assert (Hget1 : forall q, array_get (_terminal this1) q =
                              if decide (q = ptr) then Some (blank cell)
                              else array_get (_terminal this) q).
    { intros q. apply (array_get_insert _ _ _ _ cell), Hcell. }
    assert (Hptr1 : forall q, pointer_of this1 q = pointer_of this q) by reflexivity.
    destruct (IH this1) as (this' & Hrun & Hsame & Hlen & Hget).
    { intros pos' Hin. rewrite Hptr1, Hget1.
      destruct (decide (pointer_of this pos' = ptr)); [eauto|].
      apply Hcells, list_elem_of_further, Hin. }
    exists this'. split.
    { simpl. unfold mbind, M_bind. rewrite (erase_pos_cell this pos cell Hcell).
      exact Hrun. }
    split; [apply (same_cursor_trans _ this1); [repeat split | exact Hsame]|].
    split; [rewrite Hlen; apply length_insert|].
    intros p. rewrite Hget. unfold blanked.
    rewrite fmap_cons. fold ptr.
    replace (pointer_of this1 <$> l) with (pointer_of this <$> l) by reflexivity.
    rewrite Hget1.
    destruct (decide (p = ptr)) as [->|Hne].
    + rewrite Hcell.
      destruct (decide (ptr ∈ ptr :: (pointer_of this <$> l))) as [_|Hn];
        [|exfalso; apply Hn, list_elem_of_here].
      destruct (decide (ptr ∈ pointer_of this <$> l)); reflexivity.
    + destruct (decide (p ∈ pointer_of this <$> l)) as [Hin|Hnin];
        destruct (decide (p ∈ ptr :: (pointer_of this <$> l))) as [Hin'|Hnin'];
        try reflexivity.
      * exfalso. apply Hnin', list_elem_of_further, Hin.
      * exfalso. apply elem_of_cons in Hin' as [?|?]; contradiction.
Qed.

Lemma each_erase_throws (pre post : list (Z * Z)) (pos : Z * Z) (this : Cursor) :
  (forall a, a ∈ pre -> is_Some (array_get (_terminal this) (pointer_of this a))) ->
  array_get (_terminal this) (pointer_of this pos) = None ->
  exists this' : Cursor,
    each erase_pos (pre ++ pos :: post) this =
      Raise (TypeError "Cannot read properties of undefined (reading 'setChar')") this' /\
    same_cursor this this' /\
    length (_terminal this') = length (_terminal this) /\
    forall p, array_get (_terminal this') p =
              blanked (pointer_of this <$> pre) (_terminal this) p.
Proof.
  intros Hpre Hnone.
  destruct (each_erase_returns pre this Hpre) as (this1 & Hrun & Hsame & Hlen & Hget).
  exists this1. split; [|auto].
  rewrite each_app, Hrun. simpl. unfold mbind, M_bind.
  rewrite erase_pos_undefined; [reflexivity|].
  replace (pointer_of this1 pos) with (pointer_of this pos).
  - rewrite Hget. unfold blanked. rewrite Hnone.
    destruct (decide (pointer_of this pos ∈ pointer_of this <$> pre)); reflexivity.
  - unfold pointer_of, getPointerFromXY. destruct Hsame as (_ & _ & _ & _ & _ & Hw & _).
    rewrite Hw. reflexivity.
Qed.

Lemma elem_of_pointers (this : Cursor) (l : list (Z * Z)) (p : Z) :
  p ∈ pointer_of this <$> l <->
  exists x y, (x, y) ∈ l /\ p = y * _width this + x.
Proof.
  rewrite list_elem_of_fmap. split.
  - intros ([x y] & -> & Hin). exists x, y. split; [exact Hin | reflexivity].
  - intros (x & y & Hin & ->). exists (x, y). split; [reflexivity | exact Hin].
Qed.


(** With integers for Numbers: when a position of the rectangle has no
    cell behind it, [erase] throws a [TypeError] at the first such position
    in the order of the loops: that slot is still without a cell, the cell
    of every position visited before it has its character replaced by a
    space, and every index that belongs to no position visited before is as
    it was. *)
Lemma erase_throws_on_unwritten (x1 y1 x2 y2 : Z) (this : Cursor) :
  (exists x y, x1 <= x <= x2 /\ y1 <= y <= y2 /\
     array_get (_terminal this) (y * _width this + x) = None) ->
  exists (msg : string) (this' : Cursor) (xf yf : Z),
    erase x1 y1 x2 y2 this = Raise (TypeError msg) this' /\
    (x1 <= xf <= x2 /\ y1 <= yf <= y2) /\
    array_get (_terminal this) (yf * _width this + xf) = None /\
    array_get (_terminal this') (yf * _width this + xf) = None /\
    (forall x y, x1 <= x <= x2 -> y1 <= y <= y2 ->
       y < yf \/ (y = yf /\ x < xf) ->
       exists cell : Cell,
         array_get (_terminal this) (y * _width this + x) = Some cell /\
         array_get (_terminal this') (y * _width this + x) = Some (setChar cell " ")) /\
    (forall p : Z,
       (forall x y, x1 <= x <= x2 -> y1 <= y <= y2 ->
          y < yf \/ (y = yf /\ x < xf) -> p <> y * _width this + x) ->
       array_get (_terminal this') p = array_get (_terminal this) p) /\
    length (_terminal this') = length (_terminal this) /\
    _x this' = _x this /\ _y this' = _y this.
Proof.
  intros (x & y & Hx & Hy & Hnone).
  set (hole := fun pos : Z * Z => array_get (_terminal this) (pointer_of this pos) = None).
  destruct (first_split hole (fun pos => decide (hole pos)) (rect x1 y1 x2 y2))
    as (pre & [xf yf] & post & Hsplit & Hhole & Hpre).
  { exists (x, y). split; [apply elem_of_rect; auto | exact Hnone]. }
  assert (Hearlier : forall a, a ∈ pre <-> a ∈ rect x1 y1 x2 y2 /\ before a (xf, yf)).
  { intros a. apply (sorted_prefix _ pre post); [apply rect_sorted | exact Hsplit]. }
  destruct (each_erase_throws pre post (xf, yf) this) as (this' & Hrun & Hsame & Hlen & Hget).
  { intros a Ha. specialize (Hpre a Ha). unfold hole in Hpre.
    destruct (array_get (_terminal this) (pointer_of this a)); [eauto | contradiction]. }
  { exact Hhole. }
  eexists _, this', xf, yf. rewrite erase_each, Hsplit. split; [exact Hrun|].
  split.
  { apply elem_of_rect. rewrite Hsplit. apply elem_of_app. right. apply list_elem_of_here. }
  split; [exact Hhole|].
  split.
  { change (yf * _width this + xf) with (pointer_of this (xf, yf)).
    rewrite Hget. unfold blanked. unfold hole in Hhole. rewrite Hhole.
    destruct (decide (pointer_of this (xf, yf) ∈ pointer_of this <$> pre)); reflexivity. }
  split.
  { intros x' y' Hx' Hy' Hbefore.
    assert (Hin : (x', y') ∈ pre).
    { apply Hearlier. split; [apply elem_of_rect; auto | exact Hbefore]. }
    specialize (Hpre _ Hin). unfold hole in Hpre.
    change (y' * _width this + x') with (pointer_of this (x', y')).
    destruct (array_get (_terminal this) (pointer_of this (x', y'))) as [cell|] eqn:Hcell;
      [|contradiction].
    exists cell. split; [reflexivity|].
    rewrite Hget. unfold blanked. rewrite decide_True.
    - rewrite Hcell. reflexivity.
    - apply list_elem_of_fmap. exists (x', y'). split; [reflexivity | exact Hin]. }
  split.
  { intros p Hp. rewrite Hget. unfold blanked. rewrite decide_False; [reflexivity|].
    intros Hin. apply elem_of_pointers in Hin as (x' & y' & Hin & ->).
    apply Hearlier in Hin as [Hin Hbefore]. apply elem_of_rect in Hin as [Hx' Hy'].
    apply (Hp x' y' Hx' Hy' Hbefore). reflexivity. }
  split; [exact Hlen|].
  destruct Hsame as (Hsx & Hsy & _). auto.
Qed.

(** *** erase at concrete inputs *)


(** The throw leaves the cell visited first blanked: [erase] is not
    atomic. *)
Example erase_not_atomic :
  erase 0 0 1 0 a_2x1 =
    Raise (TypeError "Cannot read properties of undefined (reading 'setChar')")
      (with_terminal
         [Some {| cell_char := " "; cell_x := 0; cell_y := 0;
                  cell_background := black; cell_foreground := black;
                  cell_display := VObj [] |}] a_2x1) /\
  array_get (_terminal a_2x1) 0 =
    Some {| cell_char := "a"; cell_x := 0; cell_y := 0;
            cell_background := black; cell_foreground := black;
            cell_display := VObj [] |}.
Proof. split; reflexivity. Qed.

(** C4, where it fails: [erase] has no test of the bounds and none of the
    slot.  A rectangle that leaves a fully written 3 x 1 grid by one column
    throws once the three cells are blanked; a rectangle on the grid throws
    at once when the slot was never written; a rectangle left of the grid
    throws as well. *)
Theorem erase_off_grid_throws :
  erase 0 0 3 0 abc_3x1 =
    Raise (TypeError "Cannot read properties of undefined (reading 'setChar')")
      (final (erase 0 0 2 0 abc_3x1)) /\
  erase 0 0 0 0 (empty_cursor 3 1) =
    Raise (TypeError "Cannot read properties of undefined (reading 'setChar')")
      (empty_cursor 3 1) /\
  erase (-1) 0 (-1) 0 abc_3x1 =
    Raise (TypeError "Cannot read properties of undefined (reading 'setChar')") abc_3x1.
Proof. repeat split; reflexivity. Qed.

(** The movements and [write] always return. *)
Lemma moves_and_write_return (this : Cursor) :
  (forall n, exists this', up n this = Return tt this') /\
  (forall n, exists this', down n this = Return tt this') /\
  (forall n, exists this', left n this = Return tt this') /\
  (forall n, exists this', right n this = Return tt this') /\
  (forall x y, exists this', moveTo x y this = Return tt this') /\
  (forall x y, exists this', moveBy x y this = Return tt this') /\
  (forall data, exists this', write data this = Return tt this').
Proof.
  repeat split; try (intros; eexists; reflexivity).
  - intros x y. unfold moveBy, mbind, M_bind, left, right, up, down, assign, mret, M_ret.
    destruct (Qltb x (inject_Z 0)), (Qltb (inject_Z 0) x),
             (Qltb y (inject_Z 0)), (Qltb (inject_Z 0) y); eexists; reflexivity.
  - intros data. destruct (write_returns data this) as (this' & Hrun & _).
    exists this'. exact Hrun.
Qed.

(** [moveTo(-3, -2)] then [write("x")]: no slot changes, the cursor ends at
    (-2, -2). *)
Example write_off_grid (this : Cursor) :
  exists this' : Cursor,
    (_ ← moveTo (inject_Z (-3)) (inject_Z (-2)); write "x") this = Return tt this' /\
    _terminal this' = _terminal this /\ _x this' = -2 /\ _y this' = -2.
Proof.
  unfold mbind, M_bind, moveTo, assign, write, read. simpl.
  unfold mbind, M_bind, read, assign, mret, M_ret. simpl.
  destruct (-3 <? _width this); simpl; eexists; repeat split; reflexivity.
Qed.

(** *** flush *)

Section FlushFacts.
Variable Cell_toString : Cell -> string.

Lemma concat_empty_cons (s : string) (l : list string) :
  String.concat "" (s :: l) = String.append s (String.concat "" l).
Proof.
  destruct l as [|s' l]; simpl; [|reflexivity].
  induction s as [|c s IH]; [reflexivity|].
  change (String c s = String c (String.append s "")). f_equal. exact IH.
Qed.

Lemma flush_chunk (frame : gset (option string)) (slots : Terminal) :
  String.concat ""
    (map Cell_toString
       (List.filter (fun item => bool_decide (Some (Cell_toString item) ∉ frame))
          (array_elements slots))) =
  emitted Cell_toString frame slots.
Proof.
  induction slots as [|[cell|] rest IH]; [reflexivity| |exact IH].
  change (array_elements (Some cell :: rest)) with (cell :: array_elements rest).
  simpl List.filter. simpl emitted.
  destruct (decide (Some (Cell_toString cell) ∈ frame)) as [Hin|Hnin].
  - rewrite bool_decide_eq_false_2 by (intros Hn; apply Hn, Hin). exact IH.
  - rewrite bool_decide_eq_true_2 by exact Hnin.
    simpl map. rewrite concat_empty_cons, IH. reflexivity.
Qed.

Lemma emitted_nothing (frame : gset (option string)) (slots : Terminal) :
  (forall cell, Some cell ∈ slots -> Some (Cell_toString cell) ∈ frame) ->
  emitted Cell_toString frame slots = EmptyString.
Proof.
  induction slots as [|[cell|] rest IH]; intros Hall; [reflexivity| |].
  - simpl. rewrite decide_True by (apply Hall, list_elem_of_here).
    apply IH. intros c Hc. apply Hall, list_elem_of_further, Hc.
  - simpl. apply IH. intros c Hc. apply Hall, list_elem_of_further, Hc.
Qed.

Lemma frame_members (slots : Terminal) (v : option string) :
  v ∈ (list_to_set (map (fun slot => option_map Cell_toString slot) slots)
        : gset (option string)) <->
  exists i slot, slots !! i = Some slot /\ v = option_map Cell_toString slot.
Proof.
  rewrite elem_of_list_to_set, list_elem_of_In, in_map_iff. split.
  - intros (slot & <- & Hin). apply list_elem_of_In, list_elem_of_lookup in Hin.
    destruct Hin as [i Hi]. exists i, slot. auto.
  - intros (i & slot & Hi & ->). exists slot. split; [reflexivity|].
    apply list_elem_of_In, list_elem_of_lookup. exists i. exact Hi.
Qed.


End FlushFacts.

(** A 3 x 1 buffer: ["ab"] at (0,0) and a flush emit two cells; ["c"] over
    (0,0) and a flush emit that one cell; a third flush emits nothing. *)
Example flush_only_changed_cell :
  let s1 := final (write "ab" (empty_cursor 3 1)) in
  let f1 := flush sample_encode s1 [] in
  let s2 := final ((_ ← moveTo (inject_Z 0) (inject_Z 0); write "c") (fst f1)) in
  let f2 := flush sample_encode s2 (snd f1) in
  let f3 := flush sample_encode (fst f2) (snd f2) in
  snd f3 = ["a@0,0b@1,0"; "c@0,0"; ""].
Proof. vm_compute. reflexivity. Qed.

End CursorFacts.

(** ** The arithmetic of Numbers *)

Module DoubleFacts.
Import JS Color Cursor Spec SpecMore CursorFacts.

Example nearest_examples :
  Double.nearest 9007199254740993 = 9007199254740992 /\
  Double.nearest 9007199254740995 = 9007199254740996 /\
  Double.nearest (-9007199254740993) = -9007199254740992 /\
  Double.nearest (-9007199254740995) = -9007199254740996 /\
  Double.nearest 9007199254740994 = 9007199254740994 /\
  Double.nearest (2 ^ 60 + 129) = 2 ^ 60 + 256 /\
  Double.nearest (2 ^ 60 + 127) = 2 ^ 60 /\
  Double.floor_div 9007199254740992 3 = 3002399751580330 /\
  Double.floor_div 7 2 = 3 /\ Double.floor_div (-7) 2 = -4 /\
  Double.floor_div 7 (-2) = -4 /\ Double.floor_div 6 3 = 2 /\
  Double.floor_div 1 3 = 0 /\ Double.floor_div (-1) 3 = -1 /\
  Double.floor_div (-7) (-2) = 3 /\ Double.floor_div (2 ^ 60) 3 = 384307168202282304.
Proof. vm_compute. repeat split; reflexivity. Qed.

(** *** Within 2^53 the arithmetic is that of the integers *)

Lemma nearest_safe (z : Z) : Z.abs z <= 2 ^ 53 -> Double.nearest z = z.
Proof.
  intros Hz. unfold Double.nearest.
  destruct (Z.leb_spec (Z.abs z) (2 ^ 53)); [reflexivity | lia].
Qed.

Lemma add_safe (a b : Z) : Z.abs (a + b) <= 2 ^ 53 -> Double.add a b = a + b.
Proof. apply nearest_safe. Qed.

Lemma sub_safe (a b : Z) : Z.abs (a - b) <= 2 ^ 53 -> Double.sub a b = a - b.
Proof. apply nearest_safe. Qed.

Lemma mul_safe (a b : Z) : Z.abs (a * b) <= 2 ^ 53 -> Double.mul a b = a * b.
Proof. apply nearest_safe. Qed.

Lemma scaled_nonpos (n d e : Z) : e <= 0 -> Double.scaled n d e = (n * 2 ^ (- e), d).
Proof.
  intros He. unfold Double.scaled. destruct (Z.leb_spec 0 e) as [H0|H0]; [|reflexivity].
  assert (e = 0) as -> by lia. simpl. f_equal; lia.
Qed.

(** The exponent of a quotient below 2^53 is not positive, and it leaves
    at least 53 bits of mantissa. *)
Lemma exponent_spec (n d : Z) :
  0 < n < 2 ^ 53 -> 0 < d ->
  Double.exponent n d <= 0 /\ 2 ^ 52 * d <= n * 2 ^ (- Double.exponent n d).
Proof.
  intros Hn Hd.
  destruct (Z.log2_spec n ltac:(lia)) as [HL1 HL2].
  destruct (Z.log2_spec d Hd) as [HD1 HD2].
  pose proof (Z.log2_nonneg n) as HL0. pose proof (Z.log2_nonneg d) as HD0.
  assert (HL : Z.log2 n < 53) by (apply Z.log2_lt_pow2; lia).
  unfold Double.exponent.
  set (e0 := Z.log2 n - Z.log2 d - 52).
  assert (He0 : e0 <= 0) by (unfold e0; lia).
  rewrite (scaled_nonpos n d e0 He0). cbn [fst snd].
  destruct (Z.leb_spec (2 ^ 52 * d) (n * 2 ^ (- e0))) as [Hfit|Hless].
  - split; [exact He0 | exact Hfit].
  - split; [lia|].
    replace (- (e0 - 1)) with (Z.log2 d + 1 + (52 - Z.log2 n)) by (unfold e0; lia).
    rewrite Z.pow_add_r by lia.
    assert (Hd' : d <= 2 ^ (Z.log2 d + 1)) by lia.
    assert (Hn' : 2 ^ 52 <= n * 2 ^ (52 - Z.log2 n)).
    { replace (2 ^ 52) with (2 ^ Z.log2 n * 2 ^ (52 - Z.log2 n))
        by (rewrite <- Z.pow_add_r by lia; f_equal; lia).
      apply Z.mul_le_mono_nonneg_r; [apply Z.pow_nonneg; lia | exact HL1]. }
    assert (Hp : 0 < 2 ^ (Z.log2 d + 1)) by (apply Z.pow_pos_nonneg; lia).
    nia.
Qed.

(** Rounding a quotient whose numerator is below 2^53 crosses no integer:
    an integer quotient is kept, and another one stays strictly between
    the two integers around it. *)
Lemma mantissa_between (n d e : Z) :
  0 < n < 2 ^ 53 -> 0 < d -> e <= 0 -> 2 ^ 52 * d <= n * 2 ^ (- e) ->
  (n mod d = 0 -> Double.mantissa n d e = n / d * 2 ^ (- e)) /\
  (n mod d <> 0 ->
   n / d * 2 ^ (- e) < Double.mantissa n d e < (n / d + 1) * 2 ^ (- e)).
Proof.
  intros Hn Hd He Hbits.
  unfold Double.mantissa. rewrite (scaled_nonpos n d e He). cbn [fst snd].
  set (t := 2 ^ (- e)) in *.
  assert (Ht : 0 < t) by (apply Z.pow_pos_nonneg; lia).
  pose proof (Z.div_mod n d ltac:(lia)) as Hdiv.
  pose proof (Z.mod_pos_bound n d Hd) as Hrem.
  set (k := n / d) in *. set (r0 := n mod d) in *.
  set (A := n * t) in *.
  pose proof (Z.div_mod A d ltac:(lia)) as HA.
  pose proof (Z.mod_pos_bound A d Hd) as Hr.
  set (M := A / d) in *. set (r := A mod d) in *.
  assert (Hdt : d < 2 * t) by nia.
  split.
  - intros Hzero.
    assert (HM : M = k * t) by nia.
    assert (Hr0 : r = 0) by nia.
    rewrite Hr0. destruct (Z.ltb_spec (2 * 0) d); [exact HM | lia].
  - intros Hnz.
    assert (Hlow : k * t <= M) by nia.
    assert (Hup : M < (k + 1) * t) by nia.
    assert (Hround : 2 * r >= d -> M + 1 < (k + 1) * t) by nia.
    assert (Hstay : M = k * t -> d < 2 * r) by nia.
    destruct (Z.ltb_spec (2 * r) d) as [Hdown|Hnotdown]; [lia|].
    destruct (Z.ltb_spec d (2 * r)) as [Hup'|Htie]; [lia|].
    destruct (Z.even M); lia.
Qed.

(** [Math.floor(a / b)] is the floor quotient of the integers while the
    numerator is below 2^53 in magnitude. *)
Lemma floor_div_safe (a b : Z) :
  Z.abs a < 2 ^ 53 -> b <> 0 -> Double.floor_div a b = a / b.
Proof.
  intros Ha Hb. unfold Double.floor_div.
  destruct (Z.eqb_spec a 0) as [->|Hne]; [reflexivity|].
  cbv zeta. set (n := Z.abs a). set (d := Z.abs b).
  assert (Hn : 0 < n < 2 ^ 53) by (unfold n; lia).
  assert (Hd : 0 < d) by (unfold d; lia).
  destruct (exponent_spec n d Hn Hd) as [He Hbits].
  destruct (mantissa_between n d (Double.exponent n d) Hn Hd He Hbits) as [Hexact Hbetween].
  set (e := Double.exponent n d) in *.
  set (m := Double.mantissa n d e) in *.
  set (t := 2 ^ (- e)) in *.
  assert (Ht : 0 < t) by (apply Z.pow_pos_nonneg; lia).
  pose proof (Z.div_mod n d ltac:(lia)) as Hdiv.
  pose proof (Z.mod_pos_bound n d Hd) as Hrem.
  set (k := n / d) in *. set (r := n mod d) in *.
  assert (Hvalue : (if 0 <=? e then Z.sgn a * Z.sgn b * m * 2 ^ e
                    else (Z.sgn a * Z.sgn b * m) / t) =
                   (Z.sgn a * Z.sgn b * m) / t).
  { destruct (Z.leb_spec 0 e) as [H0|H0]; [|reflexivity].
    assert (E : e = 0) by lia. unfold t. rewrite E. simpl.
    rewrite Z.div_1_r. lia. }
  rewrite Hvalue. clear Hvalue.
  assert (En : n = Z.abs a) by reflexivity. assert (Ed : d = Z.abs b) by reflexivity.
  clearbody n d. clearbody t m. clearbody k r. clear e He.
  destruct (Z.eq_dec r 0) as [Hr|Hr].
  - rewrite (Hexact Hr).
    replace (Z.sgn a * Z.sgn b * (k * t)) with (Z.sgn a * Z.sgn b * k * t) by lia.
    rewrite Z.div_mul by lia.
    apply (Z.div_unique a b (Z.sgn a * Z.sgn b * k) 0); [lia|].
    destruct (Z.lt_total a 0) as [Hsa|[Hsa|Hsa]]; [|lia|];
      destruct (Z.lt_total b 0) as [Hsb|[Hsb|Hsb]]; try lia;
      rewrite ?(Z.sgn_neg a), ?(Z.sgn_pos a), ?(Z.sgn_neg b), ?(Z.sgn_pos b) by lia; nia.
  - specialize (Hbetween Hr).
    destruct (Z.lt_total a 0) as [Hsa|[Hsa|Hsa]]; [|lia|];
      destruct (Z.lt_total b 0) as [Hsb|[Hsb|Hsb]]; try lia;
      rewrite ?(Z.sgn_neg a), ?(Z.sgn_pos a), ?(Z.sgn_neg b), ?(Z.sgn_pos b) by lia.
    + replace (-1 * -1 * m) with m by lia.
      rewrite <- (Z.div_unique_pos m t k (m - k * t)) by lia.
      apply (Z.div_unique a b k (a - b * k)); [right; nia | lia].
    + replace (-1 * 1 * m) with (- m) by lia.
      rewrite <- (Z.div_unique_pos (- m) t (- k - 1) (- m - (- k - 1) * t)) by lia.
      apply (Z.div_unique a b (- k - 1) (a - b * (- k - 1))); [left; nia | lia].
    + replace (1 * -1 * m) with (- m) by lia.
      rewrite <- (Z.div_unique_pos (- m) t (- k - 1) (- m - (- k - 1) * t)) by lia.
      apply (Z.div_unique a b (- k - 1) (a - b * (- k - 1))); [right; nia | lia].
    + replace (1 * 1 * m) with m by lia.
      rewrite <- (Z.div_unique_pos m t k (m - k * t)) by lia.
      apply (Z.div_unique a b k (a - b * k)); [left; nia | lia].
Qed.

Lemma getPointerFromXY_safe (this : Cursor) (x y : Z) :
  Z.abs (y * _width this) <= 2 ^ 53 -> Z.abs (y * _width this + x) <= 2 ^ 53 ->
  Double.getPointerFromXY this (Some x) (Some y) = getPointerFromXY this (Some x) (Some y).
Proof.
  intros Hmul Hadd. unfold Double.getPointerFromXY, getPointerFromXY, or_default.
  rewrite mul_safe by exact Hmul. apply add_safe. exact Hadd.
Qed.

Lemma getXYFromPointer_safe (this : Cursor) (index : Z) :
  Z.abs index < 2 ^ 53 ->
  Z.abs (index / _width this * _width this) <= 2 ^ 53 ->
  Z.abs (index - index / _width this * _width this) <= 2 ^ 53 ->
  Double.getXYFromPointer this index = getXYFromPointer this index.
Proof.
  intros Hi Hmul Hsub. unfold Double.getXYFromPointer, getXYFromPointer.
  destruct (Z.eqb_spec (_width this) 0) as [E|Hw]; [reflexivity|].
  rewrite floor_div_safe by assumption.
  rewrite mul_safe by exact Hmul. rewrite sub_safe by exact Hsub. reflexivity.
Qed.

(** On a grid of at most 2^53 slots the quotient and the remainder of an
    index of the grid are computed without rounding. *)
Lemma index_exact (this : Cursor) (i : Z) :
  _width this * _height this <= 2 ^ 53 -> 0 <= i < _width this * _height this ->
  Z.abs (i / _width this * _width this) <= 2 ^ 53 /\
  Z.abs (i - i / _width this * _width this) <= 2 ^ 53.
Proof.
  intros Hsize Hi.
  destruct (Z.lt_trichotomy (_width this) 0) as [Hneg | [Hzero | Hpos]].
  - pose proof (Z.div_mod i (_width this) ltac:(lia)) as Hdiv.
    pose proof (Z.mod_neg_bound i (_width this) Hneg) as Hrem.
    set (k := i / _width this) in *. set (r := i mod _width this) in *.
    assert (Hh : _height this < 0) by nia.
    assert (Hk : _height this <= k) by nia.
    assert (Hk0 : k <= 0) by nia.
    split; nia.
  - rewrite Hzero in Hi. lia.
  - pose proof (Z.div_mod i (_width this) ltac:(lia)) as Hdiv.
    pose proof (Z.mod_pos_bound i (_width this) Hpos) as Hrem.
    set (k := i / _width this) in *. set (r := i mod _width this) in *.
    assert (Hk0 : 0 <= k) by nia.
    split; nia.
Qed.

(** *** The coordinate helpers *)

(** C9, amended: on a grid of at most 2^53 slots, [getXYFromPointer]
    undoes [getPointerFromXY] on every position of the grid, and
    [getPointerFromXY] undoes [getXYFromPointer] on every index from 0 to
    [width * height - 1]; with a positive width the pair is a position of
    the grid. *)
Theorem pointer_xy_inverse_safe (this : Cursor) :
  _width this * _height this <= 2 ^ 53 ->
  (forall x y : Z,
     0 <= x < _width this -> 0 <= y < _height this ->
     Double.getXYFromPointer this (Double.getPointerFromXY this (Some x) (Some y)) =
       Some (x, y)) /\
  (forall i : Z,
     0 <= i < _width this * _height this ->
     exists x y : Z,
       Double.getXYFromPointer this i = Some (x, y) /\
       Double.getPointerFromXY this (Some x) (Some y) = i /\
       (0 < _width this -> 0 <= x < _width this /\ 0 <= y < _height this)).
Proof.
  intros Hsize.
  destruct (pointer_xy_inverse this) as [Hthere Hback].
  split.
  - intros x y Hx Hy.
    assert (Hrow : 0 <= y * _width this) by nia.
    assert (Hlast : y * _width this + x < _width this * _height this) by nia.
    rewrite getPointerFromXY_safe by lia.
    unfold getPointerFromXY at 1, or_default.
    destruct (index_exact this (y * _width this + x) Hsize ltac:(lia)) as [Hmul Hsub].
    rewrite getXYFromPointer_safe by (assumption || lia).
    apply (Hthere x y Hx Hy).
  - intros i Hi.
    destruct (Hback i Hi) as (x & y & Hxy & Hptr & Hgrid).
    destruct (index_exact this i Hsize Hi) as [Hmul Hsub].
    exists x, y.
    rewrite getXYFromPointer_safe by (assumption || lia).
    split; [exact Hxy|]. split; [|exact Hgrid].
    unfold getXYFromPointer in Hxy.
    destruct (_width this =? 0); [discriminate|]. injection Hxy as Hx Hy.
    rewrite getPointerFromXY_safe; [exact Hptr | |].
    + rewrite <- Hy. exact Hmul.
    + unfold getPointerFromXY, or_default in Hptr. lia.
Qed.

Lemma pointer_xy_inverse_safe_witness :
  Double.getXYFromPointer (empty_cursor 3 2)
    (Double.getPointerFromXY (empty_cursor 3 2) (Some 2) (Some 1)) = Some (2, 1) /\
  exists x y : Z,
    Double.getXYFromPointer (empty_cursor 3 2) 5 = Some (x, y) /\
    Double.getPointerFromXY (empty_cursor 3 2) (Some x) (Some y) = 5 /\
    (0 < _width (empty_cursor 3 2) ->
     0 <= x < _width (empty_cursor 3 2) /\ 0 <= y < _height (empty_cursor 3 2)).
Proof.
  assert (Hsize : _width (empty_cursor 3 2) * _height (empty_cursor 3 2) <= 2 ^ 53)
    by (simpl; lia).
  split.
  - apply (proj1 (pointer_xy_inverse_safe (empty_cursor 3 2) Hsize) 2 1); simpl; lia.
  - apply (proj2 (pointer_xy_inverse_safe (empty_cursor 3 2) Hsize) 5); simpl; lia.
Defined.

(** C9, as stated, fails: on the grid of 3 columns and 2^52 rows the
    position (0, 3002399751580331) is on the grid; its index, 2^53 + 1, is
    no Number and is rounded to 2^53, the index of the position
    (2, 3002399751580330), and that is the pair [getXYFromPointer] gives
    back. *)
Lemma pointer_xy_not_inverse :
  (0 <= 0 < _width tall_grid /\ 0 <= 3002399751580331 < _height tall_grid) /\
  Double.getPointerFromXY tall_grid (Some 0) (Some 3002399751580331) = 9007199254740992 /\
  Double.getPointerFromXY tall_grid (Some 2) (Some 3002399751580330) = 9007199254740992 /\
  Double.getXYFromPointer tall_grid
    (Double.getPointerFromXY tall_grid (Some 0) (Some 3002399751580331)) =
    Some (2, 3002399751580330).
Proof. vm_compute. repeat split; reflexivity || discriminate. Qed.

(** *** write *)

Lemma double_write_chars_step (bg fg : Color.Rgb) (d : Val) (ch : ascii) (rest : string)
    (this : Cursor) :
  Double.write_chars bg fg d (String ch rest) this =
    Double.write_chars bg fg d rest
      (with_x (Double.add (_x this) 1)
         (if (0 <=? _x this) && (_x this <? _width this) &&
             (0 <=? _y this) && (_y this <? _height this)
          then with_terminal
                 (array_set (_terminal this)
                    (Z.to_nat (Double.getPointerFromXY this (Some (_x this)) (Some (_y this))))
                    {| cell_char := ch; cell_x := _x this; cell_y := _y this;
                       cell_background := bg; cell_foreground := fg;
                       cell_display := d |}) this
          else this)).
Proof.
  unfold Double.write_chars at 1; fold Double.write_chars.
  unfold mbind, M_bind, read, assign, mret, M_ret.
  destruct ((0 <=? _x this) && (_x this <? _width this) &&
            (0 <=? _y this) && (_y this <? _height this)); reflexivity.
Qed.

(** A text that keeps the column within 2^53 and whose slots on the grid
    are computed without rounding: [write] computes as on integers. *)
Lemma write_chars_safe (bg fg : Color.Rgb) (d : Val) (data : string) :
  forall this : Cursor,
    - 2 ^ 53 <= _x this -> _x this + Z.of_nat (String.length data) <= 2 ^ 53 ->
    (forall i : nat, (i < String.length data)%nat ->
       in_bounds this (_x this + Z.of_nat i) (_y this) ->
       exact_slot this (_x this + Z.of_nat i) (_y this)) ->
    Double.write_chars bg fg d data this = write_chars bg fg d data this.
Proof.
  induction data as [|ch rest IH]; intros this Hlo Hhi Hexact; [reflexivity|].
  rewrite double_write_chars_step, write_chars_step.
  simpl String.length in Hhi.
  rewrite add_safe by lia.
  assert (Hrest : forall this1 : Cursor,
            _x this1 = _x this + 1 -> _y this1 = _y this ->
            _width this1 = _width this -> _height this1 = _height this ->
            Double.write_chars bg fg d rest this1 = write_chars bg fg d rest this1).
  { intros this1 Hx1 Hy1 Hw1 Hh1. apply IH; [lia | lia |].
    intros i Hi Hin. unfold exact_slot, in_bounds in *.
    rewrite Hx1, Hy1, Hw1 in *. rewrite Hh1 in Hin.
    replace (_x this + 1 + Z.of_nat i) with (_x this + Z.of_nat (S i)) in * by lia.
    apply Hexact; [simpl; lia | exact Hin]. }
  destruct ((0 <=? _x this) && (_x this <? _width this) &&
            (0 <=? _y this) && (_y this <? _height this)) eqn:Einside.
  - apply in_bounds_test in Einside.
    destruct (Hexact 0%nat) as [Hmul Hadd];
      [simpl; lia | replace (_x this + Z.of_nat 0) with (_x this) by lia; exact Einside |].
    replace (_x this + Z.of_nat 0) with (_x this) in Hadd by lia.
    rewrite getPointerFromXY_safe by assumption.
    apply Hrest; reflexivity.
  - apply Hrest; reflexivity.
Qed.

Lemma write_safe (data : string) (this : Cursor) :
  - 2 ^ 53 <= _x this -> _x this + Z.of_nat (String.length data) <= 2 ^ 53 ->
  (forall i : nat, (i < String.length data)%nat ->
     in_bounds this (_x this + Z.of_nat i) (_y this) ->
     exact_slot this (_x this + Z.of_nat i) (_y this)) ->
  Double.write data this = write data this.
Proof.
  intros Hlo Hhi Hexact. unfold Double.write, write, mbind, M_bind, read.
  apply write_chars_safe; assumption.
Qed.

(** On a grid of at most 2^53 slots the index of every position of the
    grid is computed without rounding. *)
Lemma grid_exact (this : Cursor) (x y : Z) :
  _width this * _height this <= 2 ^ 53 -> in_bounds this x y -> exact_slot this x y.
Proof.
  intros Hsize [Hx Hy]. unfold exact_slot, safe.
  assert (Hrow : 0 <= y * _width this) by nia.
  assert (Hlast : y * _width this + x < _width this * _height this) by nia.
  lia.
Qed.

(** C2, amended: for a text of length [n] written from a column [x0] with
    [-2^53 <= x0] and [x0 + n <= 2^53], on a grid of at most 2^53 slots,
    [write] returns with the cursor at [(x0 + n, y0)]; every character
    whose column is on the grid is stored in a new cell, with the pen read
    at entry, at the slot [y0 * width + x0 + i]; the characters off the grid
    store nothing; every other slot is as before, so nothing wraps to
    another row; pen, size and last frame are untouched. *)
Theorem write_stores_row_safe (data : string) (this : Cursor) :
  - 2 ^ 53 <= _x this -> _x this + Z.of_nat (String.length data) <= 2 ^ 53 ->
  _width this * _height this <= 2 ^ 53 ->
  exists this' : Cursor,
    Double.write data this = Return tt this' /\
    _x this' = _x this + Z.of_nat (String.length data) /\
    _y this' = _y this /\
    (forall (i : nat) (ch : ascii),
       String.get i data = Some ch ->
       0 <= _x this + Z.of_nat i < _width this -> 0 <= _y this < _height this ->
       array_get (_terminal this') (_y this * _width this + (_x this + Z.of_nat i)) =
         Some {| cell_char := ch; cell_x := _x this + Z.of_nat i; cell_y := _y this;
                 cell_background := _background this;
                 cell_foreground := _foreground this;
                 cell_display := _display this |}) /\
    (forall p : Z,
       (forall i : nat,
          (i < String.length data)%nat ->
          0 <= _x this + Z.of_nat i < _width this -> 0 <= _y this < _height this ->
          p <> _y this * _width this + (_x this + Z.of_nat i)) ->
       array_get (_terminal this') p = array_get (_terminal this) p) /\
    _background this' = _background this /\ _foreground this' = _foreground this /\
    _display this' = _display this /\
    _width this' = _width this /\ _height this' = _height this /\
    _lastFrame this' = _lastFrame this.
Proof.
  intros Hlo Hhi Hsize.
  rewrite write_safe; [apply write_stores_row | exact Hlo | exact Hhi |].
  intros i _ Hin. apply grid_exact; assumption.
Qed.

Lemma write_stores_row_safe_witness :
  exists this' : Cursor,
    Double.write "ab" (empty_cursor 3 1) = Return tt this' /\
    _x this' = 2 /\ _y this' = 0 /\
    array_get (_terminal this') 1 =
      Some {| cell_char := "b"; cell_x := 1; cell_y := 0;
              cell_background := black; cell_foreground := black;
              cell_display := VObj [] |}.
Proof.
  destruct (write_stores_row_safe "ab" (empty_cursor 3 1))
    as (this' & Hrun & Hx & Hy & Hnew & _).
  - simpl. lia.
  - simpl. lia.
  - simpl. lia.
  - exists this'. split; [exact Hrun|]. split; [exact Hx|]. split; [exact Hy|].
    apply (Hnew 1%nat "b"%char); [reflexivity | simpl; lia | simpl; lia].
Defined.

(** C2, as stated, fails: from column 2^53 the increment of the column
    gives 2^53 again, and [write("ab")] leaves the cursor where it was,
    not two columns further; and on the grid of 3 columns and 2^52 rows
    the slot computed for the position (0, 3002399751580331) is 2^53, not
    [y * width + x]. *)
Lemma write_stuck_at_2_53 :
  (exists this' : Cursor,
     Double.write "ab" far_right = Return tt this' /\
     _x this' = _x far_right /\ _x this' <> _x far_right + 2) /\
  (0 <= 0 < _width tall_grid /\ 0 <= 3002399751580331 < _height tall_grid) /\
  Double.getPointerFromXY tall_grid (Some 0) (Some 3002399751580331) <>
    3002399751580331 * _width tall_grid + 0.
Proof.
  split.
  - eexists. split; [vm_compute; reflexivity|]. split; [reflexivity | discriminate].
  - vm_compute. repeat split; discriminate.
Qed.

(** *** erase *)

Lemma double_for_to_step (fuel : nat) (i hi : Z)
    (body : Z -> Cursor -> option (Outcome unit)) (this : Cursor) :
  Double.for_to (S fuel) i hi body this =
    if i <=? hi
    then match body i this with
         | Some (Return _ this') => Double.for_to fuel (Double.add i 1) hi body this'
         | Some (Raise e this') => Some (Raise e this')
         | None => None
         end
    else Some (Return tt this).
Proof. reflexivity. Qed.

(** A loop whose counter stays below 2^53 runs as the loop on integers,
    given fuel for its tests; [P] is what the body keeps of the cursor. *)
Lemma for_to_safe (P : Cursor -> Prop) (body : Z -> Cursor -> option (Outcome unit))
    (body' : Z -> M unit) (hi : Z) :
  forall (count : nat) (i : Z) (fuel : nat) (this : Cursor),
    Z.to_nat (hi - i + 1) = count -> (count < fuel)%nat -> counts i hi -> P this ->
    (forall j this0, i <= j <= hi -> P this0 ->
       body j this0 = Some (body' j this0) /\ P (final (body' j this0))) ->
    Double.for_to fuel i hi body this = Some (for_to i hi body' this) /\
    P (final (for_to i hi body' this)).
Proof.
  induction count as [|count IH]; intros i fuel this Hcount Hfuel Hrange HP Hbody.
  - destruct fuel as [|fuel]; [lia|]. rewrite double_for_to_step.
    destruct (Z.leb_spec i hi) as [Hle|Hgt]; [lia|].
    unfold for_to. rewrite Hcount. split; [reflexivity | exact HP].
  - destruct fuel as [|fuel]; [lia|]. rewrite double_for_to_step.
    destruct (Z.leb_spec i hi) as [Hle|Hgt]; [|lia].
    destruct (Hrange Hle) as [Hlo Hhi].
    destruct (Hbody i this ltac:(lia) HP) as [Hrun HP'].
    rewrite Hrun. unfold for_to. rewrite Hcount.
    cbn [for_count]. unfold mbind, M_bind.
    destruct (body' i this) as [[] this'|e this']; [|split; [reflexivity | exact HP']].
    rewrite add_safe by lia.
    destruct (IH (i + 1) fuel this') as [Hrest HPrest];
      [lia | lia | intros _; lia | exact HP' | intros j this0 Hj; apply Hbody; lia |].
    unfold for_to in Hrest, HPrest.
    replace (Z.to_nat (hi - (i + 1) + 1)) with count in Hrest, HPrest by lia.
    split; [exact Hrest | exact HPrest].
Qed.

Lemma erase_at_width (x y : Z) (this : Cursor) :
  _width (final (erase_at x y this)) = _width this.
Proof.
  unfold erase_at, mbind, M_bind, read.
  destruct (array_get (_terminal this) (getPointerFromXY this (Some x) (Some y)));
    reflexivity.
Qed.

Lemma erase_at_safe (x y : Z) (this : Cursor) :
  exact_slot this x y -> Double.erase_at x y this = erase_at x y this.
Proof.
  intros [Hmul Hadd]. unfold Double.erase_at, erase_at, mbind, M_bind, read.
  rewrite getPointerFromXY_safe by assumption. reflexivity.
Qed.

(** A rectangle whose counters stay below 2^53 and whose indices are
    computed without rounding: [erase] ends as on integers, whatever the
    fuel beyond the length of its sides. *)
Lemma erase_safe (x1 y1 x2 y2 : Z) (this : Cursor) (fuel : nat) :
  (y1 <= y2 -> counts x1 x2) -> counts y1 y2 ->
  (forall x y, x1 <= x <= x2 -> y1 <= y <= y2 -> exact_slot this x y) ->
  (Z.to_nat (x2 - x1 + 1) < fuel)%nat -> (Z.to_nat (y2 - y1 + 1) < fuel)%nat ->
  Double.erase fuel x1 y1 x2 y2 this = Some (erase x1 y1 x2 y2 this).
Proof.
  intros Hcx Hcy Hexact Hfx Hfy. unfold Double.erase, erase.
  apply (for_to_safe (fun this0 => _width this0 = _width this)
           (fun y => Double.for_to fuel x1 x2 (fun x this0 => Some (Double.erase_at x y this0)))
           (fun y => for_to x1 x2 (fun x => erase_at x y))
           y2 (Z.to_nat (y2 - y1 + 1)) y1 fuel this);
    [reflexivity | exact Hfy | exact Hcy | reflexivity |].
  intros y this0 Hy Hw0.
  apply (for_to_safe (fun this1 => _width this1 = _width this)
           (fun x this1 => Some (Double.erase_at x y this1))
           (fun x => erase_at x y)
           x2 (Z.to_nat (x2 - x1 + 1)) x1 fuel this0);
    [reflexivity | exact Hfx | apply Hcx; lia | exact Hw0 |].
  intros x this1 Hx Hw1. split.
  - f_equal. apply erase_at_safe.
    unfold exact_slot. rewrite Hw1. apply Hexact; assumption.
  - rewrite erase_at_width. exact Hw1.
Qed.

Lemma erase_ends (x1 y1 x2 y2 : Z) (this : Cursor) :
  (y1 <= y2 -> counts x1 x2) -> counts y1 y2 ->
  (forall x y, x1 <= x <= x2 -> y1 <= y <= y2 -> exact_slot this x y) ->
  ends (fun fuel => Double.erase fuel x1 y1 x2 y2 this) (erase x1 y1 x2 y2 this).
Proof.
  intros Hcx Hcy Hexact.
  exists (S (Nat.max (Z.to_nat (x2 - x1 + 1)) (Z.to_nat (y2 - y1 + 1)))).
  intros fuel Hfuel. apply erase_safe; [assumption | assumption | assumption | lia | lia].
Qed.

(** C10, amended: for a rectangle whose sides keep the loop counters
    below 2^53 in magnitude and whose indices are computed without rounding,
    when a position of the rectangle has no cell behind it [erase] throws a
    [TypeError] at the first such position in the order of the loops: that
    slot is still without a cell, the cell of every position visited before
    it has its character replaced by a space, and every index that belongs
    to no position visited before is as it was. *)
Theorem erase_throws_on_unwritten_safe (x1 y1 x2 y2 : Z) (this : Cursor) :
  counts x1 x2 -> counts y1 y2 ->
  (forall x y, x1 <= x <= x2 -> y1 <= y <= y2 -> exact_slot this x y) ->
  (exists x y, x1 <= x <= x2 /\ y1 <= y <= y2 /\
     array_get (_terminal this) (y * _width this + x) = None) ->
  exists (msg : string) (this' : Cursor) (xf yf : Z),
    ends (fun fuel => Double.erase fuel x1 y1 x2 y2 this) (Raise (TypeError msg) this') /\
    (x1 <= xf <= x2 /\ y1 <= yf <= y2) /\
    array_get (_terminal this) (yf * _width this + xf) = None /\
    array_get (_terminal this') (yf * _width this + xf) = None /\
    (forall x y, x1 <= x <= x2 -> y1 <= y <= y2 ->
       y < yf \/ (y = yf /\ x < xf) ->
       exists cell : Cell,
         array_get (_terminal this) (y * _width this + x) = Some cell /\
         array_get (_terminal this') (y * _width this + x) = Some (setChar cell " ")) /\
    (forall p : Z,
       (forall x y, x1 <= x <= x2 -> y1 <= y <= y2 ->
          y < yf \/ (y = yf /\ x < xf) -> p <> y * _width this + x) ->
       array_get (_terminal this') p = array_get (_terminal this) p) /\
    length (_terminal this') = length (_terminal this) /\
    _x this' = _x this /\ _y this' = _y this.
Proof.
  intros Hcx Hcy Hexact Hhole.
  destruct (erase_throws_on_unwritten x1 y1 x2 y2 this Hhole)
    as (msg & this' & xf & yf & Hrun & Hrest).
  exists msg, this', xf, yf.
  split; [|exact Hrest].
  rewrite <- Hrun. apply erase_ends; [intros _; exact Hcx | exact Hcy | exact Hexact].
Qed.

Lemma erase_throws_on_unwritten_safe_witness :
  exists (msg : string) (this' : Cursor),
    ends (fun fuel => Double.erase fuel 0 0 1 0 a_2x1) (Raise (TypeError msg) this') /\
    array_get (_terminal this') 0 =
      Some {| cell_char := " "; cell_x := 0; cell_y := 0;
              cell_background := black; cell_foreground := black;
              cell_display := VObj [] |} /\
    array_get (_terminal this') 1 = None.
Proof.
  destruct (erase_throws_on_unwritten_safe 0 0 1 0 a_2x1)
    as (msg & this' & xf & yf & Hrun & Hin & Hhole & Hhole' & Hearlier & _).
  - unfold counts. lia.
  - unfold counts. lia.
  - intros x y Hx Hy. unfold exact_slot, safe. change (_width a_2x1) with 2. lia.
  - exists 1, 0. split; [lia|]. split; [lia|]. reflexivity.
  - exists msg, this'. split; [exact Hrun|].
    change (_width a_2x1) with 2 in *.
    assert (Hyf : yf = 0) by lia. subst yf.
    assert (Hxf : xf = 1).
    { destruct (Z.eq_dec xf 0) as [->|Hne]; [discriminate Hhole | lia]. }
    subst xf. split; [|exact Hhole'].
    destruct (Hearlier 0 0) as (cell & Hcell & Hblank); [lia | lia | right; lia |].
    injection Hcell as <-. exact Hblank.
Defined.

(** The cursor of the written 3 x 1 grid as [erase] leaves it column after
    column. *)
Lemma erase_stuck_run (fuel : nat) :
  Double.for_to fuel 9007199254740992 9007199254740994
    (fun x this => Some (Double.erase_at x (-3002399751580330) this))
    (final (erase 0 0 2 0 abc_3x1)) = None.
Proof.
  induction fuel as [|fuel IH]; [reflexivity|].
  rewrite double_for_to_step.
  change (9007199254740992 <=? 9007199254740994) with true. cbv iota.
  replace (Double.erase_at 9007199254740992 (-3002399751580330)
             (final (erase 0 0 2 0 abc_3x1)))
    with (Return tt (final (erase 0 0 2 0 abc_3x1)))
    by (vm_compute; reflexivity).
  change (Double.add 9007199254740992 1) with 9007199254740992.
  exact IH.
Qed.

(** C10, as stated, fails: on the written 3 x 1 grid the rectangle from
    column 2^53 - 2 to column 2^53 + 2 of row -3002399751580330 has the
    slots 0 to 4 behind it, of which 3 and 4 hold no cell; [erase] blanks
    the slots 0, 1 and 2, and then its column counter, at 2^53, is stepped
    to 2^53 again: the call never throws, it never ends.  And the slot that
    [erase] computes for a position is not always [y * width + x]: on the
    grid of 3 columns and 2^52 rows the position (0, 3002399751580331) has
    the slot of (2, 3002399751580330). *)
Lemma erase_never_ends :
  (9007199254740990 <= 9007199254740994 <= 9007199254740994 /\
   array_get (_terminal abc_3x1)
     (Double.getPointerFromXY abc_3x1 (Some 9007199254740994) (Some (-3002399751580330))) =
     None) /\
  (forall fuel : nat,
     Double.erase fuel 9007199254740990 (-3002399751580330)
       9007199254740994 (-3002399751580330) abc_3x1 = None) /\
  Double.getPointerFromXY tall_grid (Some 0) (Some 3002399751580331) =
    Double.getPointerFromXY tall_grid (Some 2) (Some 3002399751580330).
Proof.
  split; [split; [lia | vm_compute; reflexivity]|].
  split; [|vm_compute; reflexivity].
  assert (Hrow : forall fuel : nat,
            Double.for_to fuel 9007199254740990 9007199254740994
              (fun x this => Some (Double.erase_at x (-3002399751580330) this))
              abc_3x1 = None).
  { intros [|[|[|fuel]]]; [reflexivity | vm_compute; reflexivity | vm_compute; reflexivity |].
    rewrite double_for_to_step.
    change (9007199254740990 <=? 9007199254740994) with true. cbv iota.
    replace (Double.erase_at 9007199254740990 (-3002399751580330) abc_3x1)
      with (Return tt (final (erase 0 0 0 0 abc_3x1))) by (vm_compute; reflexivity).
    change (Double.add 9007199254740990 1) with 9007199254740991.
    rewrite double_for_to_step.
    change (9007199254740991 <=? 9007199254740994) with true. cbv iota.
    replace (Double.erase_at 9007199254740991 (-3002399751580330)
               (final (erase 0 0 0 0 abc_3x1)))
      with (Return tt (final (erase 0 0 1 0 abc_3x1))) by (vm_compute; reflexivity).
    change (Double.add 9007199254740991 1) with 9007199254740992.
    rewrite double_for_to_step.
    change (9007199254740992 <=? 9007199254740994) with true. cbv iota.
    replace (Double.erase_at 9007199254740992 (-3002399751580330)
               (final (erase 0 0 1 0 abc_3x1)))
      with (Return tt (final (erase 0 0 2 0 abc_3x1))) by (vm_compute; reflexivity).
    change (Double.add 9007199254740992 1) with 9007199254740992.
    apply erase_stuck_run. }
  intros [|fuel]; [reflexivity|].
  unfold Double.erase. rewrite double_for_to_step.
  change (-3002399751580330 <=? -3002399751580330) with true. cbv iota.
  rewrite Hrow. reflexivity.
Qed.

End DoubleFacts.

(** ** More on the colour model *)

Module ColorMore.
Import JS Color Spec SpecMore ColorFacts.

(** *** The channels stay in range *)

Lemma clamped_stored (n : Num) : channel_stored (clamped n).
Proof.
  unfold clamped, channel_stored, ofZ.
  destruct n as [|[]|q]; simpl.
  - left. reflexivity.
  - right. exists (inject_Z 0). repeat split; unfold inject_Z; lra.
  - right. exists (inject_Z 255). repeat split; unfold inject_Z; lra.
  - destruct (Qle_bool q (inject_Z 255)) eqn:Ehi; simpl.
    + destruct (Qle_bool (inject_Z 0) q) eqn:Elo.
      * right. exists q. apply Qle_bool_iff in Ehi, Elo. auto.
      * right. exists (inject_Z 0). repeat split; unfold inject_Z; lra.
    + right. exists (inject_Z 255). repeat split; unfold inject_Z; lra.
Qed.

Lemma clamped_number (n : Num) : n <> NaN -> clamped n <> NaN.
Proof.
  unfold clamped, ofZ. destruct n as [|[]|q]; simpl; try congruence.
  intros _. destruct (Qle_bool q (inject_Z 255)); simpl; [|discriminate].
  destruct (Qle_bool (inject_Z 0) q); discriminate.
Qed.

Lemma Math_round_stored (n : Num) : channel_stored n -> channel_read (Math_round n).
Proof.
  intros [-> | (q & -> & Hlo & Hhi)]; [left; reflexivity|].
  right. exists (Qfloor (Qplus q (1 # 2))). split; [reflexivity|].
  split.
  - change 0 with (Qfloor (inject_Z 0)). apply Qfloor_resp_le. unfold inject_Z in *. lra.
  - change 255 with (Qfloor (Qplus (inject_Z 255) (1 # 2))).
    apply Qfloor_resp_le. unfold inject_Z in *. lra.
Qed.

Lemma Math_round_number (n : Num) :
  channel_stored n -> n <> NaN -> exists z, Math_round n = IInt z /\ 0 <= z <= 255.
Proof.
  intros Hs Hn. destruct (Math_round_stored n Hs) as [Hnan | Hz]; [|exact Hz].
  destruct n; try discriminate. congruence.
Qed.

(** Whatever goes through the three setters comes out clamped. *)
Lemma setters_stored (vr vg vb : Val) (c : Color) :
  (this ← setR {| _r := ofZ 0; _g := ofZ 0; _b := ofZ 0 |} vr;
   this ← setG this vg;
   setB this vb) = Ok c ->
  exists nr ng nb : Num,
    ToNumber vr = Ok nr /\ ToNumber vg = Ok ng /\ ToNumber vb = Ok nb /\
    c = {| _r := clamped nr; _g := clamped ng; _b := clamped nb |}.
Proof.
  unfold setR, setG, setB.
  destruct (ToNumber vr) as [nr|]; [|discriminate]. cbn [mbind Result_bind].
  destruct (ToNumber vg) as [ng|]; [|discriminate]. cbn [mbind Result_bind].
  destruct (ToNumber vb) as [nb|]; [|discriminate]. cbn [mbind Result_bind].
  intros [= <-]. exists nr, ng, nb. repeat split.
Qed.

(** A colour the constructor returns comes from the nested call or from
    the setters. *)
Lemma constructor_in_result (f : Val -> Result Color) (color : Val) (c : Color) :
  constructor_in f color = Ok c ->
  (exists v, f v = Ok c) \/
  (exists nr ng nb : Num, c = {| _r := clamped nr; _g := clamped ng; _b := clamped nb |}).
Proof.
  unfold constructor_in. destruct (isNamed color).
  { destruct color; try discriminate. unfold fromHex_in.
    destruct (assoc (toUpperCase s) COLORS); [|discriminate].
    destruct (HEX_REGEX s0) as [[[cr cg] cb]|]; [|discriminate]. eauto. }
  destruct (isRgb color) as [[]|]; cbn [mbind Result_bind]; [| |discriminate].
  { unfold fromRgb_in. destruct color; try discriminate.
    destruct (RGB_REGEX s) as [[[cr cg] cb]|]; [|discriminate]. eauto. }
  destruct (isHex color) as [[]|]; cbn [mbind Result_bind]; [| |discriminate].
  { unfold fromHex_in. destruct color; try discriminate.
    destruct (HEX_REGEX s) as [[[cr cg] cb]|]; [|discriminate]. eauto. }
  match goal with |- (?own ≫= _) = _ -> _ => destruct own as [[]|] end;
    cbn [mbind Result_bind negb]; try discriminate.
  destruct (member color "r") as [vr|]; [|discriminate]. cbn [mbind Result_bind].
  destruct (member color "g") as [vg|] eqn:Eg.
  2:{ destruct (setR _ vr); discriminate. }
  destruct (member color "b") as [vb|] eqn:Eb.
  2:{ destruct (setR _ vr) as [t1|]; [|discriminate]. cbn [mbind Result_bind].
      destruct (setG t1 vg); discriminate. }
  intros H. right.
  destruct (setters_stored vr vg vb c H) as (nr & ng & nb & _ & _ & _ & ->). eauto.
Qed.

Lemma create_result (color : Val) (c : Color) :
  create color = Ok c ->
  exists nr ng nb : Num, c = {| _r := clamped nr; _g := clamped ng; _b := clamped nb |}.
Proof.
  unfold create. intros H.
  change (construct 2 color) with (constructor_in (construct 1) color) in H.
  apply constructor_in_result in H as [[v Hv] | H]; [|exact H].
  change (construct 1 v) with (constructor_in (construct 0) v) in Hv.
  apply constructor_in_result in Hv as [[w Hw] | H]; [discriminate | exact H].
Qed.

Lemma create_channels_stored (color : Val) (c : Color) :
  create color = Ok c ->
  channel_stored (_r c) /\ channel_stored (_g c) /\ channel_stored (_b c).
Proof.
  intros H. apply create_result in H as (nr & ng & nb & ->).
  repeat split; apply clamped_stored.
Qed.

(** X1: a colour that [Color.create] returns, whatever the input, has each
    channel stored as NaN or as a value from 0 to 255, and [toRgb()] gives
    each channel as NaN or as an integer from 0 to 255. *)
Theorem create_channels_in_range (color : Val) (c : Color) :
  create color = Ok c ->
  (channel_stored (_r c) /\ channel_stored (_g c) /\ channel_stored (_b c)) /\
  (channel_read (r (toRgb c)) /\ channel_read (g (toRgb c)) /\ channel_read (b (toRgb c))).
Proof.
  intros H. apply create_result in H as (nr & ng & nb & ->).
  unfold toRgb, getR, getG, getB. cbn [_r _g _b r g b].
  repeat split; try apply Math_round_stored; apply clamped_stored.
Qed.

Lemma create_channels_in_range_witness :
  (channel_stored (Fin (7 # 2)) /\ channel_stored (ofZ 255) /\ channel_stored NaN) /\
  (channel_read (IInt 4) /\ channel_read (IInt 255) /\ channel_read INaN).
Proof.
  exact (create_channels_in_range
           (VObj [("r", VNum (Fin (7 # 2))); ("g", VNum (ofZ 300))])
           {| _r := Fin (7 # 2); _g := ofZ 255; _b := NaN |} eq_refl).
Defined.

(** *** Hexadecimal texts *)

Lemma hex_char_ok_all (c : ascii) : hex_char_ok c = true.
Proof. destruct c as [[] [] [] [] [] [] [] []]; vm_compute; reflexivity. Qed.

Lemma hex_char (c : ascii) (v : Z) :
  hex_value c = Some v ->
  0 <= v < 16 /\ is_hex_digit c = true /\
  char_ci "r" c = false /\ char_ci "#" c = false /\
  upper_char (hex_digit v) = upper_char c.
Proof.
  intros Hv. pose proof (hex_char_ok_all c) as Hok. unfold hex_char_ok in Hok.
  rewrite Hv in Hok.
  repeat (apply andb_prop in Hok; destruct Hok as [Hok ?]).
  repeat match goal with H : negb _ = true |- _ => apply negb_true_iff in H end.
  match goal with H : Ascii.eqb _ _ = true |- _ => apply Ascii.eqb_eq in H end.
  apply Z.leb_le in Hok.
  match goal with H : (v <? 16) = true |- _ => apply Z.ltb_lt in H end.
  repeat split; assumption.
Qed.

Lemma is_hex_digit_value (c : ascii) : is_hex_digit c = true -> exists v, hex_value c = Some v.
Proof.
  unfold is_hex_digit. intros H. apply bool_decide_eq_true in H. exact H.
Qed.

Lemma pair_ok_all : forallb pair_ok (map Z.of_nat (seq 0 256)) = true.
Proof. vm_compute. reflexivity. Qed.

(** [toHex] writes a channel as the digits of its two halves. *)
Lemma pair_text (v1 v2 : Z) :
  0 <= v1 < 16 -> 0 <= v2 < 16 ->
  pad2 (toString16 (IInt (16 * v1 + v2))) =
    String (hex_digit v1) (String (hex_digit v2) EmptyString).
Proof.
  intros H1 H2.
  assert (Hok : pair_ok (16 * v1 + v2) = true).
  { pose proof pair_ok_all as Hall. rewrite forallb_forall in Hall.
    apply Hall, in_map_iff. exists (Z.to_nat (16 * v1 + v2)). split; [lia|].
    apply in_seq. lia. }
  unfold pair_ok in Hok.
  replace ((16 * v1 + v2) / 16) with v1 in Hok
    by (apply (Z.div_unique_pos _ _ v1 v2); lia).
  replace ((16 * v1 + v2) mod 16) with v2 in Hok
    by (apply (Z.mod_unique_pos _ _ v1 v2); lia).
  destruct (pad2 (toString16 (IInt (16 * v1 + v2)))) as [|d1 [|d2 [|]]]; try discriminate.
  apply andb_prop in Hok as [Hd1 Hd2].
  apply Ascii.eqb_eq in Hd1, Hd2. congruence.
Qed.

Lemma parseInt16_pair (c1 c2 : ascii) (v1 v2 : Z) :
  hex_value c1 = Some v1 -> hex_value c2 = Some v2 ->
  parseInt16 (String c1 (String c2 EmptyString)) = ofZ (16 * v1 + v2).
Proof.
  intros H1 H2. unfold parseInt16, parse_hex_prefix. rewrite H1, H2.
  cbn [default]. reflexivity.
Qed.

Lemma hex_digits_decode (c1 c2 c3 c4 c5 c6 : ascii) (v1 v2 v3 v4 v5 v6 : Z) :
  hex_value c1 = Some v1 -> hex_value c2 = Some v2 -> hex_value c3 = Some v3 ->
  hex_value c4 = Some v4 -> hex_value c5 = Some v5 -> hex_value c6 = Some v6 ->
  let hex := String "#" (String c1 (String c2 (String c3 (String c4
               (String c5 (String c6 EmptyString)))))) in
  let c := {| _r := ofZ (16 * v1 + v2); _g := ofZ (16 * v3 + v4);
              _b := ofZ (16 * v5 + v6) |} in
  create (VStr hex) = Ok c /\ fromHex (VStr hex) = Ok c /\
  toRgb c = {| r := IInt (16 * v1 + v2); g := IInt (16 * v3 + v4);
               b := IInt (16 * v5 + v6) |} /\
  toHex c = String "#" (String (hex_digit v1) (String (hex_digit v2)
              (String (hex_digit v3) (String (hex_digit v4)
                 (String (hex_digit v5) (String (hex_digit v6) EmptyString)))))) /\
  toUpperCase (toHex c) = toUpperCase hex.
Proof.
  intros E1 E2 E3 E4 E5 E6 hex c.
  destruct (hex_char _ _ E1) as (R1 & H1 & N1 & _ & U1).
  destruct (hex_char _ _ E2) as (R2 & H2 & N2 & _ & U2).
  destruct (hex_char _ _ E3) as (R3 & H3 & N3 & _ & U3).
  destruct (hex_char _ _ E4) as (R4 & H4 & N4 & _ & U4).
  destruct (hex_char _ _ E5) as (R5 & H5 & N5 & _ & U5).
  destruct (hex_char _ _ E6) as (R6 & H6 & N6 & _ & U6).
  destruct (create_hex_digits c1 c2 c3 c4 c5 c6 H1 H2 H3 H4 H5 H6 N1 N2 N3 N4 N5 N6)
    as [Hcreate Hfrom].
  fold hex in Hcreate, Hfrom.
  assert (Hc : fromHex (VStr hex) = Ok c).
  { rewrite Hfrom, (parseInt16_pair _ _ _ _ E1 E2), (parseInt16_pair _ _ _ _ E3 E4),
      (parseInt16_pair _ _ _ _ E5 E6).
    rewrite create_object_rgb, setR_number. cbn [mbind Result_bind].
    rewrite setG_number. cbn [mbind Result_bind]. rewrite setB_number.
    rewrite !clamped_ofZ by lia. reflexivity. }
  assert (Hhex : toHex c = String "#" (String (hex_digit v1) (String (hex_digit v2)
              (String (hex_digit v3) (String (hex_digit v4)
                 (String (hex_digit v5) (String (hex_digit v6) EmptyString))))))).
  { unfold toHex, getR, getG, getB, c; cbn [_r _g _b].
    rewrite !Math_round_ofZ, !pair_text by lia. reflexivity. }
  split; [rewrite Hcreate; exact Hc|]. split; [exact Hc|].
  split.
  { unfold toRgb, getR, getG, getB, c; cbn [_r _g _b]. rewrite !Math_round_ofZ. reflexivity. }
  split; [exact Hhex|].
  rewrite Hhex. unfold hex. cbn [toUpperCase].
  rewrite U1, U2, U3, U4, U5, U6. reflexivity.
Qed.

(** X2: the text [#] and six hexadecimal digits, in either case, is decoded
    to the three channels the pairs of digits denote, by [Color.create] and
    by [Color.fromHex] alike, and [toHex()] of the result is the same text in
    lower case. *)
Theorem hex_text_decodes (c1 c2 c3 c4 c5 c6 : ascii) (v1 v2 v3 v4 v5 v6 : Z) :
  hex_value c1 = Some v1 -> hex_value c2 = Some v2 -> hex_value c3 = Some v3 ->
  hex_value c4 = Some v4 -> hex_value c5 = Some v5 -> hex_value c6 = Some v6 ->
  let hex := String "#" (String c1 (String c2 (String c3 (String c4
               (String c5 (String c6 EmptyString)))))) in
  let c := {| _r := ofZ (16 * v1 + v2); _g := ofZ (16 * v3 + v4);
              _b := ofZ (16 * v5 + v6) |} in
  create (VStr hex) = Ok c /\ fromHex (VStr hex) = Ok c /\
  toRgb c = {| r := IInt (16 * v1 + v2); g := IInt (16 * v3 + v4);
               b := IInt (16 * v5 + v6) |} /\
  toHex c = String "#" (String (hex_digit v1) (String (hex_digit v2)
              (String (hex_digit v3) (String (hex_digit v4)
                 (String (hex_digit v5) (String (hex_digit v6) EmptyString)))))) /\
  toUpperCase (toHex c) = toUpperCase hex.
Proof.
  intros E1 E2 E3 E4 E5 E6.
  exact (hex_digits_decode c1 c2 c3 c4 c5 c6 v1 v2 v3 v4 v5 v6 E1 E2 E3 E4 E5 E6).
Qed.

Lemma hex_text_decodes_witness :
  let c := {| _r := ofZ 170; _g := ofZ 11; _b := ofZ 204 |} in
  create (VStr "#aA0bCc") = Ok c /\ fromHex (VStr "#aA0bCc") = Ok c /\
  toRgb c = {| r := IInt 170; g := IInt 11; b := IInt 204 |} /\
  toHex c = "#aa0bcc" /\
  toUpperCase (toHex c) = "#AA0BCC".
Proof.
  exact (hex_text_decodes "a" "A" "0" "b" "C" "c" 10 10 0 11 12 12
           eq_refl eq_refl eq_refl eq_refl eq_refl eq_refl).
Defined.

(** A colour with three channels that are numbers is written by [toHex]
    as a text that both parsers read back. *)
Lemma toHex_parses (c : Color) (zr zg zb : Z) :
  getR c = IInt zr -> getG c = IInt zg -> getB c = IInt zb ->
  0 <= zr <= 255 -> 0 <= zg <= 255 -> 0 <= zb <= 255 ->
  create (VStr (toHex c)) = Ok {| _r := ofZ zr; _g := ofZ zg; _b := ofZ zb |} /\
  fromHex (VStr (toHex c)) = Ok {| _r := ofZ zr; _g := ofZ zg; _b := ofZ zb |} /\
  String.length (toHex c) = 7%nat.
Proof.
  intros Er Eg Eb Hr Hg Hb.
  destruct (channel_digits zr Hr) as (a1 & a2 & Ea & Ha1 & Ha2 & Ra1 & Ra2 & Pa).
  destruct (channel_digits zg Hg) as (b1 & b2 & Eb' & Hb1 & Hb2 & Rb1 & Rb2 & Pb).
  destruct (channel_digits zb Hb) as (c1 & c2 & Ec & Hc1 & Hc2 & Rc1 & Rc2 & Pc).
  assert (Hhex : toHex c = String "#" (String a1 (String a2 (String b1 (String b2
                   (String c1 (String c2 EmptyString))))))).
  { unfold toHex. rewrite Er, Eg, Eb, Ea, Eb', Ec. reflexivity. }
  destruct (create_hex_digits a1 a2 b1 b2 c1 c2 Ha1 Ha2 Hb1 Hb2 Hc1 Hc2
              Ra1 Ra2 Rb1 Rb2 Rc1 Rc2) as [Hcreate Hfrom].
  rewrite Hhex, Hcreate, Hfrom, Pa, Pb, Pc.
  rewrite create_object_rgb, setR_number. cbn [mbind Result_bind].
  rewrite setG_number. cbn [mbind Result_bind]. rewrite setB_number.
  rewrite !clamped_ofZ by assumption. repeat split.
Qed.

(** X3: a colour returned by [Color.create] whose channels are numbers (no
    NaN), also fractional ones and ones clamped from outside the range, has
    a [toHex()] of seven characters that [Color.create] and [Color.fromHex]
    accept, with the [toRgb()] of the colour one started from. *)
Theorem toHex_reparses (color : Val) (c : Color) :
  create color = Ok c ->
  _r c <> NaN -> _g c <> NaN -> _b c <> NaN ->
  exists c' : Color,
    create (VStr (toHex c)) = Ok c' /\ fromHex (VStr (toHex c)) = Ok c' /\
    toRgb c' = toRgb c /\ String.length (toHex c) = 7%nat.
Proof.
  intros Hc Nr Ng Nb.
  destruct (create_channels_stored color c Hc) as (Sr & Sg & Sb).
  destruct (Math_round_number _ Sr Nr) as (zr & Er & Hr).
  destruct (Math_round_number _ Sg Ng) as (zg & Eg & Hg).
  destruct (Math_round_number _ Sb Nb) as (zb & Eb & Hb).
  destruct (toHex_parses c zr zg zb Er Eg Eb Hr Hg Hb) as (Hcreate & Hfrom & Hlen).
  eexists. split; [exact Hcreate|]. split; [exact Hfrom|]. split; [|exact Hlen].
  unfold toRgb, getR, getG, getB in *. cbn [_r _g _b].
  rewrite !Math_round_ofZ, Er, Eg, Eb. reflexivity.
Qed.

Lemma toHex_reparses_witness :
  let c := {| _r := ofZ 0; _g := Fin (25 # 2); _b := ofZ 255 |} in
  exists c' : Color,
    create (VStr (toHex c)) = Ok c' /\ fromHex (VStr (toHex c)) = Ok c' /\
    toRgb c' = toRgb c /\ String.length (toHex c) = 7%nat.
Proof.
  apply (toHex_reparses
           (VObj [("r", VNum (ofZ (-4))); ("g", VNum (Fin (25 # 2))); ("b", VNum (Inf false))]));
    [reflexivity | discriminate | discriminate | discriminate].
Defined.

(** *** Names *)

Lemma upper_char_idem (c : ascii) : upper_char (upper_char c) = upper_char c.
Proof. destruct c as [[] [] [] [] [] [] [] []]; vm_compute; reflexivity. Qed.

Lemma toUpperCase_idem (s : string) : toUpperCase (toUpperCase s) = toUpperCase s.
Proof.
  induction s as [|c s IH]; [reflexivity|].
  cbn [toUpperCase]. rewrite upper_char_idem, IH. reflexivity.
Qed.

Lemma COLORS_hex_form : forallb (fun entry => hex_form (snd entry)) COLORS = true.
Proof. vm_compute. reflexivity. Qed.

Lemma COLORS_upper : forallb (fun entry => String.eqb (toUpperCase (snd entry)) (snd entry)) COLORS = true.
Proof. vm_compute. reflexivity. Qed.

Lemma dictionary_entry (key hex : string) :
  assoc key COLORS = Some hex -> hex_form hex = true /\ toUpperCase hex = hex.
Proof.
  intros Hkey. apply assoc_In in Hkey as [k Hin].
  pose proof COLORS_hex_form as Hform. rewrite forallb_forall in Hform.
  pose proof COLORS_upper as Hup. rewrite forallb_forall in Hup.
  specialize (Hform _ Hin). specialize (Hup _ Hin). cbn [snd] in *.
  apply String.eqb_eq in Hup. auto.
Qed.

(** A text of the form [#] and six hexadecimal digits is parsed the same
    way by [create] and by [fromHex], and its [toHex()] is the text up to
    case. *)
Lemma hex_form_decodes (hex : string) :
  hex_form hex = true ->
  exists c : Color,
    create (VStr hex) = Ok c /\ fromHex (VStr hex) = Ok c /\
    toUpperCase (toHex c) = toUpperCase hex /\
    _r c <> NaN /\ _g c <> NaN /\ _b c <> NaN.
Proof.
  unfold hex_form.
  destruct hex as [|h [|c1 [|c2 [|c3 [|c4 [|c5 [|c6 [|]]]]]]]]; try discriminate.
  intros H.
  repeat (apply andb_prop in H; destruct H as [H ?]).
  apply Ascii.eqb_eq in H. subst h.
  repeat match goal with
         | Hd : is_hex_digit _ = true |- _ => apply is_hex_digit_value in Hd; destruct Hd as [? Hd]
         end.
  match goal with
  | E1 : hex_value c1 = Some ?v1, E2 : hex_value c2 = Some ?v2, E3 : hex_value c3 = Some ?v3,
    E4 : hex_value c4 = Some ?v4, E5 : hex_value c5 = Some ?v5, E6 : hex_value c6 = Some ?v6 |- _ =>
      destruct (hex_digits_decode c1 c2 c3 c4 c5 c6 v1 v2 v3 v4 v5 v6 E1 E2 E3 E4 E5 E6)
        as (Hcreate & Hfrom & _ & _ & Hup)
  end.
  eexists. split; [exact Hcreate|]. split; [exact Hfrom|]. split; [exact Hup|].
  repeat split; discriminate.
Qed.

(** X4: a text that is, in any letter case, a key of the dictionary gives
    the colour of the hex text the dictionary holds for it: [Color.create]
    returns the same on the name, on the name in upper case and on that hex
    text, and [toHex()] of the colour, in upper case, is the entry. *)
Theorem named_color (s hex : string) :
  assoc (toUpperCase s) COLORS = Some hex ->
  exists c : Color,
    create (VStr s) = Ok c /\
    create (VStr (toUpperCase s)) = Ok c /\
    create (VStr hex) = Ok c /\
    toUpperCase (toHex c) = hex.
Proof.
  intros Hname.
  destruct (dictionary_entry _ _ Hname) as [Hform Hup].
  destruct (hex_form_decodes hex Hform) as (c & Hcreate & Hfrom & Hhex & _).
  assert (Hs : forall t, toUpperCase t = toUpperCase s -> create (VStr t) = Ok c).
  { intros t Ht. unfold create.
    change (construct 2 (VStr t)) with (constructor_in (construct 1) (VStr t)).
    rewrite constructor_in_unfold_string, Ht, Hname. exact Hfrom. }
  exists c. split; [apply Hs; reflexivity|].
  split; [apply Hs, toUpperCase_idem|]. split; [exact Hcreate|].
  rewrite Hhex. exact Hup.
Qed.

Lemma named_color_witness :
  exists c : Color,
    create (VStr "Alice_Blue") = Ok c /\
    create (VStr "ALICE_BLUE") = Ok c /\
    create (VStr "#F0F8FF") = Ok c /\
    toUpperCase (toHex c) = "#F0F8FF".
Proof. exact (named_color "Alice_Blue" "#F0F8FF" eq_refl). Defined.

(** *** rgb texts *)

Lemma digit_value_nonneg (c : ascii) : is_digit c = true -> 0 <= digit_value c <= 9.
Proof.
  unfold is_digit, digit_value. intros H. apply andb_prop in H as [Hlo Hhi].
  apply Nat.leb_le in Hlo, Hhi. lia.
Qed.

Lemma decimal_value_nonneg (d : string) :
  forall acc, all_chars is_digit d = true -> 0 <= acc -> 0 <= decimal_value acc d.
Proof.
  induction d as [|c d IH]; intros acc Hd Hacc; [exact Hacc|].
  simpl in Hd. apply andb_prop in Hd as [Hc Hd].
  cbn [decimal_value]. apply IH; [exact Hd|].
  pose proof (digit_value_nonneg c Hc). lia.
Qed.

Lemma clamped_ofZ_min (z : Z) : 0 <= z -> clamped (ofZ z) = ofZ (Z.min z 255).
Proof.
  intros Hz. destruct (Z.le_gt_cases z 255) as [Hle|Hgt].
  - rewrite Z.min_l by exact Hle. apply clamped_ofZ. lia.
  - rewrite Z.min_r by lia. apply clamped_above.
    unfold ltb. change (negb (leb (ofZ z) (ofZ 255)) = true).
    rewrite leb_ofZ. apply negb_true_iff, Z.leb_gt. exact Hgt.
Qed.

Lemma COLORS_no_rgb (t : string) :
  assoc (String "R" (String "G" (String "B" (String "(" t)))) COLORS = None.
Proof. reflexivity. Qed.

Lemma rgb_text_captures (s dr dg db : string) :
  one_to_three_digits dr -> one_to_three_digits dg -> one_to_three_digits db ->
  toUpperCase s =
    String.append "RGB("
      (String.append dr (String.append ", "
         (String.append dg (String.append ", " (String.append db ")"))))) ->
  RGB_REGEX s = Some (dr, dg, db).
Proof.
  intros Hr Hg Hb Hs.
  apply search_at_start. unfold RGB_REGEX_at.
  destruct (literal_upper "rgb(" s _ Hs) as (s1 & -> & Hs1).
  destruct (digits_1_3_upper (A := Captures) dr s1 _ ","%char
              (fun r s2 =>
                 match literal ", " s2 with
                 | None => None
                 | Some s3 =>
                     digits_1_3 s3 (fun g s4 =>
                       match literal ", " s4 with
                       | None => None
                       | Some s5 =>
                           digits_1_3 s5 (fun b s6 =>
                             match literal ")" s6 with
                             | None => None
                             | Some _ => Some (r, g, b)
                             end)
                       end)
                 end) Hr eq_refl Hs1) as (s2 & Hs2 & Hk1).
  apply Hk1. clear Hk1.
  destruct (literal_upper ", " s2 _ Hs2) as (s3 & -> & Hs3).
  destruct (digits_1_3_upper (A := Captures) dg s3 _ ","%char
              (fun g s4 =>
                 match literal ", " s4 with
                 | None => None
                 | Some s5 =>
                     digits_1_3 s5 (fun b s6 =>
                       match literal ")" s6 with
                       | None => None
                       | Some _ => Some (dr, g, b)
                       end)
                 end) Hg eq_refl Hs3) as (s4 & Hs4 & Hk2).
  apply Hk2. clear Hk2.
  destruct (literal_upper ", " s4 _ Hs4) as (s5 & -> & Hs5).
  destruct (digits_1_3_upper (A := Captures) db s5 _ ")"%char
              (fun b s6 =>
                 match literal ")" s6 with
                 | None => None
                 | Some _ => Some (dr, dg, b)
                 end) Hb eq_refl Hs5) as (s6 & Hs6 & Hk3).
  apply Hk3. clear Hk3.
  destruct (literal_upper ")" s6 "" Hs6) as (s7 & -> & _). reflexivity.
Qed.

(** X5: the text [rgb(r, g, b)], with [rgb] in any letter case and one to
    three decimal digits per channel, is decoded by [Color.create] and by
    [Color.fromRgb] to the decimal values of the channels, a value above 255
    being stored as 255. *)
Theorem rgb_text_decodes (s dr dg db : string) :
  one_to_three_digits dr -> one_to_three_digits dg -> one_to_three_digits db ->
  toUpperCase s =
    String.append "RGB("
      (String.append dr (String.append ", "
         (String.append dg (String.append ", " (String.append db ")"))))) ->
  let c := {| _r := ofZ (Z.min (decimal_value 0 dr) 255);
              _g := ofZ (Z.min (decimal_value 0 dg) 255);
              _b := ofZ (Z.min (decimal_value 0 db) 255) |} in
  create (VStr s) = Ok c /\ fromRgb (VStr s) = Ok c.
Proof.
  intros Hr Hg Hb Hs c.
  pose proof (rgb_text_captures s dr dg db Hr Hg Hb Hs) as Hcap.
  assert (Hfrom : fromRgb (VStr s) = Ok c).
  { unfold fromRgb, fromRgb_in. rewrite Hcap.
    rewrite create_object_rgb. unfold setR, setG, setB.
    rewrite !ToNumber_string. unfold StringToNumber.
    destruct Hr as [Dr _], Hg as [Dg _], Hb as [Db _]. rewrite Dr, Dg, Db.
    cbn [mbind Result_bind _r _g _b].
    fold (clamped (ofZ (decimal_value 0 dr))).
    fold (clamped (ofZ (decimal_value 0 dg))).
    fold (clamped (ofZ (decimal_value 0 db))).
    rewrite !clamped_ofZ_min by (apply decimal_value_nonneg; [assumption | lia]).
    reflexivity. }
  split; [|exact Hfrom].
  unfold create. change (construct 2 (VStr s)) with (constructor_in (construct 1) (VStr s)).
  rewrite constructor_in_unfold_string, Hs.
  change (String.append "RGB(" ?t) with (String "R" (String "G" (String "B" (String "(" t)))).
  cbn [String.append]. rewrite COLORS_no_rgb, Hcap. exact Hfrom.
Qed.

Lemma rgb_text_decodes_witness :
  let c := {| _r := ofZ 255; _g := ofZ 2; _b := ofZ 3 |} in
  create (VStr "Rgb(300, 2, 03)") = Ok c /\ fromRgb (VStr "Rgb(300, 2, 03)") = Ok c.
Proof.
  apply (rgb_text_decodes "Rgb(300, 2, 03)" "300" "2" "03");
    [split; [reflexivity | simpl; lia] .. | reflexivity].
Defined.

(** *** A NaN channel in [toHex] *)

Lemma all_chars_app (p : ascii -> bool) (a b : string) :
  all_chars p (String.append a b) = all_chars p a && all_chars p b.
Proof.
  induction a as [|c a IH]; [reflexivity|].
  change (String.append (String c a) b) with (String c (String.append a b)).
  cbn [all_chars]. rewrite IH. apply andb_assoc.
Qed.

(** [HEX_REGEX] matches nowhere in a text without [#]. *)
Lemma HEX_REGEX_needs_hash (t : string) :
  all_chars (fun c => negb (char_ci "#" c)) t = true -> search HEX_REGEX_at t = None.
Proof.
  induction t as [|c t IH]; intros Ht; [reflexivity|].
  simpl in Ht. apply andb_prop in Ht as [Hc Ht]. apply negb_true_iff in Hc.
  unfold search; fold search. unfold HEX_REGEX_at at 1.
  unfold literal; fold literal. rewrite Hc. apply IH, Ht.
Qed.

(** The text of one channel in [toHex]: [NaN], or two hexadecimal digits. *)
Lemma channel_text (n : Num) :
  channel_stored n ->
  let t := pad2 (toString16 (Math_round n)) in
  all_chars (fun c => negb (char_ci "#" c)) t = true /\
  all_chars (fun c => negb (char_ci "r" c)) t = true /\
  ((n = NaN /\ t = "NaN") \/
   (n <> NaN /\ exists d1 d2 : ascii,
      t = String d1 (String d2 EmptyString) /\
      is_hex_digit d1 = true /\ is_hex_digit d2 = true)).
Proof.
  intros Hs t. destruct n as [|sign|q] eqn:En.
  - repeat split; try reflexivity. left. split; reflexivity.
  - destruct Hs as [Hs | (q & Hq & _)]; discriminate.
  - rewrite <- En in Hs.
    assert (Hn : n <> NaN) by (rewrite En; discriminate).
    destruct (Math_round_number n Hs Hn) as (z & Ez & Hz).
    rewrite En in Ez. unfold t. rewrite Ez.
    destruct (channel_digits z Hz) as (d1 & d2 & Ed & H1 & H2 & R1 & R2 & _).
    rewrite Ed.
    destruct (is_hex_digit_value _ H1) as [v1 E1], (is_hex_digit_value _ H2) as [v2 E2].
    destruct (hex_char _ _ E1) as (_ & _ & _ & N1 & _).
    destruct (hex_char _ _ E2) as (_ & _ & _ & N2 & _).
    cbn [all_chars]. rewrite N1, N2, R1, R2.
    repeat split; try reflexivity.
    right. split; [discriminate|]. exists d1, d2. auto.
Qed.

(** X6: when a colour returned by [Color.create] has a NaN channel, its
    [toHex()] is a text that [Color.create] rejects with the parse error. *)
Theorem toHex_of_NaN_is_rejected (color : Val) (c : Color) :
  create color = Ok c ->
  _r c = NaN \/ _g c = NaN \/ _b c = NaN ->
  create (VStr (toHex c)) = Throw (Error_cant_be_parsed (VStr (toHex c))).
Proof.
  intros Hc Hnan.
  destruct (create_channels_stored color c Hc) as (Sr & Sg & Sb).
  destruct (channel_text _ Sr) as (Hr & Rr & Ar).
  destruct (channel_text _ Sg) as (Hg & Rg & Ag).
  destruct (channel_text _ Sb) as (Hb & Rb & Ab).
  set (tr := pad2 (toString16 (Math_round (_r c)))) in *.
  set (tg := pad2 (toString16 (Math_round (_g c)))) in *.
  set (tb := pad2 (toString16 (Math_round (_b c)))) in *.
  assert (Hhex : toHex c = String "#" (String.append tr (String.append tg tb))) by reflexivity.
  set (body := String.append tr (String.append tg tb)) in *.
  assert (Hbody : all_chars (fun c => negb (char_ci "#" c)) body = true).
  { unfold body. rewrite !all_chars_app, Hr, Hg, Hb. reflexivity. }
  assert (Rbody : all_chars (fun c => negb (char_ci "r" c)) body = true).
  { unfold body. rewrite !all_chars_app, Rr, Rg, Rb. reflexivity. }
  assert (Hat : HEX_REGEX_at (String "#" body) = None).
  { unfold body.
    destruct Ar as [[_ ->] | [Nr (a1 & a2 & -> & Ha1 & Ha2)]]; [reflexivity|].
    destruct Ag as [[_ ->] | [Ng (b1 & b2 & -> & Hb1 & Hb2)]].
    { unfold HEX_REGEX_at, hex_pair; simpl. rewrite Ha1, Ha2. reflexivity. }
    destruct Ab as [[_ ->] | [Nb _]].
    { unfold HEX_REGEX_at, hex_pair; simpl. rewrite Ha1, Ha2; simpl.
      rewrite Hb1, Hb2. reflexivity. }
    exfalso. destruct Hnan as [? | [? | ?]]; contradiction. }
  assert (Hnone : HEX_REGEX (String "#" body) = None).
  { unfold HEX_REGEX, search; fold search. rewrite Hat. apply HEX_REGEX_needs_hash, Hbody. }
  rewrite Hhex. unfold create.
  change (construct 2 (VStr (String "#" body)))
    with (constructor_in (construct 1) (VStr (String "#" body))).
  rewrite constructor_in_unfold_string, Hnone.
  cbn [toUpperCase]. change (upper_char "#") with "#"%char.
  rewrite COLORS_no_hash, RGB_REGEX_needs_r; [reflexivity|].
  cbn [all_chars]. rewrite Rbody. reflexivity.
Qed.

Lemma toHex_of_NaN_is_rejected_witness :
  create (VStr (toHex {| _r := ofZ 1; _g := NaN; _b := NaN |})) =
    Throw (Error_cant_be_parsed (VStr (toHex {| _r := ofZ 1; _g := NaN; _b := NaN |}))).
Proof.
  apply (toHex_of_NaN_is_rejected (VObj [("r", VNum (ofZ 1))]));
    [reflexivity | right; left; reflexivity].
Defined.

(** *** Names against the two patterns *)

Lemma assoc_key_In {A : Type} (key : string) (l : list (string * A)) (v : A) :
  assoc key l = Some v -> In (key, v) l.
Proof.
  induction l as [|[k w] l IH]; simpl; [discriminate|].
  destruct (String.eqb_spec k key) as [->|_].
  - intros [= ->]. left. reflexivity.
  - intros H. right. apply IH, H.
Qed.

Lemma COLORS_keys_plain :
  forallb (fun entry =>
             all_chars (fun c => negb (char_ci "(" c) && negb (char_ci "#" c)) (fst entry))
    COLORS = true.
Proof. vm_compute. reflexivity. Qed.

Lemma all_chars_upper (x : ascii) (s : string) :
  all_chars (fun c => negb (char_ci x c)) (toUpperCase s) =
  all_chars (fun c => negb (char_ci x c)) s.
Proof.
  induction s as [|c s IH]; [reflexivity|].
  cbn [toUpperCase all_chars]. rewrite IH. unfold char_ci.
  rewrite upper_char_idem. reflexivity.
Qed.

Lemma all_chars_both (p q : ascii -> bool) (s : string) :
  all_chars (fun c => p c && q c) s = all_chars p s && all_chars q s.
Proof.
  induction s as [|c s IH]; [reflexivity|].
  cbn [all_chars]. rewrite IH.
  destruct (p c), (q c), (all_chars p s), (all_chars q s); reflexivity.
Qed.

(** [RGB_REGEX] matches nowhere in a text without an opening bracket. *)
Lemma RGB_REGEX_needs_bracket (s : string) :
  all_chars (fun c => negb (char_ci "(" c)) s = true -> RGB_REGEX s = None.
Proof.
  unfold RGB_REGEX. induction s as [|c s IH]; intros Hs; [reflexivity|].
  pose proof Hs as Hall.
  cbn [all_chars] in Hs. apply andb_prop in Hs as [_ Hs].
  unfold search; fold search. rewrite (IH Hs).
  replace (RGB_REGEX_at (String c s)) with (@None Captures); [destruct s; reflexivity|].
  unfold RGB_REGEX_at.
  replace (literal "rgb(" (String c s)) with (@None string); [reflexivity|].
  destruct s as [|c2 [|c3 [|c4 rest]]]; cbn [literal];
    repeat match goal with |- context [char_ci ?a ?b] =>
             lazymatch a with
             | "("%char => fail
             | _ => destruct (char_ci a b); try reflexivity
             end
           end.
  cbn [all_chars] in Hall.
  destruct (char_ci "(" c4); [|reflexivity].
  destruct (char_ci "(" c), (char_ci "(" c2), (char_ci "(" c3); discriminate.
Qed.

(** X7: a name of the dictionary, in any case, matches neither pattern:
    for a string that [isNamed] accepts, [isRgb] and [isHex] both answer
    [false], so the order of the three tests in the constructor decides
    nothing for a name. *)
Theorem named_matches_no_pattern (s : string) :
  isNamed (VStr s) = true ->
  isRgb (VStr s) = Ok false /\ isHex (VStr s) = Ok false.
Proof.
  unfold isNamed. intros Hnamed. apply bool_decide_eq_true in Hnamed as [hex Hkey].
  apply assoc_key_In in Hkey.
  pose proof COLORS_keys_plain as Hplain. rewrite forallb_forall in Hplain.
  specialize (Hplain _ Hkey). cbn [fst] in Hplain.
  rewrite all_chars_both, !all_chars_upper in Hplain.
  apply andb_prop in Hplain as [Hbracket Hhash].
  unfold isRgb, isHex, test. cbn [ToString mbind Result_bind].
  rewrite (RGB_REGEX_needs_bracket s Hbracket).
  unfold HEX_REGEX. rewrite (HEX_REGEX_needs_hash s Hhash).
  split; reflexivity.
Qed.

Lemma named_matches_no_pattern_witness :
  isRgb (VStr "dark_red") = Ok false /\ isHex (VStr "dark_red") = Ok false.
Proof. apply (named_matches_no_pattern "dark_red"). reflexivity. Defined.

End ColorMore.

(** ** More on the cursor *)

Module CursorMore.
Import JS Cursor Spec SpecMore CursorFacts DoubleFacts.

(** *** Movements *)

Lemma Qltb_zero_l (x : Q) : Qltb (inject_Z 0) x = (0 <? Qnum x).
Proof.
  unfold Qltb, Qle_bool, inject_Z. destruct x as [n d]. simpl.
  rewrite Z.ltb_antisym. f_equal. f_equal. lia.
Qed.

Lemma Qltb_zero_r (x : Q) : Qltb x (inject_Z 0) = (Qnum x <? 0).
Proof.
  unfold Qltb, Qle_bool, inject_Z. destruct x as [n d]. simpl.
  rewrite Z.ltb_antisym. f_equal. f_equal. lia.
Qed.

Lemma Qfloor_truncate (x : Q) : 0 <= Qnum x -> Qfloor x = truncate x.
Proof.
  destruct x as [n d]. unfold truncate; simpl. intros Hn.
  symmetry. apply Z.quot_div_nonneg; lia.
Qed.

Lemma Qfloor_opp_truncate (x : Q) : Qnum x <= 0 -> Qfloor (Qopp x) = - truncate x.
Proof.
  destruct x as [n d]. unfold truncate; simpl. intros Hn.
  rewrite <- (Z.quot_div_nonneg (- n) (Z.pos d)) by lia.
  rewrite Z.quot_opp_l by lia. reflexivity.
Qed.

Lemma truncate_opp (x : Q) : truncate (Qopp x) = - truncate x.
Proof. destruct x as [n d]. unfold truncate; simpl. apply Z.quot_opp_l. lia. Qed.

Lemma truncate_integer (z : Z) : truncate (inject_Z z) = z.
Proof. unfold truncate; simpl. apply Z.quot_1_r. Qed.

Lemma truncate_zero (x : Q) : Qnum x = 0 -> truncate x = 0.
Proof. destruct x as [n d]. unfold truncate; simpl. intros ->. reflexivity. Qed.

(** Where [moveBy] leaves the cursor. *)
Lemma moveBy_run (x y : Q) (this : Cursor) :
  moveBy x y this =
    Return tt (with_y (_y this + truncate y) (with_x (_x this + truncate x) this)).
Proof.
  unfold moveBy, mbind, M_bind, left, right, up, down, assign, mret, M_ret, or_default.
  rewrite !Qltb_zero_l, !Qltb_zero_r.
  destruct this as [t cx cy bg fg d w h lf].
  destruct (Z.ltb_spec (Qnum x) 0) as [Hx1|Hx1];
    destruct (Z.ltb_spec 0 (Qnum x)) as [Hx2|Hx2]; try lia;
    destruct (Z.ltb_spec (Qnum y) 0) as [Hy1|Hy1];
    destruct (Z.ltb_spec 0 (Qnum y)) as [Hy2|Hy2]; try lia;
    unfold with_y, with_x; cbn [_terminal _x _y _background _foreground _display
                                _width _height _lastFrame];
    rewrite ?(Qfloor_opp_truncate x), ?(Qfloor_opp_truncate y) by lia;
    rewrite ?(Qfloor_truncate x), ?(Qfloor_truncate y) by lia;
    rewrite ?(truncate_zero x), ?(truncate_zero y) by lia;
    f_equal; f_equal; lia.
Qed.

(** With the arithmetic of Numbers [moveBy] ends there too, as long as the
    column and the row it reaches are at most 2^53 in magnitude. *)
Lemma double_moveBy_run (x y : Q) (this : Cursor) :
  safe (_x this + truncate x) -> safe (_y this + truncate y) ->
  Double.moveBy x y this =
    Return tt (with_y (_y this + truncate y) (with_x (_x this + truncate x) this)).
Proof.
  unfold safe. intros Hx Hy.
  unfold Double.moveBy, mbind, M_bind, Double.left, Double.right, Double.up, Double.down,
    assign, mret, M_ret, or_default.
  rewrite !Qltb_zero_l, !Qltb_zero_r.
  destruct this as [t cx cy bg fg d w h lf].
  cbn [_x _y] in Hx, Hy.
  destruct (Z.ltb_spec (Qnum x) 0) as [Hx1|Hx1];
    destruct (Z.ltb_spec 0 (Qnum x)) as [Hx2|Hx2]; try lia;
    destruct (Z.ltb_spec (Qnum y) 0) as [Hy1|Hy1];
    destruct (Z.ltb_spec 0 (Qnum y)) as [Hy2|Hy2]; try lia;
    unfold with_y, with_x; cbn [_terminal _x _y _background _foreground _display
                                _width _height _lastFrame];
    rewrite ?(Qfloor_opp_truncate x), ?(Qfloor_opp_truncate y) by lia;
    rewrite ?(Qfloor_truncate x), ?(Qfloor_truncate y) by lia;
    rewrite ?(truncate_zero x) in * by lia; rewrite ?(truncate_zero y) in * by lia;
    unfold Double.add, Double.sub; rewrite ?nearest_safe by lia;
    f_equal; f_equal; lia.
Qed.

(** X8: while the column and the row it reaches are at most 2^53 in
    magnitude, [moveBy(x, y)] returns with the cursor moved by [x] and [y]
    cut to integers towards zero (so [moveBy(-1.5, 0)] moves one column to
    the left, where [moveTo] and [left] round down); with integers it adds
    them; the buffer, the pen, the size and the last frame are untouched. *)
Theorem moveBy_truncates (x y : Q) (this : Cursor) :
  safe (_x this + truncate x) -> safe (_y this + truncate y) ->
  exists this' : Cursor,
    Double.moveBy x y this = Return tt this' /\
    _x this' = _x this + truncate x /\ _y this' = _y this + truncate y /\
    same_but_position this this' /\
    (forall dx dy : Z, x = inject_Z dx -> y = inject_Z dy ->
       _x this' = _x this + dx /\ _y this' = _y this + dy).
Proof.
  intros Hx Hy.
  eexists. split; [apply double_moveBy_run; assumption|].
  split; [reflexivity|]. split; [reflexivity|]. split; [repeat split|].
  intros dx dy -> ->. simpl. rewrite !truncate_integer. auto.
Qed.

Lemma moveBy_truncates_witness :
  exists this' : Cursor,
    Double.moveBy (-3 # 2) (inject_Z 2) (empty_cursor 3 1) = Return tt this' /\
    _x this' = -1 /\ _y this' = 2.
Proof.
  destruct (moveBy_truncates (-3 # 2) (inject_Z 2) (empty_cursor 3 1))
    as (this' & Hrun & Hx & Hy & _).
  - unfold safe. vm_compute. discriminate.
  - unfold safe. vm_compute. discriminate.
  - exists this'. auto.
Defined.

(** X9: from a column and a row of at most 2^53 in magnitude, and while
    the column and the row it reaches are so too, [moveBy(x, y)] followed
    by [moveBy(-x, -y)] returns with the cursor exactly as it was. *)
Theorem moveBy_back (x y : Q) (this : Cursor) :
  safe (_x this) -> safe (_y this) ->
  safe (_x this + truncate x) -> safe (_y this + truncate y) ->
  (_ ← Double.moveBy x y; Double.moveBy (Qopp x) (Qopp y)) this = Return tt this.
Proof.
  intros Hx0 Hy0 Hx Hy.
  unfold mbind, M_bind. rewrite (double_moveBy_run x y this Hx Hy).
  rewrite double_moveBy_run; rewrite ?truncate_opp;
    destruct this as [t cx cy bg fg d w h lf]; unfold with_y, with_x, safe in *;
    cbn [_terminal _x _y _background _foreground _display _width _height _lastFrame] in *.
  - f_equal. f_equal; lia.
  - replace (cx + truncate x + - truncate x) with cx by lia. exact Hx0.
  - replace (cy + truncate y + - truncate y) with cy by lia. exact Hy0.
Qed.

Lemma moveBy_back_witness :
  (_ ← Double.moveBy (5 # 2) (inject_Z (-3));
   Double.moveBy (Qopp (5 # 2)) (Qopp (inject_Z (-3))))
    (empty_cursor 3 1) = Return tt (empty_cursor 3 1).
Proof.
  apply (moveBy_back (5 # 2) (inject_Z (-3)) (empty_cursor 3 1));
    unfold safe; vm_compute; discriminate.
Defined.

(** X10: from a column and a row of at most 2^53 in magnitude, and for a
    finite step [n], rounded down, that keeps them so in either direction,
    [up] and [down], and [left] and [right], with the same argument undo
    each other in either order; without argument each moves by one
    cell. *)
Theorem relative_moves_cancel (n : option Q) (this : Cursor) :
  safe (_x this) -> safe (_y this) ->
  safe (_x this - Qfloor (or_default n (inject_Z 1))) ->
  safe (_x this + Qfloor (or_default n (inject_Z 1))) ->
  safe (_y this - Qfloor (or_default n (inject_Z 1))) ->
  safe (_y this + Qfloor (or_default n (inject_Z 1))) ->
  (_ ← Double.up n; Double.down n) this = Return tt this /\
  (_ ← Double.down n; Double.up n) this = Return tt this /\
  (_ ← Double.left n; Double.right n) this = Return tt this /\
  (_ ← Double.right n; Double.left n) this = Return tt this /\
  (n = None ->
   Double.up n this = Return tt (with_y (_y this - 1) this) /\
   Double.down n this = Return tt (with_y (_y this + 1) this) /\
   Double.left n this = Return tt (with_x (_x this - 1) this) /\
   Double.right n this = Return tt (with_x (_x this + 1) this)).
Proof.
  unfold safe. intros Hx Hy Hxl Hxr Hyu Hyd.
  destruct this as [t cx cy bg fg d w h lf].
  cbn [_x _y] in *.
  set (f := Qfloor (or_default n (inject_Z 1))) in *.
  assert (Hsub_y : Double.sub cy f = cy - f) by (apply nearest_safe; lia).
  assert (Hadd_y : Double.add cy f = cy + f) by (apply nearest_safe; lia).
  assert (Hsub_x : Double.sub cx f = cx - f) by (apply nearest_safe; lia).
  assert (Hadd_x : Double.add cx f = cx + f) by (apply nearest_safe; lia).
  assert (Hback_y : Double.add (cy - f) f = cy)
    by (unfold Double.add; rewrite nearest_safe by lia; lia).
  assert (Hforth_y : Double.sub (cy + f) f = cy)
    by (unfold Double.sub; rewrite nearest_safe by lia; lia).
  assert (Hback_x : Double.add (cx - f) f = cx)
    by (unfold Double.add; rewrite nearest_safe by lia; lia).
  assert (Hforth_x : Double.sub (cx + f) f = cx)
    by (unfold Double.sub; rewrite nearest_safe by lia; lia).
  unfold mbind, M_bind, Double.up, Double.down, Double.left, Double.right, assign,
    with_x, with_y;
    cbn [_terminal _x _y _background _foreground _display _width _height _lastFrame].
  fold f. rewrite Hsub_y, Hadd_y, Hsub_x, Hadd_x, Hback_y, Hforth_y, Hback_x, Hforth_x.
  split; [reflexivity|]. split; [reflexivity|]. split; [reflexivity|].
  split; [reflexivity|].
  intros Hn. assert (Hf : f = 1) by (unfold f; rewrite Hn; reflexivity).
  rewrite Hf. repeat split.
Qed.

Lemma relative_moves_cancel_witness :
  (_ ← Double.up (Some (7 # 2)); Double.down (Some (7 # 2))) (empty_cursor 3 1) =
    Return tt (empty_cursor 3 1) /\
  Double.right None (empty_cursor 3 1) = Return tt (with_x 1 (empty_cursor 3 1)).
Proof.
  split.
  - apply (relative_moves_cancel (Some (7 # 2)) (empty_cursor 3 1));
      unfold safe; vm_compute; discriminate.
  - apply (relative_moves_cancel None (empty_cursor 3 1));
      [unfold safe; vm_compute; discriminate .. | reflexivity].
Defined.

(** *** The pen *)

Lemma assoc_put_eq (key : string) (v : Val) (props : list (string * Val)) :
  assoc key (put key v props) = Some v.
Proof.
  induction props as [|[k w] props IH]; simpl.
  - rewrite String.eqb_refl. reflexivity.
  - destruct (String.eqb k key) eqn:E; simpl; rewrite E; [reflexivity | exact IH].
Qed.

Lemma assoc_put_ne (key k : string) (v : Val) (props : list (string * Val)) :
  k <> key -> assoc k (put key v props) = assoc k props.
Proof.
  intros Hne. induction props as [|[k' w] props IH]; simpl.
  - destruct (String.eqb key k) eqn:E; [|reflexivity].
    apply String.eqb_eq in E. congruence.
  - destruct (String.eqb k' key) eqn:E; simpl.
    + apply String.eqb_eq in E. subst k'.
      destruct (String.eqb key k) eqn:E'; [|reflexivity].
      apply String.eqb_eq in E'. congruence.
    + rewrite IH. reflexivity.
Qed.

Lemma set_display_flag_object (key : string) (arg : option bool)
    (props : list (string * Val)) (this : Cursor) :
  _display this = VObj props ->
  flag_set key arg props this (set_display_flag key (flag_arg arg) this).
Proof.
  intros Hd. unfold set_display_flag, mbind, M_bind, read, assign. rewrite Hd.
  eexists _, (put key (flag_arg arg) props). split; [reflexivity|].
  split; [reflexivity|]. split.
  { unfold get. rewrite assoc_put_eq. reflexivity. }
  split; [|repeat split].
  intros k Hk. unfold get. rewrite assoc_put_ne by exact Hk. reflexivity.
Qed.

Lemma set_display_flag_primitive (key : string) (v : Val) (this : Cursor) :
  (forall props, _display this <> VObj props) ->
  flag_refused this (set_display_flag key v this).
Proof.
  intros Hd. unfold set_display_flag, flag_refused, mbind, M_bind, read, throw.
  destruct (_display this) as [| |b|n|s|props]; try (eexists; reflexivity).
  exfalso. apply (Hd props). reflexivity.
Qed.

(** X11: when the display attributes of the pen are an object, each of
    [bold], [dim], [underlined], [blink], [reverse] and [hidden] returns
    with its own flag set to the argument, [true] when there is none, every
    other property of the object as before, and the buffer, the position,
    the colours, the size and the last frame untouched. *)
Theorem display_flags_set (arg : option bool) (props : list (string * Val))
    (this : Cursor) :
  _display this = VObj props ->
  flag_set "bold" arg props this (bold arg this) /\
  flag_set "dim" arg props this (dim arg this) /\
  flag_set "underlined" arg props this (underlined arg this) /\
  flag_set "blink" arg props this (blink arg this) /\
  flag_set "reverse" arg props this (reverse arg this) /\
  flag_set "hidden" arg props this (hidden arg this).
Proof.
  intros Hd. repeat split; apply set_display_flag_object, Hd.
Qed.

Lemma display_flags_set_witness :
  flag_set "bold" None [("dim", VBool true)] (with_display (VObj [("dim", VBool true)]) (empty_cursor 3 1))
    (bold None (with_display (VObj [("dim", VBool true)]) (empty_cursor 3 1))).
Proof.
  exact (proj1 (display_flags_set None [("dim", VBool true)]
                  (with_display (VObj [("dim", VBool true)]) (empty_cursor 3 1)) eq_refl)).
Defined.

(** X12: when the display attributes of the pen are no object (the
    constructor passes [false] to [setDisplay]), each of the six flag
    setters throws a [TypeError] and leaves the cursor as it was. *)
Theorem display_flags_refused (arg : option bool) (this : Cursor) :
  (forall props, _display this <> VObj props) ->
  flag_refused this (bold arg this) /\
  flag_refused this (dim arg this) /\
  flag_refused this (underlined arg this) /\
  flag_refused this (blink arg this) /\
  flag_refused this (reverse arg this) /\
  flag_refused this (hidden arg this).
Proof.
  intros Hd. repeat split; apply set_display_flag_primitive, Hd.
Qed.

Lemma display_flags_refused_witness :
  flag_refused (final (setDisplay (VBool false) (empty_cursor 3 1)))
    (bold None (final (setDisplay (VBool false) (empty_cursor 3 1)))).
Proof.
  apply (display_flags_refused None (final (setDisplay (VBool false) (empty_cursor 3 1)))).
  discriminate.
Defined.

Lemma pen_color_run (color : Val) (change : Color.Rgb -> Cursor -> Cursor) (this : Cursor) :
  (c ← lift (Color.create color); assign (change (Color.toRgb c))) this =
    match Color.create color with
    | Ok c => Return tt (change (Color.toRgb c) this)
    | Throw e => Raise e this
    end.
Proof.
  unfold mbind, M_bind, lift. destruct (Color.create color); reflexivity.
Qed.

Lemma toRgb_read (color : Val) (c : Color.Color) :
  Color.create color = Ok c ->
  channel_read (Color.r (Color.toRgb c)) /\ channel_read (Color.g (Color.toRgb c)) /\
  channel_read (Color.b (Color.toRgb c)).
Proof.
  intros Hc. destruct (ColorMore.create_channels_stored color c Hc) as (Sr & Sg & Sb).
  repeat split; apply ColorMore.Math_round_stored; assumption.
Qed.

(** X13: [foreground(color)] and [setForeground(color)] do the same, and
    so do [background(color)] and [setBackground(color)].  When
    [Color.create(color)] throws, they throw the same error and leave the
    cursor as it was; otherwise they return, only that colour of the pen
    has changed, and each of its channels is NaN or an integer from 0 to
    255. *)
Theorem pen_colors (color : Val) (this : Cursor) :
  setForeground color this = foreground color this /\
  setBackground color this = background color this /\
  (forall e, Color.create color = Throw e ->
     foreground color this = Raise e this /\ background color this = Raise e this) /\
  (forall c, Color.create color = Ok c ->
     foreground color this = Return tt (with_foreground (Color.toRgb c) this) /\
     background color this = Return tt (with_background (Color.toRgb c) this) /\
     channel_read (Color.r (Color.toRgb c)) /\ channel_read (Color.g (Color.toRgb c)) /\
     channel_read (Color.b (Color.toRgb c))).
Proof.
  split; [reflexivity|]. split; [reflexivity|]. split.
  - intros e He. unfold foreground, background. rewrite !pen_color_run, He. auto.
  - intros c Hc. unfold foreground, background. rewrite !pen_color_run, Hc.
    split; [reflexivity|]. split; [reflexivity|]. apply (toRgb_read color c Hc).
Qed.

Lemma pen_colors_witness :
  foreground (VStr "rgb(300, 2, 03)") (empty_cursor 3 1) =
    Return tt (with_foreground
                 {| Color.r := IInt 255; Color.g := IInt 2; Color.b := IInt 3 |}
                 (empty_cursor 3 1)) /\
  background (VBool false) (empty_cursor 3 1) =
    Raise (Error_cant_be_parsed (VBool false)) (empty_cursor 3 1).
Proof.
  split.
  - exact (proj1 (proj2 (proj2 (proj2 (pen_colors (VStr "rgb(300, 2, 03)") (empty_cursor 3 1))))
                   {| Color._r := ofZ 255; Color._g := ofZ 2; Color._b := ofZ 3 |} eq_refl)).
  - exact (proj2 (proj1 (proj2 (proj2 (pen_colors (VBool false) (empty_cursor 3 1))))
                   (Error_cant_be_parsed (VBool false)) eq_refl)).
Defined.

(** *** erase: empty rectangles and missing bounds *)

Lemma for_to_empty (lo hi : Z) (body : Z -> M unit) (this : Cursor) :
  hi < lo -> for_to lo hi body this = Return tt this.
Proof.
  intros H. unfold for_to. replace (Z.to_nat (hi - lo + 1)) with 0%nat by lia. reflexivity.
Qed.

Lemma for_count_idle (body : Z -> M unit) (n : nat) :
  (forall i this, body i this = Return tt this) ->
  forall i this, for_count n i body this = Return tt this.
Proof.
  intros Hbody. induction n as [|n IH]; intros i this; [reflexivity|].
  simpl. unfold mbind, M_bind. rewrite Hbody. apply IH.
Qed.

Lemma erase_empty (x1 y1 x2 y2 : Z) (this : Cursor) :
  x2 < x1 \/ y2 < y1 -> erase x1 y1 x2 y2 this = Return tt this.
Proof.
  intros [Hx | Hy]; unfold erase.
  - unfold for_to at 1. apply for_count_idle. intros y this0. apply for_to_empty, Hx.
  - apply for_to_empty, Hy.
Qed.

Lemma erase_empty_ends (x1 y1 x2 y2 : Z) (this : Cursor) :
  y2 < y1 \/ (x2 < x1 /\ counts y1 y2) ->
  ends (fun fuel => Double.erase fuel x1 y1 x2 y2 this) (Return tt this).
Proof.
  intros Hempty.
  assert (Hint : erase x1 y1 x2 y2 this = Return tt this)
    by (apply erase_empty; destruct Hempty as [H | [H _]]; [right | left]; exact H).
  rewrite <- Hint. apply erase_ends.
  - intros Hy. unfold counts. destruct Hempty as [H | [H _]]; lia.
  - destruct Hempty as [H | [_ H]]; [unfold counts; lia | exact H].
  - intros x y Hx Hy. destruct Hempty as [H | [H _]]; lia.
Qed.

(** X14: [erase] with [y2 < y1], or with [x2 < x1] and rows that are
    counted within 2^53, runs no iteration of its inner loop: it returns
    and changes nothing.  So do, with [width - 1] or [height - 1] computed
    without rounding and a row counted within 2^53, [eraseToEnd] with the
    cursor in a column from [width] on, [eraseToStart] with the cursor in a
    negative column, [eraseToDown] with the cursor in a row from [height]
    on, [eraseToUp] with the cursor in a negative row, and [eraseLine] and
    [eraseScreen] with a width below 1. *)
Theorem erase_nothing (x1 y1 x2 y2 : Z) (this : Cursor) :
  (y2 < y1 \/ (x2 < x1 /\ counts y1 y2) ->
   ends (fun fuel => Double.erase fuel x1 y1 x2 y2 this) (Return tt this)) /\
  (_width this <= _x this -> safe (_width this - 1) -> counts (_y this) (_y this) ->
   ends (fun fuel => Double.eraseToEnd fuel this) (Return tt this)) /\
  (_x this < 0 -> counts (_y this) (_y this) ->
   ends (fun fuel => Double.eraseToStart fuel this) (Return tt this)) /\
  (_height this <= _y this -> safe (_height this - 1) ->
   ends (fun fuel => Double.eraseToDown fuel this) (Return tt this)) /\
  (_y this < 0 -> ends (fun fuel => Double.eraseToUp fuel this) (Return tt this)) /\
  (_width this < 1 -> safe (_width this - 1) ->
   (counts (_y this) (_y this) ->
    ends (fun fuel => Double.eraseLine fuel this) (Return tt this)) /\
   (safe (_height this - 1) -> counts 0 (_height this - 1) ->
    ends (fun fuel => Double.eraseScreen fuel this) (Return tt this))).
Proof.
  split; [apply erase_empty_ends|].
  unfold Double.eraseToEnd, Double.eraseToStart, Double.eraseToDown, Double.eraseToUp,
    Double.eraseLine, Double.eraseScreen.
  split; [intros H Hw Hy; rewrite sub_safe by exact Hw; apply erase_empty_ends;
          right; split; [lia | exact Hy]|].
  split; [intros H Hy; apply erase_empty_ends; right; split; [lia | exact Hy]|].
  split; [intros H Hh; rewrite (sub_safe (_height this) 1) by exact Hh;
          apply erase_empty_ends; left; lia|].
  split; [intros H; apply erase_empty_ends; left; lia|].
  intros H Hw. rewrite sub_safe by exact Hw. split.
  - intros Hy. apply erase_empty_ends. right. split; [lia | exact Hy].
  - intros Hh Hrows. rewrite sub_safe by exact Hh.
    apply erase_empty_ends. right. split; [lia | exact Hrows].
Qed.

Lemma erase_nothing_witness :
  _x abc_3x1 = 3 /\
  ends (fun fuel => Double.eraseToEnd fuel abc_3x1) (Return tt abc_3x1) /\
  ends (fun fuel => Double.erase fuel 2 0 1 0 abc_3x1) (Return tt abc_3x1).
Proof.
  split; [reflexivity|]. split.
  - apply (proj1 (proj2 (erase_nothing 0 0 0 0 abc_3x1))).
    + simpl. lia.
    + unfold safe. simpl. lia.
    + unfold counts. simpl. lia.
  - apply (proj1 (erase_nothing 2 0 1 0 abc_3x1)). right.
    split; [lia | unfold counts; lia].
Defined.

Lemma erase_single (x y : Z) (this : Cursor) :
  erase x y x y this = erase_at x y this.
Proof.
  unfold erase, for_to. replace (Z.to_nat (y - y + 1)) with 1%nat by lia.
  replace (Z.to_nat (x - x + 1)) with 1%nat by lia.
  simpl. unfold mbind, M_bind, mret, M_ret.
  destruct (erase_at x y this) as [[] this'|e this']; reflexivity.
Qed.

Lemma erase_at_pointer (x y x' y' : Z) (this : Cursor) :
  getPointerFromXY this (Some x) (Some y) = getPointerFromXY this (Some x') (Some y') ->
  erase_at x y this = erase_at x' y' this.
Proof.
  intros Hp. unfold erase_at, mbind, M_bind, read. rewrite Hp. reflexivity.
Qed.

Lemma erase_next_row (x y : Z) (this : Cursor) :
  erase (x + _width this) y (x + _width this) y this = erase x (y + 1) x (y + 1) this.
Proof.
  rewrite !erase_single. apply erase_at_pointer.
  unfold getPointerFromXY, or_default. lia.
Qed.

(** X15: [erase] tests no column against the width: the position
    [(x + width, y)] is the slot of [(x, y + 1)], and, with counters within
    2^53 and indices computed without rounding, erasing the one is erasing
    the other, with the same result or the same throw. *)
Theorem erase_wraps_rows (x y : Z) (this : Cursor) :
  counts (x + _width this) (x + _width this) -> counts x x ->
  counts y y -> counts (y + 1) (y + 1) ->
  exact_slot this (x + _width this) y -> exact_slot this x (y + 1) ->
  exists o : Outcome unit,
    ends (fun fuel => Double.erase fuel (x + _width this) y (x + _width this) y this) o /\
    ends (fun fuel => Double.erase fuel x (y + 1) x (y + 1) this) o.
Proof.
  intros Hcx' Hcx Hcy Hcy' Hslot' Hslot.
  exists (erase x (y + 1) x (y + 1) this). split.
  - rewrite <- erase_next_row. apply erase_ends; [intros _; assumption | assumption |].
    intros x0 y0 Hx0 Hy0.
    assert (x0 = x + _width this) as -> by lia. assert (y0 = y) as -> by lia.
    exact Hslot'.
  - apply erase_ends; [intros _; assumption | assumption |].
    intros x0 y0 Hx0 Hy0.
    assert (x0 = x) as -> by lia. assert (y0 = y + 1) as -> by lia.
    exact Hslot.
Qed.

Lemma erase_wraps_rows_witness :
  exists o : Outcome unit,
    ends (fun fuel => Double.erase fuel 3 (-1) 3 (-1) abc_3x1) o /\
    ends (fun fuel => Double.erase fuel 0 0 0 0 abc_3x1) o.
Proof.
  apply (erase_wraps_rows 0 (-1) abc_3x1);
    unfold counts, exact_slot, safe; change (_width abc_3x1) with 3; lia.
Defined.

(** On a written 2 x 2 grid [erase(2, 0, 2, 0)] blanks the first cell of
    the second row. *)
Example erase_wraps_rows_example :
  let this := final ((_ ← write "ab"; _ ← moveTo (inject_Z 0) (inject_Z 1); write "cd")
                       (empty_cursor 2 2)) in
  cell_char <$> array_get (_terminal this) 2 = Some "c"%char /\
  cell_char <$> array_get (_terminal (final (erase 2 0 2 0 this))) 2 = Some " "%char.
Proof. split; reflexivity. Qed.

(** *** erase: the two outcomes *)


(** [erase] returns when every position of the pass has a cell, and throws
    a [TypeError] otherwise. *)
Lemma each_erase_cases (l : list (Z * Z)) (this : Cursor) :
  ((forall pos, pos ∈ l -> is_Some (array_get (_terminal this) (pointer_of this pos))) /\
   exists this', each erase_pos l this = Return tt this') \/
  ((exists pos, pos ∈ l /\ array_get (_terminal this) (pointer_of this pos) = None) /\
   exists msg this', each erase_pos l this = Raise (TypeError msg) this').
Proof.
  set (hole := fun pos : Z * Z => array_get (_terminal this) (pointer_of this pos) = None).
  destruct (decide (Exists hole l)) as [Hex | Hall].
  - right. apply Exists_exists in Hex as (pos & Hin & Hpos).
    split; [exists pos; auto|].
    destruct (first_split hole (fun pos => decide (hole pos)) l)
      as (pre & first & post & -> & Hfirst & Hpre); [exists pos; auto|].
    destruct (each_erase_throws pre post first this) as (this' & Hrun & _).
    + intros a Ha. specialize (Hpre a Ha). unfold hole in Hpre.
      destruct (array_get (_terminal this) (pointer_of this a)); [eauto | contradiction].
    + exact Hfirst.
    + eauto.
  - left. assert (Hcells : forall pos, pos ∈ l ->
                    is_Some (array_get (_terminal this) (pointer_of this pos))).
    { intros pos Hin.
      destruct (array_get (_terminal this) (pointer_of this pos)) as [cell|] eqn:E; [eauto|].
      exfalso. apply Hall, Exists_exists. exists pos. auto. }
    split; [exact Hcells|].
    destruct (each_erase_returns l this Hcells) as (this' & Hrun & _). eauto.
Qed.




(** *** erase twice, and the whole screen *)

Lemma array_get_lookup (terminal : Terminal) (p : Z) (cell : Cell) :
  array_get terminal p = Some cell -> terminal !! Z.to_nat p = Some (Some cell).
Proof.
  unfold array_get. destruct (p <? 0); [discriminate|].
  destruct (terminal !! Z.to_nat p) as [[c|]|]; simpl; congruence.
Qed.

Lemma with_terminal_same (this : Cursor) : with_terminal (_terminal this) this = this.
Proof. destruct this; reflexivity. Qed.

(** Blanking a cell that is blank already changes nothing. *)
Lemma erase_pos_blank (this : Cursor) (pos : Z * Z) (cell : Cell) :
  array_get (_terminal this) (pointer_of this pos) = Some (blank cell) ->
  erase_pos pos this = Return tt this.
Proof.
  intros Hcell. rewrite (erase_pos_cell this pos _ Hcell), blank_blank.
  rewrite list_insert_id by (apply array_get_lookup, Hcell).
  rewrite with_terminal_same. reflexivity.
Qed.

Lemma each_erase_blank (l : list (Z * Z)) (this : Cursor) :
  (forall pos, pos ∈ l ->
     exists cell, array_get (_terminal this) (pointer_of this pos) = Some (blank cell)) ->
  each erase_pos l this = Return tt this.
Proof.
  induction l as [|pos l IH]; intros Hblank; [reflexivity|].
  simpl. unfold mbind, M_bind.
  destruct (Hblank pos) as [cell Hcell]; [apply list_elem_of_here|].
  rewrite (erase_pos_blank this pos cell Hcell).
  apply IH. intros pos' Hin. apply Hblank, list_elem_of_further, Hin.
Qed.

Lemma pointer_of_same (this this' : Cursor) (pos : Z * Z) :
  same_cursor this this' -> pointer_of this' pos = pointer_of this pos.
Proof.
  intros (_ & _ & _ & _ & _ & Hw & _). unfold pointer_of, getPointerFromXY. rewrite Hw.
  reflexivity.
Qed.

Lemma each_erase_again (l : list (Z * Z)) (this this' : Cursor) :
  each erase_pos l this = Return tt this' -> each erase_pos l this' = Return tt this'.
Proof.
  intros Hrun.
  destruct (each_erase_cases l this) as [[Hcells _] | [_ (msg & this'' & Hthrow)]];
    [|congruence].
  destruct (each_erase_returns l this Hcells) as (this1 & Hrun1 & Hsame & _ & Hget).
  assert (this1 = this') as -> by congruence.
  apply each_erase_blank. intros pos Hin.
  destruct (Hcells pos Hin) as [cell Hcell]. exists cell.
  rewrite (pointer_of_same this this' pos Hsame), Hget. unfold blanked.
  rewrite decide_True by (apply list_elem_of_fmap; exists pos; auto).
  rewrite Hcell. reflexivity.
Qed.

(** X17: [erase] over a rectangle, run a second time right after, changes
    nothing more: the two calls in a row end like the first alone, in the
    same state when it returns and with the same throw when it throws. *)
Theorem erase_twice (x1 y1 x2 y2 : Z) (this : Cursor) :
  (_ ← erase x1 y1 x2 y2; erase x1 y1 x2 y2) this = erase x1 y1 x2 y2 this.
Proof.
  unfold mbind, M_bind.
  destruct (erase x1 y1 x2 y2 this) as [[] this'|e this'] eqn:Hrun; [|reflexivity].
  rewrite erase_each in Hrun. rewrite erase_each.
  apply each_erase_again with (this := this). exact Hrun.
Qed.




(** *** The line erasers together *)








(** *** write and the whole array *)

Lemma splice_prefix_length (terminal : Terminal) (p : nat) :
  length (take p (terminal ++ replicate (p - length terminal) None)) = p.
Proof. rewrite length_take, length_app, length_replicate. lia. Qed.

Lemma splice_snoc (terminal : Terminal) (p : nat) (cells : list Cell) (cell : Cell) :
  array_set (splice terminal p cells) (p + length cells) cell =
    splice terminal p (cells ++ [cell]).
Proof.
  unfold array_set, splice.
  pose proof (splice_prefix_length terminal p) as Hpre.
  set (pre := take p (terminal ++ replicate (p - length terminal) None)) in *.
  rewrite !length_app, length_map, Hpre, length_drop. simpl length.
  rewrite map_app. simpl map.
  destruct (Nat.ltb_spec (p + length cells)
              (p + (length cells + (length terminal - (p + length cells))))) as [Hlt|Hge].
  - assert (Hin : (p + length cells < length terminal)%nat) by lia.
    destruct (lookup_lt_is_Some_2 terminal (p + length cells) Hin) as [slot Hslot].
    rewrite (drop_S terminal slot (p + length cells) Hslot).
    replace (p + (length cells + 1))%nat with (S (p + length cells)) by lia.
    rewrite insert_app_r_alt by lia. rewrite Hpre. f_equal.
    rewrite insert_app_r_alt by (rewrite length_map; lia).
    rewrite length_map. replace (p + length cells - p - length cells)%nat with 0%nat by lia.
    rewrite <- app_assoc. reflexivity.
  - rewrite (drop_ge terminal (p + length cells)) by lia.
    rewrite (drop_ge terminal (p + (length cells + 1))) by lia.
    replace (p + length cells -
             (p + (length cells + (length terminal - (p + length cells)))))%nat
      with 0%nat by lia.
    simpl. rewrite !app_nil_r, <- !app_assoc. reflexivity.
Qed.

Lemma splice_one (terminal : Terminal) (p : nat) (cell : Cell) :
  array_set terminal p cell = splice terminal p [cell].
Proof.
  unfold array_set, splice. simpl length. simpl map.
  destruct (Nat.ltb_spec p (length terminal)) as [Hlt|Hge].
  - replace (p - length terminal)%nat with 0%nat by lia. simpl replicate.
    rewrite app_nil_r. replace (p + 1)%nat with (S p) by lia.
    apply insert_take_drop. exact Hlt.
  - rewrite (drop_ge terminal (p + 1)) by lia.
    rewrite take_ge by (rewrite length_app, length_replicate; lia).
    rewrite <- app_assoc. reflexivity.
Qed.

Lemma splice_length (terminal : Terminal) (p : nat) (cells : list Cell) :
  length (splice terminal p cells) = Nat.max (length terminal) (p + length cells) \/
  cells = [].
Proof.
  destruct cells as [|c cells]; [right; reflexivity|left].
  unfold splice. rewrite !length_app, splice_prefix_length, length_map, length_drop. lia.
Qed.

(** The characters of a text that fits, one after the other, onto an array
    that holds the cells written so far. *)
Lemma write_chars_splice (bg fg : Color.Rgb) (d : Val) (terminal : Terminal) (p : nat)
    (data : string) :
  forall (this : Cursor) (cells : list Cell),
    fits this data ->
    _terminal this = splice terminal p cells ->
    _y this * _width this + _x this = Z.of_nat (p + length cells) ->
    exists this' : Cursor,
      write_chars bg fg d data this = Return tt this' /\
      _terminal this' =
        splice terminal p (cells ++ written bg fg d (_x this) (_y this) data).
Proof.
  induction data as [|ch rest IH]; intros this cells Hfits Hterm Hptr.
  - exists this. split; [reflexivity|]. simpl. rewrite app_nil_r. exact Hterm.
  - rewrite write_chars_step.
    destruct Hfits as (Hx & Hlen & Hy). simpl String.length in Hlen.
    assert (Hin : (0 <=? _x this) && (_x this <? _width this) &&
                  (0 <=? _y this) && (_y this <? _height this) = true).
    { apply in_bounds_test. unfold in_bounds. lia. }
    rewrite Hin.
    set (cell := {| cell_char := ch; cell_x := _x this; cell_y := _y this;
                    cell_background := bg; cell_foreground := fg; cell_display := d |}).
    set (this1 := with_x (_x this + 1) (with_terminal _ this)).
    destruct (IH this1 (cells ++ [cell])) as (this' & Hrun & Hterm').
    + unfold fits. change (_x this1) with (_x this + 1).
      change (_y this1) with (_y this). change (_width this1) with (_width this).
      change (_height this1) with (_height this). lia.
    + unfold this1. cbn [_terminal with_x with_terminal].
      unfold getPointerFromXY, or_default. rewrite Hptr, Nat2Z.id, Hterm.
      apply splice_snoc.
    + change (_x this1) with (_x this + 1).
      change (_y this1) with (_y this). change (_width this1) with (_width this).
      rewrite length_app. simpl length. lia.
    + exists this'. split; [exact Hrun|]. rewrite Hterm'.
      change (_x this1) with (_x this + 1). change (_y this1) with (_y this).
      rewrite <- app_assoc. reflexivity.
Qed.

Lemma write_splice (data : string) (this : Cursor) :
  fits this data -> data <> EmptyString ->
  exists this' : Cursor,
    write data this = Return tt this' /\
    _terminal this' =
      splice (_terminal this) (Z.to_nat (_y this * _width this + _x this))
        (written (_background this) (_foreground this) (_display this)
           (_x this) (_y this) data) /\
    _lastFrame this' = _lastFrame this.
Proof.
  intros Hfits Hdata. destruct data as [|ch rest]; [contradiction|].
  destruct (write_chars_spec (_background this) (_foreground this) (_display this)
              (String ch rest) this) as (this0 & Hrun0 & Hrest).
  assert (Hframe : _lastFrame this0 = _lastFrame this) by tauto.
  unfold write, mbind, M_bind, read. unfold write in Hrun0.
  rewrite write_chars_step in *.
  pose proof Hfits as (Hx & Hlen & Hy). simpl String.length in Hlen.
  assert (Hin : (0 <=? _x this) && (_x this <? _width this) &&
                (0 <=? _y this) && (_y this <? _height this) = true).
  { apply in_bounds_test. unfold in_bounds. lia. }
  rewrite Hin in *.
  assert (Hrow : 0 <= _y this * _width this) by nia.
  set (cell := {| cell_char := ch; cell_x := _x this; cell_y := _y this;
                  cell_background := _background this;
                  cell_foreground := _foreground this;
                  cell_display := _display this |}).
  set (this1 := with_x (_x this + 1) (with_terminal _ this)) in *.
  destruct (write_chars_splice (_background this) (_foreground this) (_display this)
              (_terminal this) (Z.to_nat (_y this * _width this + _x this))
              rest this1 [cell]) as (this' & Hrun & Hterm).
  - unfold fits. change (_x this1) with (_x this + 1).
    change (_y this1) with (_y this). change (_width this1) with (_width this).
    change (_height this1) with (_height this). lia.
  - unfold this1. cbn [_terminal with_x with_terminal].
    unfold getPointerFromXY, or_default. apply splice_one.
  - change (_x this1) with (_x this + 1).
    change (_y this1) with (_y this). change (_width this1) with (_width this).
    simpl length. lia.
  - exists this'. split; [exact Hrun|]. split; [exact Hterm|]. congruence.
Qed.

(** With integers for Numbers: what [write] makes of the whole array. *)
Lemma write_array (data : string) (this : Cursor) :
  0 <= _x this -> _x this + Z.of_nat (String.length data) <= _width this ->
  0 <= _y this < _height this -> data <> EmptyString ->
  exists this' : Cursor,
    write data this = Return tt this' /\
    (let p := Z.to_nat (_y this * _width this + _x this) in
     let cells := written (_background this) (_foreground this) (_display this)
                    (_x this) (_y this) data in
     _terminal this' =
       take p (_terminal this ++ replicate (p - length (_terminal this)) None) ++
       map Some cells ++ drop (p + String.length data) (_terminal this) /\
     length cells = String.length data /\
     length (_terminal this') =
       Nat.max (length (_terminal this)) (p + String.length data)).
Proof.
  intros Hx Hlen Hy Hdata.
  destruct (write_splice data this) as (this' & Hrun & Hterm & _);
    [unfold fits; auto | exact Hdata |].
  exists this'. split; [exact Hrun|]. cbv zeta.
  assert (Hcells : forall bg fg d x y,
            length (written bg fg d x y data) = String.length data).
  { clear. induction data as [|c rest IH]; intros; simpl; [reflexivity|].
    rewrite IH. reflexivity. }
  split; [|split].
  - rewrite Hterm. unfold splice. rewrite Hcells. reflexivity.
  - apply Hcells.
  - rewrite Hterm.
    destruct (splice_length (_terminal this)
                (Z.to_nat (_y this * _width this + _x this))
                (written (_background this) (_foreground this) (_display this)
                   (_x this) (_y this) data)) as [Hl|Hnil].
    + rewrite Hl, Hcells. reflexivity.
    + apply (f_equal (@length Cell)) in Hnil. rewrite Hcells in Hnil.
      destruct data; [contradiction | discriminate].
Qed.

(** A text that fits the row and ends below the index [bound]: its slots
    are computed without rounding. *)
Lemma fits_exact (data : string) (this : Cursor) (bound : Z) :
  fits this data ->
  _y this * _width this + _x this + Z.of_nat (String.length data) <= bound ->
  bound <= 2 ^ 53 ->
  - 2 ^ 53 <= _x this /\ _x this + Z.of_nat (String.length data) <= 2 ^ 53 /\
  forall i : nat, (i < String.length data)%nat ->
    in_bounds this (_x this + Z.of_nat i) (_y this) ->
    exact_slot this (_x this + Z.of_nat i) (_y this).
Proof.
  intros (Hx & Hlen & Hy) Hend Hbound.
  assert (Hw : 0 <= _width this) by lia.
  assert (Hrow : 0 <= _y this * _width this) by nia.
  split; [lia|]. split; [lia|].
  intros i Hi _. unfold exact_slot, safe. lia.
Qed.

(** X20: on an array (of at most 2^32 - 1 elements), [write] of a text
    that is not empty, fits the row from the cursor's column and ends at
    an index an array can have (below 2^32 - 1) lays its cells over the
    array from the cursor's index: the elements before that index stay,
    with holes up to it when the array was shorter, the cells of the text
    follow one per character, and the elements past them stay; the array
    then has the length it had, or ends with the last cell written. *)
Theorem write_lays_cells (data : string) (this : Cursor) :
  0 <= _x this -> _x this + Z.of_nat (String.length data) <= _width this ->
  0 <= _y this < _height this -> data <> EmptyString ->
  Z.of_nat (length (_terminal this)) <= 2 ^ 32 - 1 ->
  _y this * _width this + _x this + Z.of_nat (String.length data) <= 2 ^ 32 - 1 ->
  exists this' : Cursor,
    Double.write data this = Return tt this' /\
    (let p := Z.to_nat (_y this * _width this + _x this) in
     let cells := written (_background this) (_foreground this) (_display this)
                    (_x this) (_y this) data in
     _terminal this' =
       take p (_terminal this ++ replicate (p - length (_terminal this)) None) ++
       map Some cells ++ drop (p + String.length data) (_terminal this) /\
     length cells = String.length data /\
     length (_terminal this') =
       Nat.max (length (_terminal this)) (p + String.length data)).
Proof.
  intros Hx Hlen Hy Hdata _ Hindex.
  destruct (fits_exact data this (2 ^ 32 - 1)) as (Hlo & Hhi & Hexact);
    [unfold fits; auto | exact Hindex | lia |].
  rewrite (write_safe data this Hlo Hhi Hexact).
  apply write_array; assumption.
Qed.

Lemma write_lays_cells_witness :
  exists this' : Cursor,
    Double.write "bc" (final (moveTo (inject_Z 1) (inject_Z 0) abc_3x1)) = Return tt this' /\
    length (_terminal this') = 3%nat.
Proof.
  destruct (write_lays_cells "bc" (final (moveTo (inject_Z 1) (inject_Z 0) abc_3x1)))
    as (this' & Hrun & _ & _ & Hlen).
  - vm_compute. discriminate.
  - vm_compute. discriminate.
  - vm_compute. split; [discriminate | reflexivity].
  - discriminate.
  - vm_compute. discriminate.
  - vm_compute. discriminate.
  - exists this'. split; [exact Hrun | exact Hlen].
Defined.

(** *** flush, write, flush *)

Lemma append_empty_r (s : string) : String.append s EmptyString = s.
Proof.
  induction s as [|c s IH]; [reflexivity|].
  change (String c (String.append s EmptyString) = String c s). f_equal. exact IH.
Qed.

Lemma emitted_app (encode : Cell -> string) (frame : gset (option string))
    (a b : Terminal) :
  emitted encode frame (a ++ b) =
    String.append (emitted encode frame a) (emitted encode frame b).
Proof.
  induction a as [|[cell|] a IH]; [reflexivity| |exact IH].
  simpl. destruct (decide (Some (encode cell) ∈ frame)); [exact IH|].
  rewrite IH. clear.
  generalize (emitted encode frame a) (emitted encode frame b). intros u v.
  induction (encode cell) as [|c s IHs]; [reflexivity|].
  change (String c (String.append s (String.append u v)) =
          String c (String.append (String.append s u) v)).
  f_equal. exact IHs.
Qed.

(** With integers for Numbers: what the second [flush] emits. *)
Lemma flush_write_flush_run (encode : Cell -> string) (data : string) (this : Cursor)
    (stdout : list string) :
  0 <= _x this -> _x this + Z.of_nat (String.length data) <= _width this ->
  0 <= _y this < _height this ->
  exists this' : Cursor,
    write data (fst (flush encode this stdout)) = Return tt this' /\
    snd (flush encode this' (snd (flush encode this stdout))) =
      snd (flush encode this stdout) ++
      [emitted encode (_lastFrame (fst (flush encode this stdout)))
         (map Some (written (_background this) (_foreground this) (_display this)
                      (_x this) (_y this) data))].
Proof.
  intros Hx Hlen Hy.
  set (this1 := fst (flush encode this stdout)).
  set (out1 := snd (flush encode this stdout)).
  assert (Hdrawn : forall cell, Some cell ∈ _terminal this ->
                     Some (encode cell) ∈ _lastFrame this1).
  { intros cell Hcell. unfold this1, flush. cbn [fst _lastFrame with_lastFrame].
    apply frame_members. apply list_elem_of_lookup in Hcell as [i Hi].
    exists i, (Some cell). split; [exact Hi | reflexivity]. }
  destruct data as [|ch rest].
  - exists this1. split; [reflexivity|].
    unfold flush at 1. cbn [snd]. f_equal. f_equal.
    rewrite flush_chunk. simpl. apply emitted_nothing.
    intros cell Hcell. apply Hdrawn. exact Hcell.
  - destruct (write_splice (String ch rest) this1) as (this' & Hrun & Hterm & Hframe);
      [unfold fits; auto | discriminate |].
    exists this'. split; [exact Hrun|].
    unfold flush at 1. cbn [snd]. f_equal. f_equal.
    rewrite flush_chunk, Hframe, Hterm. unfold splice.
    rewrite !emitted_app.
    rewrite (emitted_nothing encode _ (take _ _)), (emitted_nothing encode _ (drop _ _)).
    + rewrite append_empty_r. reflexivity.
    + intros cell Hcell. apply Hdrawn.
      apply list_elem_of_lookup in Hcell as [i Hi].
      rewrite lookup_drop in Hi. apply list_elem_of_lookup. eexists. exact Hi.
    + intros cell Hcell. apply Hdrawn.
      apply list_elem_of_lookup in Hcell as [i Hi].
      apply lookup_take_Some in Hi as [Hi _].
      apply lookup_app_Some in Hi as [Hi | [_ Hi]].
      * apply list_elem_of_lookup. eexists. exact Hi.
      * apply lookup_replicate in Hi as [Hi _]. discriminate.
Qed.

(** X21: on an array (of at most 2^32 - 1 elements), [flush], then
    [write] of a text that fits the row and ends at an index an array can
    have (below 2^32 - 1), then [flush] again: the second [flush] emits the
    encodings of the cells just written that the first had not retained,
    in the order of the characters, and nothing of the rest of the
    array. *)
Theorem flush_write_flush (encode : Cell -> string) (data : string) (this : Cursor)
    (stdout : list string) :
  0 <= _x this -> _x this + Z.of_nat (String.length data) <= _width this ->
  0 <= _y this < _height this ->
  Z.of_nat (length (_terminal this)) <= 2 ^ 32 - 1 ->
  _y this * _width this + _x this + Z.of_nat (String.length data) <= 2 ^ 32 - 1 ->
  exists this' : Cursor,
    Double.write data (fst (flush encode this stdout)) = Return tt this' /\
    snd (flush encode this' (snd (flush encode this stdout))) =
      snd (flush encode this stdout) ++
      [emitted encode (_lastFrame (fst (flush encode this stdout)))
         (map Some (written (_background this) (_foreground this) (_display this)
                      (_x this) (_y this) data))].
Proof.
  intros Hx Hlen Hy _ Hindex.
  destruct (fits_exact data (fst (flush encode this stdout)) (2 ^ 32 - 1))
    as (Hlo & Hhi & Hexact); [unfold fits; auto | exact Hindex | lia |].
  rewrite (write_safe data _ Hlo Hhi Hexact).
  apply flush_write_flush_run; assumption.
Qed.

Lemma flush_write_flush_witness :
  exists this' : Cursor,
    Double.write "ab" (fst (flush sample_encode (empty_cursor 3 1) [])) = Return tt this' /\
    snd (flush sample_encode this' (snd (flush sample_encode (empty_cursor 3 1) []))) =
      [""; "a@0,0b@1,0"].
Proof.
  destruct (flush_write_flush sample_encode "ab" (empty_cursor 3 1) [])
    as (this' & Hrun & Hout).
  - vm_compute. discriminate.
  - vm_compute. discriminate.
  - vm_compute. split; [discriminate | reflexivity].
  - vm_compute. discriminate.
  - vm_compute. discriminate.
  - exists this'. split; [exact Hrun|]. rewrite Hout. vm_compute. reflexivity.
Defined.

(** *** write, then erase what was written *)

Lemma get_in_length (data : string) :
  forall i : nat, (i < String.length data)%nat -> exists ch, String.get i data = Some ch.
Proof.
  induction data as [|c rest IH]; intros i Hi; simpl in Hi; [lia|].
  destruct i as [|j]; [exists c; reflexivity|]. apply IH. lia.
Qed.

Lemma get_some_length (data : string) :
  forall (i : nat) (ch : ascii), String.get i data = Some ch -> (i < String.length data)%nat.
Proof.
  induction data as [|c rest IH]; intros i ch Hget; [destruct i; discriminate|].
  destruct i as [|j]; simpl; [lia|]. apply IH in Hget. lia.
Qed.

(** With integers for Numbers: [write], then [erase] over what was
    written. *)
Lemma write_erase_run (data : string) (this : Cursor) :
  0 <= _x this -> _x this + Z.of_nat (String.length data) <= _width this ->
  0 <= _y this < _height this ->
  exists this1 this2 : Cursor,
    write data this = Return tt this1 /\
    erase (_x this) (_y this) (_x this + Z.of_nat (String.length data) - 1) (_y this) this1 =
      Return tt this2 /\
    (forall (i : nat) (ch : ascii),
       String.get i data = Some ch ->
       array_get (_terminal this2) (_y this * _width this + (_x this + Z.of_nat i)) =
         Some {| cell_char := " "; cell_x := _x this + Z.of_nat i; cell_y := _y this;
                 cell_background := _background this;
                 cell_foreground := _foreground this;
                 cell_display := _display this |}) /\
    (forall p : Z,
       p < _y this * _width this + _x this \/
       _y this * _width this + _x this + Z.of_nat (String.length data) <= p ->
       array_get (_terminal this2) p = array_get (_terminal this) p) /\
    _x this2 = _x this + Z.of_nat (String.length data) /\ _y this2 = _y this.
Proof.
  intros Hx Hlen Hy.
  destruct (write_chars_spec (_background this) (_foreground this) (_display this) data this)
    as (this1 & Hrun & Hx1 & Hy1 & Hw1 & Hh1 & _ & _ & _ & _ & Hnew & Hold).
  assert (Hinside : forall i : nat, (i < String.length data)%nat ->
                      in_bounds this (_x this + Z.of_nat i) (_y this)).
  { intros i Hi. unfold in_bounds. lia. }
  set (l := rect (_x this) (_y this) (_x this + Z.of_nat (String.length data) - 1) (_y this)).
  assert (Hl : forall x y, (x, y) ∈ l <->
                 exists i : nat, (i < String.length data)%nat /\
                                 x = _x this + Z.of_nat i /\ y = _y this).
  { intros x y. unfold l. rewrite elem_of_rect. split.
    - intros [Hcol Hrow]. exists (Z.to_nat (x - _x this)). lia.
    - intros (i & Hi & -> & ->). lia. }
  assert (Hptr : forall pos, pointer_of this1 pos = pointer_of this pos).
  { intros pos. unfold pointer_of, getPointerFromXY. rewrite Hw1. reflexivity. }
  destruct (each_erase_returns l this1) as (this2 & Herase & Hsame & _ & Hget).
  { intros [x y] Hin. apply Hl in Hin as (i & Hi & -> & ->).
    destruct (get_in_length data i Hi) as [ch Hch].
    rewrite Hptr. unfold pointer_of. cbn [fst snd].
    rewrite (Hnew i ch Hch (Hinside i Hi)). eexists. reflexivity. }
  exists this1, this2. split; [exact Hrun|].
  split; [rewrite erase_each; exact Herase|].
  split; [|split].
  - intros i ch Hch. pose proof (get_some_length data i ch Hch) as Hi.
    rewrite Hget. unfold blanked. rewrite decide_True.
    + pose proof (Hnew i ch Hch (Hinside i Hi)) as Hcell.
      unfold getPointerFromXY, or_default in Hcell. rewrite Hcell. reflexivity.
    + apply elem_of_pointers. exists (_x this + Z.of_nat i), (_y this).
      split; [|rewrite Hw1; reflexivity]. apply Hl. exists i. auto.
  - intros p Hp. rewrite Hget. unfold blanked. rewrite decide_False.
    + apply Hold. intros i Hi _. unfold getPointerFromXY, or_default. lia.
    + intros Hin. apply elem_of_pointers in Hin as (x & y & Hin & ->).
      apply Hl in Hin as (i & Hi & -> & ->). rewrite Hw1 in Hp. lia.
  - destruct Hsame as (Hx2 & Hy2 & _). split; congruence.
Qed.

(** X22: on a grid of at most 2^53 slots, after [write] of a text that is
    not empty and fits the row, [erase] over the columns just written, on
    that row, returns: the slot of every character holds a cell with a
    space, at the character's column and row and with the pen of the
    [write]; every slot before the first or past the last of them is as
    before the [write]; the cursor stays past the text. *)
Theorem write_then_erase (data : string) (this : Cursor) :
  0 <= _x this -> _x this + Z.of_nat (String.length data) <= _width this ->
  0 <= _y this < _height this -> data <> EmptyString ->
  _width this * _height this <= 2 ^ 53 ->
  exists this1 this2 : Cursor,
    Double.write data this = Return tt this1 /\
    ends (fun fuel =>
            Double.erase fuel (_x this) (_y this)
              (_x this + Z.of_nat (String.length data) - 1) (_y this) this1)
      (Return tt this2) /\
    (forall (i : nat) (ch : ascii),
       String.get i data = Some ch ->
       array_get (_terminal this2) (_y this * _width this + (_x this + Z.of_nat i)) =
         Some {| cell_char := " "; cell_x := _x this + Z.of_nat i; cell_y := _y this;
                 cell_background := _background this;
                 cell_foreground := _foreground this;
                 cell_display := _display this |}) /\
    (forall p : Z,
       p < _y this * _width this + _x this \/
       _y this * _width this + _x this + Z.of_nat (String.length data) <= p ->
       array_get (_terminal this2) p = array_get (_terminal this) p) /\
    _x this2 = _x this + Z.of_nat (String.length data) /\ _y this2 = _y this.
Proof.
  intros Hx Hlen Hy Hdata Hsize.
  assert (Hn : (0 < String.length data)%nat) by (destruct data; [contradiction | simpl; lia]).
  assert (Hw : _width this <= 2 ^ 53) by nia.
  assert (Hh : _height this <= 2 ^ 53) by nia.
  destruct (write_erase_run data this Hx Hlen Hy)
    as (this1 & this2 & Hrun & Herase & Hrest).
  exists this1, this2.
  rewrite write_safe;
    [| lia | lia | intros i _ Hin; apply grid_exact; assumption].
  split; [exact Hrun|]. split; [|exact Hrest].
  rewrite <- Herase.
  destruct (write_stores_row data this)
    as (this1' & Hrun' & _ & _ & _ & _ & _ & _ & _ & Hw1 & Hh1 & _).
  assert (this1' = this1) as -> by congruence.
  apply erase_ends.
  - intros _. unfold counts. lia.
  - unfold counts. lia.
  - intros x y Hcol Hrow. apply grid_exact; [rewrite Hw1, Hh1; exact Hsize|].
    unfold in_bounds. rewrite Hw1, Hh1. lia.
Qed.

Lemma write_then_erase_witness :
  exists this1 this2 : Cursor,
    Double.write "ab" (empty_cursor 3 1) = Return tt this1 /\
    ends (fun fuel => Double.erase fuel 0 0 1 0 this1) (Return tt this2) /\ _x this2 = 2.
Proof.
  destruct (write_then_erase "ab" (empty_cursor 3 1))
    as (this1 & this2 & Hrun & Herase & _ & _ & Hx & _).
  - vm_compute. discriminate.
  - vm_compute. discriminate.
  - vm_compute. split; [discriminate | reflexivity].
  - discriminate.
  - vm_compute. discriminate.
  - exists this1, this2. split; [exact Hrun|]. split; [exact Herase | exact Hx].
Defined.

End CursorMore.

